(** * slcan: serial line CAN interface with channel multiplexing

    A shallow embedding of the framing codec, the receive accumulator, the
    transmit flow control, the channel table and the opening and closing of
    the line discipline of [drivers/net/can/slcan.c], and the properties of
    its specification that were checked against it.

    Bytes ([unsigned char]) and C integers are modelled as [Z]; arrays as
    lists indexed with stdpp's lookup and insert; a NULL pointer as [None].
    A function that dereferences a pointer which is NULL returns [None]
    (the kernel oops), so the functions of the receive and transmit paths
    live in the option monad. *)

From Stdlib Require Import ZArith Lia String Ascii.
From stdpp Require Import base tactics option list numbers.

Local Open Scope Z_scope.

(** ** Constants *)

Definition SLCAN_MAGIC : Z := 0x53CA.
Definition MUX_NETDEV_MAX : Z := 10.

(** [sizeof("0T1111222281122334455667788EA5F\r") + 1]: the literal has 32
    characters, [sizeof] counts its NUL. *)
Definition SLC_MTU : Z := 32 + 1 + 1.

Definition SLF_INUSE : Z := 0.
Definition SLF_ERROR : Z := 1.

(** Modelled from the spec: the flag and mask constants of [linux/can.h],
    which is not among the sources.  The identifier is 11 bits wide for a
    standard frame and 29 bits wide for an extended one; the extended and
    the remote-request flags are the two top bits of the 32-bit [can_id]. *)
Definition CAN_EFF_FLAG : Z := 0x80000000.
Definition CAN_RTR_FLAG : Z := 0x40000000.
Definition CAN_SFF_MASK : Z := 0x000007FF.
Definition CAN_EFF_MASK : Z := 0x1FFFFFFF.

(** Modelled from the spec: [TTY_DO_WRITE_WAKEUP] of [linux/tty.h], the bit
    of the transport's flags that requests a writable notification. *)
Definition TTY_DO_WRITE_WAKEUP : Z := 5.

(** [unsigned long] on the 32-bit target of this tree. *)
Definition BITS_PER_LONG : Z := 32.

Definition ulong_add (x y : Z) : Z := (x + y) mod 2 ^ BITS_PER_LONG.
Definition ulong_inc (x : Z) : Z := ulong_add x 1.

(** ASCII codes used by the codec. *)
Definition CR : Z := 13.
Definition BEL : Z := 7.

Definition bytes_of_string (s : string) : list Z :=
  (fun a => Z.of_N (N_of_ascii a)) <$> list_ascii_of_string s.

(** ** Data model *)

(** [struct can_frame]: [can_id] is a [__u32] holding the identifier and the
    flags, [can_dlc] a [__u8], [data] an array of 8 [__u8]. *)
Record can_frame := CanFrame {
  can_id : Z;
  can_dlc : Z;
  data : list Z
}.

Record net_device_stats := NetDeviceStats {
  rx_packets : Z;
  tx_packets : Z;
  rx_bytes : Z;
  tx_bytes : Z;
  rx_errors : Z;
  rx_over_errors : Z
}.

(** [struct slcan_dev].  [xbuff] holds the NUL-terminated string last built
    by [slc_encaps] (without its NUL); [xhead] is the offset of the next
    byte to transmit in it. *)
Record slcan_dev := SlcanDev {
  addr : Z;
  xbuff : list Z;
  xhead : Z;
  xleft : Z
}.

(** The part of [struct net_device] the driver reads and writes:
    [running] is [netif_running], [queue_stopped] the state of the transmit
    queue, [priv] is [netdev_priv], and [rx_queue] the frames handed to
    [netif_rx_ni] with [skb->dev] set to this device, oldest first. *)
Record net_device := NetDevice {
  running : bool;
  queue_stopped : bool;
  stats : net_device_stats;
  priv : slcan_dev;
  rx_queue : list can_frame
}.

(** The transport: its flag word and the bytes its write primitive has
    accepted so far. *)
Record tty_struct := TtyStruct {
  tty_flags : Z;
  wire : list Z
}.

(** [struct slcan_channel]; [dev] has [MUX_NETDEV_MAX] slots and [rbuff]
    has [SLC_MTU] bytes. *)
Record slcan_channel := SlcanChannel {
  magic : Z;
  tty : option tty_struct;
  dev : list (option net_device);
  rbuff : list Z;
  rcount : Z;
  flags : Z
}.

Definition set_tty (sl : slcan_channel) (t : option tty_struct) : slcan_channel :=
  SlcanChannel (magic sl) t (dev sl) (rbuff sl) (rcount sl) (flags sl).
Definition set_dev (sl : slcan_channel) (d : list (option net_device)) : slcan_channel :=
  SlcanChannel (magic sl) (tty sl) d (rbuff sl) (rcount sl) (flags sl).
Definition set_rbuff (sl : slcan_channel) (b : list Z) : slcan_channel :=
  SlcanChannel (magic sl) (tty sl) (dev sl) b (rcount sl) (flags sl).
Definition set_rcount (sl : slcan_channel) (n : Z) : slcan_channel :=
  SlcanChannel (magic sl) (tty sl) (dev sl) (rbuff sl) n (flags sl).
Definition set_flags (sl : slcan_channel) (f : Z) : slcan_channel :=
  SlcanChannel (magic sl) (tty sl) (dev sl) (rbuff sl) (rcount sl) f.

Definition set_stats (nd : net_device) (s : net_device_stats) : net_device :=
  NetDevice (running nd) (queue_stopped nd) s (priv nd) (rx_queue nd).
Definition set_priv (nd : net_device) (p : slcan_dev) : net_device :=
  NetDevice (running nd) (queue_stopped nd) (stats nd) p (rx_queue nd).
Definition set_queue_stopped (nd : net_device) (b : bool) : net_device :=
  NetDevice (running nd) b (stats nd) (priv nd) (rx_queue nd).

(** [sl->dev[i]], a NULL pointer being [None]. *)
Definition dev_at (sl : slcan_channel) (i : Z) : option net_device :=
  mjoin (dev sl !! Z.to_nat i).

(** [sl->rbuff[i]]. *)
Definition rbuff_at (sl : slcan_channel) (i : Z) : Z :=
  default 0 (rbuff sl !! Z.to_nat i).

(** ** Library routines used by the codec *)

Definition is_digit (c : Z) : bool := (48 <=? c) && (c <=? 57).

(** Modelled from the spec: [hex_to_bin] of the kernel library, which is not
    among the sources.  The value of a hexadecimal digit, and a negative
    number for every other character. *)
Definition hex_to_bin (ch : Z) : Z :=
  if (48 <=? ch) && (ch <=? 57) then ch - 48
  else if (97 <=? ch) && (ch <=? 102) then ch - 97 + 10
  else if (65 <=? ch) && (ch <=? 70) then ch - 65 + 10
  else -1.

(** The C string that starts at the head of [s]: the bytes before the
    first NUL. *)
Fixpoint c_string (s : list Z) : list Z :=
  match s with
  | [] => []
  | c :: s' => if c =? 0 then [] else c :: c_string s'
  end.

Fixpoint strtoul_digits (acc : Z) (s : list Z) : option Z :=
  match s with
  | [] => Some acc
  | c :: s' =>
      if hex_to_bin c <? 0 then None
      else strtoul_digits (acc * 16 + hex_to_bin c) s'
  end.

(** Modelled from the spec: [strict_strtoul] of the kernel library in base
    16, which is not among the sources.  The identifier field is parsed as
    hexadecimal and a character that is no hexadecimal digit makes the
    parse fail; so does a string with no digit at all.  [Some v] stands for
    the return value 0 with [v] stored in the result. *)
Definition strict_strtoul (s : list Z) : option Z :=
  match s with
  | [] => None
  | _ => strtoul_digits 0 s
  end.

(** The digit characters of ["0123456789ABCDEF"]. *)
Definition hex_upper (n : Z) : Z := if n <? 10 then 48 + n else 55 + n.

(** The [w] low hexadecimal digits of [v], most significant first. *)
Fixpoint hex_digits (w : nat) (v : Z) : list Z :=
  match w with
  | O => []
  | S w' => hex_digits w' (v / 16) ++ [hex_upper (v mod 16)]
  end.

Fixpoint hex_len (fuel : nat) (v : Z) : nat :=
  match fuel with
  | O => O
  | S f => if v <? 16 then 1%nat else S (hex_len f (v / 16))
  end.

(** Modelled from the spec: the conversion [%0wX] of [sprintf] for an
    [unsigned int] argument: uppercase hexadecimal, padded with zeros to at
    least [w] digits. *)
Definition sprintf_0X (w : nat) (v : Z) : list Z :=
  hex_digits (w `max` hex_len 8 v) v.

Fixpoint dec_digits (w : nat) (v : Z) : list Z :=
  match w with
  | O => []
  | S w' => dec_digits w' (v / 10) ++ [48 + v mod 10]
  end.

(** Modelled from the spec: the conversion [%d] of [sprintf] for a [__u8]
    argument, which has one to three decimal digits. *)
Definition sprintf_d (v : Z) : list Z :=
  dec_digits (if v <? 10 then 1 else if v <? 100 then 2 else 3) v.

(** ** Decapsulation *)

Definition zero_payload : list Z := replicate 8 0.

(** The payload loop of [slc_bump]: [n] bytes are still to be read, [i] is
    the index of the next one and [pos] the value of [dlc_pos].  [None] is
    the early [return] on a character that is no hexadecimal digit. *)
Fixpoint slc_bump_data (buf : list Z) (n : nat) (i : nat) (pos : Z)
    (payload : list Z) : option (list Z) :=
  match n with
  | O => Some payload
  | S n' =>
      let hi := hex_to_bin (default 0 (buf !! Z.to_nat pos)) in
      if hi <? 0 then None
      else
        let lo := hex_to_bin (default 0 (buf !! Z.to_nat (pos + 1))) in
        if lo <? 0 then None
        else slc_bump_data buf n' (S i) (pos + 2)
               (<[i := Z.lor (Z.shiftl hi 4) lo]> payload)
  end.

(** [netif_rx_ni] of a frame for device [nd], followed by the update of its
    receive counters. *)
Definition deliver (nd : net_device) (cf : can_frame) : net_device :=
  NetDevice (running nd) (queue_stopped nd)
    (NetDeviceStats (ulong_inc (rx_packets (stats nd))) (tx_packets (stats nd))
       (ulong_add (rx_bytes (stats nd)) (can_dlc cf)) (tx_bytes (stats nd))
       (rx_errors (stats nd)) (rx_over_errors (stats nd)))
    (priv nd) (rx_queue nd ++ [cf]).

(** The test on the type character: one of 't' (116), 'T' (84), 'r' (114)
    and 'R' (82).  The digits '0'..'9' are 48..57. *)
Definition is_cmd (cmd : Z) : bool :=
  (cmd =? 116) || (cmd =? 84) || (cmd =? 114) || (cmd =? 82).

(** The quantities [slc_bump] computes from the receive buffer before it
    parses the identifier: [ext_frame] (1 when the buffer starts with an
    address digit), the type character [cmd], the position of the DLC digit
    and the test on that digit. *)
Definition ext_frame (sl : slcan_channel) : Z :=
  if is_digit (rbuff_at sl 0) then 1 else 0.

Definition cmd_char (sl : slcan_channel) : Z := rbuff_at sl (ext_frame sl).

Definition dlc_pos (sl : slcan_channel) : Z :=
  if Z.land (cmd_char sl) 0x20 =? 0 then 9 + ext_frame sl else 4 + ext_frame sl.

Definition dlc_ok (c : Z) : bool := (48 <=? c) && (c <? 57).

(** The destination index [dev_idx]: the address digit when there is one. *)
Definition dev_idx_of (sl : slcan_channel) : Z :=
  if ext_frame sl =? 0 then 0 else rbuff_at sl 0 - 48.

(** [slc_bump]: decode the receive buffer and send the frame to the network
    layer.  [skb_ok] tells whether [dev_alloc_skb] returns a buffer. *)
Definition slc_bump (skb_ok : bool) (sl : slcan_channel) : slcan_channel :=
  let cmd := cmd_char sl in
  if negb (is_cmd cmd) then sl
  else
    if negb (dlc_ok (rbuff_at sl (dlc_pos sl))) then sl
    else
      let dlc := rbuff_at sl (dlc_pos sl) - 48 in
      let sl1 := set_rbuff sl (<[Z.to_nat (dlc_pos sl) := 0]> (rbuff sl)) in
      match strict_strtoul (c_string (drop (Z.to_nat (1 + ext_frame sl)) (rbuff sl1))) with
      | None => sl1
      | Some ultmp =>
          let id0 := ultmp mod 2 ^ 32 in
          let id1 := if Z.land cmd 0x20 =? 0 then Z.lor id0 CAN_EFF_FLAG else id0 in
          let id2 := if Z.lor cmd 0x20 =? 114 then Z.lor id1 CAN_RTR_FLAG else id1 in
          match slc_bump_data (rbuff sl1) (Z.to_nat dlc) 0 (dlc_pos sl + 1) zero_payload with
          | None => sl1
          | Some payload =>
              if negb skb_ok then sl1
              else
                let dev_idx := if ext_frame sl =? 0 then 0 else rbuff_at sl1 0 - 48 in
                match dev_at sl1 dev_idx with
                | None => sl1
                | Some nd =>
                    set_dev sl1
                      (<[Z.to_nat dev_idx := Some (deliver nd (CanFrame id2 dlc payload))]>
                         (dev sl1))
                end
          end
      end.

Definition is_terminator (s : Z) : bool := (s =? CR) || (s =? BEL).

(** [stats.rx_over_errors++] and [stats.rx_errors++] on a device. *)
Definition count_overrun (nd : net_device) : net_device :=
  let st := stats nd in
  set_stats nd
    (NetDeviceStats (rx_packets st) (tx_packets st) (rx_bytes st) (tx_bytes st)
       (rx_errors st) (ulong_inc (rx_over_errors st))).

Definition count_rx_error (nd : net_device) : net_device :=
  let st := stats nd in
  set_stats nd
    (NetDeviceStats (rx_packets st) (tx_packets st) (rx_bytes st) (tx_bytes st)
       (ulong_inc (rx_errors st)) (rx_over_errors st)).

(** [slcan_unesc]: one byte of the input stream.  [None] is the
    dereference of [sl->dev[0]] when that slot is NULL. *)
Definition slcan_unesc (skb_ok : bool) (sl : slcan_channel) (s : Z)
    : option slcan_channel :=
  if is_terminator s then
    let err := Z.testbit (flags sl) SLF_ERROR in
    let sl1 := set_flags sl (Z.clearbit (flags sl) SLF_ERROR) in
    let sl2 := if negb err && (4 <? rcount sl1) then slc_bump skb_ok sl1 else sl1 in
    Some (set_rcount sl2 0)
  else if negb (Z.testbit (flags sl) SLF_ERROR) then
    if rcount sl <? SLC_MTU then
      Some (set_rcount (set_rbuff sl (<[Z.to_nat (rcount sl) := s]> (rbuff sl)))
              (rcount sl + 1))
    else
      nd ← dev_at sl 0;
      Some (set_flags (set_dev sl (<[0%nat := Some (count_overrun nd)]> (dev sl)))
              (Z.setbit (flags sl) SLF_ERROR))
  else Some sl.

(** The loop of [slcan_receive_buf] over the block [cp]; [fp] is the
    optional array of line-error flags, [i] the index of the head of [cp]
    in the block, and [skb j] the outcome of the buffer allocation made
    while byte [j] is processed. *)
Fixpoint slcan_receive_loop (skb : nat → bool) (fp : option (list Z)) (i : nat)
    (sl : slcan_channel) (cp : list Z) : option slcan_channel :=
  match cp with
  | [] => Some sl
  | c :: cp' =>
      let flag := match fp with None => 0 | Some f => default 0 (f !! i) end in
      if negb (flag =? 0) then
        sl' ← (if Z.testbit (flags sl) SLF_ERROR
               then Some (set_flags sl (Z.setbit (flags sl) SLF_ERROR))
               else
                 nd ← dev_at sl 0;
                 Some (set_flags (set_dev sl (<[0%nat := Some (count_rx_error nd)]> (dev sl)))
                         (Z.setbit (flags sl) SLF_ERROR)));
        slcan_receive_loop skb fp (S i) sl' cp'
      else
        sl' ← slcan_unesc (skb i) sl c;
        slcan_receive_loop skb fp (S i) sl' cp'
  end.

(** [slcan_receive_buf] for a transport whose [disc_data] is the channel
    [sl]. *)
Definition slcan_receive_buf (skb : nat → bool) (sl : slcan_channel)
    (cp : list Z) (fp : option (list Z)) : option slcan_channel :=
  if negb (magic sl =? SLCAN_MAGIC) then Some sl
  else
    nd0 ← dev_at sl 0;
    if negb (running nd0) then Some sl
    else slcan_receive_loop skb fp 0 sl cp.

(** ** Encapsulation *)

(** The payload loop of [slc_encaps]: [n] bytes are still to be printed with
    [%02X], [i] is the index of the next one. *)
Fixpoint slc_encaps_data (payload : list Z) (n : nat) (i : nat) : list Z :=
  match n with
  | O => []
  | S n' => sprintf_0X 2 (default 0 (payload !! i)) ++ slc_encaps_data payload n' (S i)
  end.

(** The string [slc_encaps] builds in [xbuff] for the frame [cf] and the
    device address [dev_idx] (an address is in 0..9, so that
    [dev_idx + '0'] is a digit).  It is the string of the source for a
    frame with [can_dlc] at most 8, whose string fits [xbuff] and whose
    payload loop stays inside [data]; the statements about it are made for
    such frames and addresses. *)
Definition slc_encaps_string (muxnetdevs : Z) (cf : can_frame) (dev_idx : Z) : list Z :=
  let cmd := if Z.land (can_id cf) CAN_RTR_FLAG =? 0 then 84 else 82 in
  let head :=
    if muxnetdevs <? 2 then
      if negb (Z.land (can_id cf) CAN_EFF_FLAG =? 0) then
        [cmd] ++ sprintf_0X 8 (Z.land (can_id cf) CAN_EFF_MASK) ++ sprintf_d (can_dlc cf)
      else
        [Z.lor cmd 0x20] ++ sprintf_0X 3 (Z.land (can_id cf) CAN_SFF_MASK)
          ++ sprintf_d (can_dlc cf)
    else
      let if_idx := dev_idx + 48 in
      if negb (Z.land (can_id cf) CAN_EFF_FLAG =? 0) then
        [if_idx; cmd] ++ sprintf_0X 8 (Z.land (can_id cf) CAN_EFF_MASK)
          ++ sprintf_d (can_dlc cf)
      else
        [if_idx; Z.lor cmd 0x20] ++ sprintf_0X 3 (Z.land (can_id cf) CAN_SFF_MASK)
          ++ sprintf_d (can_dlc cf) in
  head ++ slc_encaps_data (data cf) (Z.to_nat (can_dlc cf)) 0 ++ [CR].

(** The write primitive of the transport, called with the bytes [buf]: it
    accepts [actual] of them and returns that number. *)
Definition tty_write (t : tty_struct) (buf : list Z) (actual : Z) : tty_struct :=
  TtyStruct (tty_flags t) (wire t ++ take (Z.to_nat actual) buf).

(** [slc_encaps] for the device in slot [i] (whose private part is
    [sl_dev]) and the address [dev_idx]; [actual] is what the transport's
    write returns. *)
Definition slc_encaps (muxnetdevs : Z) (actual : Z) (sl : slcan_channel) (i : Z)
    (cf : can_frame) (dev_idx : Z) : option slcan_channel :=
  nd ← dev_at sl i;
  t ← tty sl;
  let s := slc_encaps_string muxnetdevs cf dev_idx in
  let t1 := TtyStruct (Z.setbit (tty_flags t) TTY_DO_WRITE_WAKEUP) (wire t) in
  let t2 := tty_write t1 s actual in
  let p := SlcanDev (addr (priv nd)) s actual (Z.of_nat (length s) - actual) in
  let sl1 := set_tty (set_dev sl (<[Z.to_nat i := Some (set_priv nd p)]> (dev sl)))
               (Some t2) in
  nd1 ← dev_at sl1 dev_idx;
  let st := stats nd1 in
  let nd2 := set_stats nd1
    (NetDeviceStats (rx_packets st) (tx_packets st) (rx_bytes st)
       (ulong_add (tx_bytes st) (can_dlc cf)) (rx_errors st) (rx_over_errors st)) in
  Some (set_dev sl1 (<[Z.to_nat dev_idx := Some nd2]> (dev sl1))).

(** [slc_xmit] for the device in slot [i]; [skb_len] is [skb->len] and
    [sizeof(struct can_frame)] is 16. *)
Definition slc_xmit (muxnetdevs : Z) (actual : Z) (sl : slcan_channel) (i : Z)
    (skb_len : Z) (cf : can_frame) : option slcan_channel :=
  nd ← dev_at sl i;
  if negb (skb_len =? 16) then Some sl
  else if negb (running nd) then Some sl
  else
    match tty sl with
    | None => Some sl
    | Some _ =>
        let a := addr (priv nd) in
        nda ← dev_at sl a;
        let sl1 := set_dev sl (<[Z.to_nat a := Some (set_queue_stopped nda true)]> (dev sl)) in
        slc_encaps muxnetdevs actual sl1 i cf a
    end.

(** The loop of [slcan_write_wakeup]: [n] devices are still to be visited,
    [i] is the index of the next one, and [w j] is what the transport's
    write returns when it is called for device [j].  The bytes handed to
    the write are those of [xbuff] from the offset [xhead] on, an offset
    that is not negative as long as no write returns a negative number. *)
Fixpoint slcan_write_wakeup_loop (w : Z → Z) (n : nat) (i : Z)
    (sl : slcan_channel) : option slcan_channel :=
  match n with
  | O => Some sl
  | S n' =>
      nd ← dev_at sl i;
      if negb (running nd) then slcan_write_wakeup_loop w n' (i + 1) sl
      else
        t ← tty sl;
        let p := priv nd in
        if xleft p <=? 0 then
          let st := stats nd in
          let nd' := NetDevice (running nd) false
            (NetDeviceStats (rx_packets st) (ulong_inc (tx_packets st)) (rx_bytes st)
               (tx_bytes st) (rx_errors st) (rx_over_errors st))
            (priv nd) (rx_queue nd) in
          let t' := TtyStruct (Z.clearbit (tty_flags t) TTY_DO_WRITE_WAKEUP) (wire t) in
          slcan_write_wakeup_loop w n' (i + 1)
            (set_tty (set_dev sl (<[Z.to_nat i := Some nd']> (dev sl))) (Some t'))
        else
          let actual := w i in
          let buf := take (Z.to_nat (xleft p)) (drop (Z.to_nat (xhead p)) (xbuff p)) in
          let t' := tty_write t buf actual in
          let p' := SlcanDev (addr p) (xbuff p) (xhead p + actual) (xleft p - actual) in
          slcan_write_wakeup_loop w n' (i + 1)
            (set_tty (set_dev sl (<[Z.to_nat i := Some (set_priv nd p')]> (dev sl)))
               (Some t'))
  end.

(** [slcan_write_wakeup] for the transport of the channel [sl] (its
    [disc_data] is [sl], and [tty sl] is that transport). *)
Definition slcan_write_wakeup (muxnetdevs : Z) (w : Z → Z) (sl : slcan_channel)
    : option slcan_channel :=
  if negb (magic sl =? SLCAN_MAGIC) then Some sl
  else slcan_write_wakeup_loop w (Z.to_nat muxnetdevs) 0 sl.

(** ** Channel set-up *)

Definition zero_stats : net_device_stats := NetDeviceStats 0 0 0 0 0 0.

(** The device [slc_alloc] creates for address [j]: zeroed by
    [alloc_netdev], then [addr] and [xleft] are set. *)
Definition alloc_netdev (j : Z) : net_device :=
  NetDevice false false zero_stats (SlcanDev j [] 0 0) [].

(** The channel [slc_alloc] returns when every allocation succeeds: zeroed,
    with one device in each of the first [muxnetdevs] slots. *)
Definition slc_alloc (muxnetdevs : Z) : slcan_channel :=
  SlcanChannel SLCAN_MAGIC None
    ((fun j => if Z.of_nat j <? muxnetdevs then Some (alloc_netdev (Z.of_nat j)) else None)
       <$> seq 0 (Z.to_nat MUX_NETDEV_MAX))
    (replicate (Z.to_nat SLC_MTU) 0) 0 0.

(** What [slcan_open] does to the allocated channel: link the transport,
    reset the receive counter, mark the channel in use. *)
Definition slcan_open (t : tty_struct) (sl : slcan_channel) : slcan_channel :=
  set_flags (set_rcount (set_tty sl (Some t)) 0) (Z.setbit (flags sl) SLF_INUSE).

(** Bringing the device in slot [i] up: the network layer marks it running
    and calls [slc_open], which fails when the channel has no transport. *)
Definition slc_open (sl : slcan_channel) (i : Z) : option slcan_channel :=
  nd ← dev_at sl i;
  match tty sl with
  | None => Some sl
  | Some _ =>
      let nd' := NetDevice true false (stats nd) (priv nd) (rx_queue nd) in
      Some (set_flags (set_dev sl (<[Z.to_nat i := Some nd']> (dev sl)))
              (Z.land (flags sl) (Z.shiftl 1 SLF_INUSE)))
  end.

(** A channel on an idle transport with all its [muxnetdevs] devices up. *)
Fixpoint open_all (n : nat) (i : Z) (sl : slcan_channel) : option slcan_channel :=
  match n with
  | O => Some sl
  | S n' => sl' ← slc_open sl i; open_all n' (i + 1) sl'
  end.

Definition channel_up (muxnetdevs : Z) : option slcan_channel :=
  open_all (Z.to_nat muxnetdevs) 0 (slcan_open (TtyStruct 0 []) (slc_alloc muxnetdevs)).

(** ** Frames *)

Definition frame_id (cf : can_frame) : Z := Z.land (can_id cf) CAN_EFF_MASK.
Definition frame_eff (cf : can_frame) : bool := negb (Z.land (can_id cf) CAN_EFF_FLAG =? 0).
Definition frame_rtr (cf : can_frame) : bool := negb (Z.land (can_id cf) CAN_RTR_FLAG =? 0).

(** A valid frame: [can_id] is a 32-bit value whose identifier fits the
    declared width, [can_dlc] is at most 8 and [data] is 8 bytes. *)
Definition valid_frame (cf : can_frame) : Prop :=
  0 ≤ can_id cf < 2 ^ 32 ∧
  (frame_eff cf = false → frame_id cf ≤ CAN_SFF_MASK) ∧
  0 ≤ can_dlc cf ≤ 8 ∧
  length (data cf) = 8%nat ∧
  Forall (fun b => 0 ≤ b < 256) (data cf).

(** Feeding the bytes [bs] to [slcan_unesc] one after the other, every
    buffer allocation succeeding or failing as [skb_ok] says. *)
Fixpoint slcan_feed (skb_ok : bool) (sl : slcan_channel) (bs : list Z)
    : option slcan_channel :=
  match bs with
  | [] => Some sl
  | b :: bs' => sl' ← slcan_unesc skb_ok sl b; slcan_feed skb_ok sl' bs'
  end.

(** ** The buffer in the words of the specification *)

(** The identifier field as the specification words it: the bytes between
    the type character and the DLC position. *)
Definition id_span (sl : slcan_channel) : list Z :=
  take (Z.to_nat (dlc_pos sl - 1 - ext_frame sl))
    (drop (Z.to_nat (1 + ext_frame sl)) (rbuff sl)).

(** The payload field: [2 * dlc] characters after the DLC digit. *)
Definition payload_span (sl : slcan_channel) : list Z :=
  take (2 * Z.to_nat (rbuff_at sl (dlc_pos sl) - 48))
    (drop (Z.to_nat (dlc_pos sl + 1)) (rbuff sl)).

Definition is_hex (c : Z) : bool := 0 <=? hex_to_bin c.

(** A malformed buffer in the words of the specification: a bad type
    character, a DLC digit out of range, or a character that is no
    hexadecimal digit in the identifier or in the payload field. *)
Definition malformed (sl : slcan_channel) : bool :=
  negb (is_cmd (cmd_char sl))
  || negb (dlc_ok (rbuff_at sl (dlc_pos sl)))
  || negb (forallb is_hex (id_span sl))
  || negb (forallb is_hex (payload_span sl)).

(** The address test in the words of the specification: the leading digit
    is looked for only on a channel with more than one endpoint. *)
Definition spec_addr_present (mux_count : Z) (sl : slcan_channel) : bool :=
  (1 <? mux_count) && is_digit (rbuff_at sl 0).

Definition spec_type_char (mux_count : Z) (sl : slcan_channel) : Z :=
  rbuff_at sl (if spec_addr_present mux_count sl then 1 else 0).

(** ** Notions used in the statements *)

(** The [can_id] that [slc_bump] builds from the type character and the
    parsed identifier. *)
Definition decoded_id (cmd ultmp : Z) : Z :=
  let id0 := ultmp mod 2 ^ 32 in
  let id1 := if Z.land cmd 0x20 =? 0 then Z.lor id0 CAN_EFF_FLAG else id0 in
  if Z.lor cmd 0x20 =? 114 then Z.lor id1 CAN_RTR_FLAG else id1.

(** The buffer once [slc_bump] has terminated the identifier string. *)
Definition id_terminated (sl : slcan_channel) : list Z :=
  <[Z.to_nat (dlc_pos sl) := 0]> (rbuff sl).

(** [slc_bump] with the parse of the identifier string left open: [parse]
    stands for the call of [strict_strtoul] in base 16, whatever strings
    the kernel's routine accepts and whatever value it gives for them.
    [slc_bump] is [slc_bump_with strict_strtoul]. *)
Definition slc_bump_with (parse : list Z → option Z) (skb_ok : bool)
    (sl : slcan_channel) : slcan_channel :=
  let cmd := cmd_char sl in
  if negb (is_cmd cmd) then sl
  else
    if negb (dlc_ok (rbuff_at sl (dlc_pos sl))) then sl
    else
      let dlc := rbuff_at sl (dlc_pos sl) - 48 in
      let sl1 := set_rbuff sl (<[Z.to_nat (dlc_pos sl) := 0]> (rbuff sl)) in
      match parse (c_string (drop (Z.to_nat (1 + ext_frame sl)) (rbuff sl1))) with
      | None => sl1
      | Some ultmp =>
          let id0 := ultmp mod 2 ^ 32 in
          let id1 := if Z.land cmd 0x20 =? 0 then Z.lor id0 CAN_EFF_FLAG else id0 in
          let id2 := if Z.lor cmd 0x20 =? 114 then Z.lor id1 CAN_RTR_FLAG else id1 in
          match slc_bump_data (rbuff sl1) (Z.to_nat dlc) 0 (dlc_pos sl + 1) zero_payload with
          | None => sl1
          | Some payload =>
              if negb skb_ok then sl1
              else
                let dev_idx := if ext_frame sl =? 0 then 0 else rbuff_at sl1 0 - 48 in
                match dev_at sl1 dev_idx with
                | None => sl1
                | Some nd =>
                    set_dev sl1
                      (<[Z.to_nat dev_idx := Some (deliver nd (CanFrame id2 dlc payload))]>
                         (dev sl1))
                end
          end
      end.

(** The malformed buffers that [slc_bump] drops whatever the parse of the
    identifier string makes of it: a bad type character, a DLC digit out of
    range, or a character that is no hexadecimal digit in the payload
    field. *)
Definition malformed_framing (sl : slcan_channel) : bool :=
  negb (is_cmd (cmd_char sl))
  || negb (dlc_ok (rbuff_at sl (dlc_pos sl)))
  || negb (forallb is_hex (payload_span sl)).

(** The payload array once bytes [i .. i + n - 1] of [payload] have been
    copied into [acc]. *)
Fixpoint store_payload (payload : list Z) (n i : nat) (acc : list Z) : list Z :=
  match n with
  | O => acc
  | S n' => store_payload payload n' (S i) (<[i := default 0 (payload !! i)]> acc)
  end.

(** The parts of the string [slc_encaps] prints before the DLC digit. *)
Definition enc_prefix (muxnetdevs dev_idx : Z) : list Z :=
  if muxnetdevs <? 2 then [] else [dev_idx + 48].

Definition enc_cmd (cf : can_frame) : Z :=
  let cmd := if Z.land (can_id cf) CAN_RTR_FLAG =? 0 then 84 else 82 in
  if Z.land (can_id cf) CAN_EFF_FLAG =? 0 then Z.lor cmd 0x20 else cmd.

Definition enc_id_value (cf : can_frame) : Z :=
  if Z.land (can_id cf) CAN_EFF_FLAG =? 0 then Z.land (can_id cf) CAN_SFF_MASK
  else Z.land (can_id cf) CAN_EFF_MASK.

Definition enc_id_width (cf : can_frame) : nat :=
  if Z.land (can_id cf) CAN_EFF_FLAG =? 0 then 3%nat else 8%nat.

(** The frame the decoder builds from the string of [cf]. *)
Definition decoded_frame (cf : can_frame) : can_frame :=
  CanFrame (decoded_id (enc_cmd cf) (enc_id_value cf)) (can_dlc cf)
    (store_payload (data cf) (Z.to_nat (can_dlc cf)) 0 zero_payload).

(** The bytes [slc_encaps] prints before the terminator. *)
Definition enc_body (muxnetdevs : Z) (cf : can_frame) (dev_idx : Z) : list Z :=
  (enc_prefix muxnetdevs dev_idx ++ [enc_cmd cf])
    ++ hex_digits (enc_id_width cf) (enc_id_value cf)
    ++ (48 + can_dlc cf) :: slc_encaps_data (data cf) (Z.to_nat (can_dlc cf)) 0.

(** The transmitted-packet counter and the pending byte count of the
    endpoint in slot [i]. *)
Definition tx_count (sl : slcan_channel) (i : Z) : option Z :=
  (fun nd => tx_packets (stats nd)) <$> dev_at sl i.

Definition pending (sl : slcan_channel) (i : Z) : option Z :=
  (fun nd => xleft (priv nd)) <$> dev_at sl i.

(** What one writable notification does to a device when the transport
    accepts [actual] bytes of its pending suffix. *)
Definition wakeup_device (actual : Z) (nd : net_device) : net_device :=
  if negb (running nd) then nd
  else if xleft (priv nd) <=? 0 then
    NetDevice (running nd) false
      (NetDeviceStats (rx_packets (stats nd)) (ulong_inc (tx_packets (stats nd)))
         (rx_bytes (stats nd)) (tx_bytes (stats nd)) (rx_errors (stats nd))
         (rx_over_errors (stats nd)))
      (priv nd) (rx_queue nd)
  else
    set_priv nd
      (SlcanDev (addr (priv nd)) (xbuff (priv nd)) (xhead (priv nd) + actual)
         (xleft (priv nd) - actual)).

(** ** Channels and frames of the worked examples *)

(** A channel with two endpoints, both up, and one with a single endpoint. *)
Definition channel_up2 : slcan_channel := default (slc_alloc 2) (channel_up 2).
Definition channel_up1 : slcan_channel := default (slc_alloc 1) (channel_up 1).

(** A channel with two endpoints of which only endpoint 1 is up. *)
Definition channel_dev0_down : slcan_channel :=
  default (slc_alloc 2) (slc_open (slcan_open (TtyStruct 0 []) (slc_alloc 2)) 1).

(** The device of an endpoint that is up and has seen no traffic. *)
Definition fresh_device (j : Z) : net_device :=
  NetDevice true false zero_stats (SlcanDev j [] 0 0) [].

(** An extended frame with two data bytes; the third byte of its [data]
    array is beyond the DLC. *)
Definition example_frame : can_frame :=
  CanFrame (Z.lor 0x12ABCDEF CAN_EFF_FLAG) 2 [0xAA; 0x55; 0x11; 0; 0; 0; 0; 0].

(** [channel_up1] once its endpoint has sent the frame 0x123 with the data
    bytes 1 2 3, of whose 12 encoded bytes the transport took 5. *)
Definition channel_pending : slcan_channel :=
  default channel_up1
    (slc_xmit 1 5 channel_up1 0 16 (CanFrame 0x123 3 [1; 2; 3; 0; 0; 0; 0; 0])).

(** [channel_up1] with the bytes of "t1232AA55" accumulated. *)
Definition channel_t1232AA55 : slcan_channel :=
  default channel_up1 (slcan_feed true channel_up1 (bytes_of_string "t1232AA55")).

(** ** Taking an interface down *)

(** [slc_close] for the device in slot [i]: the request for a writable
    notification is withdrawn when the channel has a transport, the queue
    of the device is stopped, and the receive counter of the channel and
    the pending count of the device are zeroed. *)
Definition slc_close (sl : slcan_channel) (i : Z) : option slcan_channel :=
  nd ← dev_at sl i;
  let t' := (fun t => TtyStruct (Z.clearbit (tty_flags t) TTY_DO_WRITE_WAKEUP) (wire t))
              <$> tty sl in
  let p := priv nd in
  let nd' := NetDevice (running nd) true (stats nd)
               (SlcanDev (addr p) (xbuff p) (xhead p) 0) (rx_queue nd) in
  Some (set_rcount (set_tty (set_dev sl (<[Z.to_nat i := Some nd']> (dev sl))) t') 0).

(** Modelled from the spec: [dev_close] of the network core, which is not
    among the sources.  An interface that is up is taken down: the driver's
    close routine ([ndo_stop], which is [slc_close]) is called and the
    interface is no longer running; an interface that is down is left as
    it is. *)
Definition dev_close (sl : slcan_channel) (i : Z) : option slcan_channel :=
  nd ← dev_at sl i;
  if negb (running nd) then Some sl
  else
    sl1 ← slc_close sl i;
    nd1 ← dev_at sl1 i;
    Some (set_dev sl1
            (<[Z.to_nat i := Some (NetDevice false (queue_stopped nd1) (stats nd1)
                                     (priv nd1) (rx_queue nd1))]> (dev sl1))).

(** ** The channel table *)

(** [slcan_channels[i]] in the table of channel pointers, a NULL pointer
    being [None]. *)
Definition channel_at (tbl : list (option slcan_channel)) (i : Z) : option slcan_channel :=
  mjoin (tbl !! Z.to_nat i).



(** The outcome of a routine that returns 0 or an error: one of the error
    numbers the driver names, or the nonzero value a kernel routine
    returned to it. *)
Inductive errno := EPERM | EOPNOTSUPP | EEXIST | ENFILE | ENOMEM.

Inductive status :=
  | Success
  | Errno (e : errno)
  | Status (err : Z).



(** The search of [slc_alloc] for a free entry: [n] entries are still to be
    looked at, [i] is the index of the next one.  The result is the index
    of the first NULL entry, or the index after the last entry looked at. *)
Fixpoint slc_free_slot (tbl : list (option slcan_channel)) (n : nat) (i : Z) : Z :=
  match n with
  | O => i
  | S n' =>
      match channel_at tbl i with
      | None => i
      | Some _ => slc_free_slot tbl n' (i + 1)
      end
  end.

(** [slc_alloc] on the table: the entry found and the table afterwards.
    [kzalloc_ok] tells whether the channel is allocated and [netdev_ok j]
    whether [alloc_netdev] succeeds for device [j]; the channel stored is
    the one [slc_alloc] above builds.  ([muxnetdevs] is at most
    [MUX_NETDEV_MAX] after [slcan_init], so that every device has a slot in
    [dev].) *)
Definition slc_alloc_table (maxchannel muxnetdevs : Z) (kzalloc_ok : bool)
    (netdev_ok : Z → bool) (tbl : list (option slcan_channel))
    : option Z * list (option slcan_channel) :=
  let i := slc_free_slot tbl (Z.to_nat maxchannel) 0 in
  if maxchannel <=? i then (None, tbl)
  else if negb kzalloc_ok then (None, tbl)
  else if negb (forallb netdev_ok (Z.of_nat <$> seq 0 (Z.to_nat muxnetdevs))) then (None, tbl)
  else (Some i, <[Z.to_nat i := Some (slc_alloc muxnetdevs)]> tbl).

(** The count [devs_in_use] of [slc_free_netdev]: the devices in the [n]
    slots from [i] on. *)
Fixpoint devs_in_use (sl : slcan_channel) (n : nat) (i : Z) : Z :=
  match n with
  | O => 0
  | S n' =>
      (match dev_at sl i with Some _ => 1 | None => 0 end) + devs_in_use sl n' (i + 1)
  end.

(** [slc_free_netdev] for the device in slot [j] of the channel that entry
    [c] of the table points to.  The slot [dev_idx] read from the device is
    cleared; when no device is left in the first [muxnetdevs] slots the
    entry of the channel is cleared, and the channel is freed.  [None] is
    the dereference of a NULL pointer. *)
Definition slc_free_netdev (maxchannel muxnetdevs : Z)
    (tbl : list (option slcan_channel)) (c j : Z)
    : option (list (option slcan_channel)) :=
  sl ← channel_at tbl c;
  nd ← dev_at sl j;
  let dev_idx := addr (priv nd) in
  let sl1 := set_dev sl (<[Z.to_nat dev_idx := None]> (dev sl)) in
  if devs_in_use sl1 (Z.to_nat muxnetdevs) 0 =? 0 then
    Some (if c <? maxchannel then <[Z.to_nat c := None]> tbl else tbl)
  else Some (<[Z.to_nat c := Some sl1]> tbl).

(** The inner loop of [slc_sync] for the channel [sl] found in entry [i] of
    the table: [n] rounds are still to run.  Every round reads
    [sl->dev[i]], the slot that has the index of the channel in the table,
    and [flags & IFF_UP] is read as [running].  The array [dev] has
    [MUX_NETDEV_MAX] slots: for an index that is not below it the read is
    outside the array, and the result is [None], as for the dereference of
    a NULL pointer. *)
Fixpoint slc_sync_devs (n : nat) (i : Z) (sl : slcan_channel) : option slcan_channel :=
  match n with
  | O => Some sl
  | S n' =>
      if MUX_NETDEV_MAX <=? i then None
      else
        match dev_at sl i with
        | None => slc_sync_devs n' i sl
        | Some nd =>
            if running nd then sl' ← dev_close sl i; slc_sync_devs n' i sl'
            else slc_sync_devs n' i sl
        end
  end.

(** The outer loop of [slc_sync]: it stops at the first NULL entry and
    skips the channels that have a transport.  [None] is the read outside
    [dev] that the inner loop makes for a channel without transport in an
    entry from [MUX_NETDEV_MAX] on. *)
Fixpoint slc_sync_loop (muxnetdevs : Z) (n : nat) (i : Z) (tbl : list (option slcan_channel))
    : option (list (option slcan_channel)) :=
  match n with
  | O => Some tbl
  | S n' =>
      match channel_at tbl i with
      | None => Some tbl
      | Some sl =>
          match tty sl with
          | Some _ => slc_sync_loop muxnetdevs n' (i + 1) tbl
          | None =>
              sl' ← slc_sync_devs (Z.to_nat muxnetdevs) i sl;
              slc_sync_loop muxnetdevs n' (i + 1) (<[Z.to_nat i := Some sl']> tbl)
          end
      end
  end.

Definition slc_sync (maxchannel muxnetdevs : Z) (tbl : list (option slcan_channel))
    : option (list (option slcan_channel)) :=
  slc_sync_loop muxnetdevs (Z.to_nat maxchannel) 0 tbl.

(** ** Opening and closing the line discipline *)

(** The table together with [tty->disc_data] of the transport at hand: the
    entry of the channel it points to, [None] being NULL. *)
Record ldisc_state := LdiscState {
  slcan_channels : list (option slcan_channel);
  disc_data : option Z
}.

(** The registration loop of [slcan_open]: [register_netdevice j] is what
    the registration of device [j] returns; the result is the first
    nonzero one, or 0. *)
Fixpoint register_netdevices (register_netdevice : Z → Z) (n : nat) (i : Z) : Z :=
  match n with
  | O => 0
  | S n' =>
      if register_netdevice i =? 0 then register_netdevices register_netdevice n' (i + 1)
      else register_netdevice i
  end.

(** [slcan_open] in full, for the transport [t]: [capable] is the outcome of
    the capability test and [write_op] tells whether the transport has a
    write routine; the other parameters are those of [slc_alloc_table] and
    [register_netdevices].  The channel is linked as [slcan_open] above
    says.  [None] is the dereference of a pointer to a channel that is no
    longer in the table, or a read outside [dev] in the sweep. *)
Definition slcan_open_tty (maxchannel muxnetdevs : Z) (capable write_op kzalloc_ok : bool)
    (netdev_ok : Z → bool) (register_netdevice : Z → Z) (t : tty_struct)
    (st : ldisc_state) : option (status * ldisc_state) :=
  if negb capable then Some (Errno EPERM, st)
  else if negb write_op then Some (Errno EOPNOTSUPP, st)
  else
    tbl ← slc_sync maxchannel muxnetdevs (slcan_channels st);
    connected ← match disc_data st with
                | None => Some false
                | Some c => sl ← channel_at tbl c; Some (magic sl =? SLCAN_MAGIC)
                end;
    if (connected : bool) then Some (Errno EEXIST, LdiscState tbl (disc_data st))
    else
      match slc_alloc_table maxchannel muxnetdevs kzalloc_ok netdev_ok tbl with
      | (None, tbl1) => Some (Errno ENFILE, LdiscState tbl1 (disc_data st))
      | (Some i, tbl1) =>
          sl ← channel_at tbl1 i;
          if Z.testbit (flags sl) SLF_INUSE then
            Some (Success, LdiscState (<[Z.to_nat i := Some (set_tty sl (Some t))]> tbl1)
                             (Some i))
          else
            let sl1 := slcan_open t sl in
            let err := register_netdevices register_netdevice (Z.to_nat muxnetdevs) 0 in
            if err =? 0 then
              Some (Success, LdiscState (<[Z.to_nat i := Some sl1]> tbl1) (Some i))
            else
              Some (Status err,
                    LdiscState
                      (<[Z.to_nat i :=
                           Some (set_flags (set_tty sl1 None)
                                   (Z.clearbit (flags sl1) SLF_INUSE))]> tbl1)
                      None)
      end.

(** Modelled from the spec: [unregister_netdev] of the network core, which
    is not among the sources, for the device in slot [j] of the channel in
    entry [c]: the interface is taken down if it is up, and the teardown of
    the endpoint completes in its destructor, which [slc_setup] sets to
    [slc_free_netdev]. *)
Definition unregister_netdev (maxchannel muxnetdevs : Z)
    (tbl : list (option slcan_channel)) (c j : Z)
    : option (list (option slcan_channel)) :=
  sl ← channel_at tbl c;
  sl' ← dev_close sl j;
  slc_free_netdev maxchannel muxnetdevs (<[Z.to_nat c := Some sl']> tbl) c j.

(** The loop of [slcan_close] over the devices of the channel in entry
    [c]. *)
Fixpoint slcan_close_loop (maxchannel muxnetdevs : Z) (n : nat) (i : Z)
    (tbl : list (option slcan_channel)) (c : Z) : option (list (option slcan_channel)) :=
  match n with
  | O => Some tbl
  | S n' =>
      tbl' ← unregister_netdev maxchannel muxnetdevs tbl c i;
      slcan_close_loop maxchannel muxnetdevs n' (i + 1) tbl' c
  end.

(** [slcan_close]; [same_tty] is the outcome of the comparison of
    [sl->tty] with the transport that is closed, when [sl->tty] is not
    NULL. *)
Definition slcan_close (same_tty : bool) (maxchannel muxnetdevs : Z) (st : ldisc_state)
    : option ldisc_state :=
  match disc_data st with
  | None => Some st
  | Some c =>
      sl ← channel_at (slcan_channels st) c;
      if negb (magic sl =? SLCAN_MAGIC) then Some st
      else
        match tty sl with
        | None => Some st
        | Some _ =>
            if negb same_tty then Some st
            else
              tbl ← slcan_close_loop maxchannel muxnetdevs (Z.to_nat muxnetdevs) 0
                      (<[Z.to_nat c := Some (set_tty sl None)]> (slcan_channels st)) c;
              Some (LdiscState tbl None)
        end
  end.

(** [slcan_hangup] is [slcan_close]. *)
Definition slcan_hangup (same_tty : bool) (maxchannel muxnetdevs : Z) (st : ldisc_state)
    : option ldisc_state :=
  slcan_close same_tty maxchannel muxnetdevs st.

(** ** Accounting of the receive path *)

Definition sum_dlc (fs : list can_frame) : Z :=
  foldr (fun cf n => can_dlc cf + n) 0 fs.

(** The device [nd'] is the device [nd] after the frames [fs] were handed
    to the network layer for it: they follow the older ones in the receive
    queue, [rx_packets] has grown by their number and [rx_bytes] by the sum
    of their DLCs, both as [unsigned long]; the transmit side of the device
    is as it was. *)
Definition rx_accounted (nd nd' : net_device) (fs : list can_frame) : Prop :=
  rx_queue nd' = rx_queue nd ++ fs ∧
  rx_packets (stats nd')
    = (rx_packets (stats nd) + Z.of_nat (length fs)) mod 2 ^ BITS_PER_LONG ∧
  rx_bytes (stats nd') = (rx_bytes (stats nd) + sum_dlc fs) mod 2 ^ BITS_PER_LONG ∧
  tx_packets (stats nd') = tx_packets (stats nd) ∧
  tx_bytes (stats nd') = tx_bytes (stats nd) ∧
  running nd' = running nd ∧
  queue_stopped nd' = queue_stopped nd ∧
  priv nd' = priv nd.

(** The line-error flag of byte [i] of a block: [fp[i]], and 0 when the
    transport passes no flag array. *)
Definition line_flag (fp : option (list Z)) (i : nat) : Z :=
  match fp with None => 0 | Some f => default 0 (f !! i) end.

(** ** Successive writable notifications *)

(** One [slcan_write_wakeup] after the other; the transport's write returns
    [w j] for device [j] during the notification that [w] stands for. *)
Fixpoint write_wakeups (muxnetdevs : Z) (ws : list (Z → Z)) (sl : slcan_channel)
    : option slcan_channel :=
  match ws with
  | [] => Some sl
  | w :: ws' => sl' ← slcan_write_wakeup muxnetdevs w sl; write_wakeups muxnetdevs ws' sl'
  end.

(** The number of bytes the transport takes from device [i] over the
    notifications [ws]. *)
Definition accepted (ws : list (Z → Z)) (i : Z) : Z :=
  foldr (fun w n => w i + n) 0 ws.

(** The transport never returns more than it was given: every write for
    device [i] takes between 0 and the [left] bytes still pending. *)
Fixpoint accepts_within (left : Z) (ws : list (Z → Z)) (i : Z) : Prop :=
  match ws with
  | [] => True
  | w :: ws' => 0 ≤ w i ≤ left ∧ accepts_within (left - w i) ws' i
  end.

(** The bytes the transport has accepted on the channel [sl]. *)
Definition wire_of (sl : slcan_channel) : list Z :=
  match tty sl with
  | Some t => wire t
  | None => []
  end.

(** The bytes one writable notification puts on the wire for a device
    when the transport accepts [actual] bytes: the head of its pending
    suffix if it is running with bytes pending, nothing otherwise. *)
Definition wakeup_chunk (actual : Z) (nd : net_device) : list Z :=
  if running nd && (0 <? xleft (priv nd)) then
    take (Z.to_nat actual)
      (take (Z.to_nat (xleft (priv nd)))
         (drop (Z.to_nat (xhead (priv nd))) (xbuff (priv nd))))
  else [].

(** The chunks of the [n] devices from slot [i] on, in slot order. *)
Fixpoint wakeup_chunks (w : Z → Z) (sl : slcan_channel) (n : nat) (i : Z) : list Z :=
  match n with
  | O => []
  | S n' =>
      from_option (wakeup_chunk (w i)) [] (dev_at sl i) ++ wakeup_chunks w sl n' (i + 1)
  end.

(** The channel [sl] is sending the string [s] from its endpoint [i], with
    [left] bytes still pending: the transport has taken the bytes before
    them since the wire held [w0], every slot below [muxnetdevs] has a
    device, and no other endpoint has bytes pending. *)
Definition sending (muxnetdevs i : Z) (s w0 : list Z) (left : Z) (sl : slcan_channel)
    : Prop :=
  magic sl = SLCAN_MAGIC ∧
  (∃ t, tty sl = Some t ∧ wire t = w0 ++ take (Z.to_nat (Z.of_nat (length s) - left)) s) ∧
  (∀ k, 0 ≤ k < muxnetdevs → k ≠ i →
     ∃ ndk, dev_at sl k = Some ndk ∧ (running ndk = false ∨ xleft (priv ndk) ≤ 0)) ∧
  ∃ nd,
    dev_at sl i = Some nd ∧ running nd = true ∧ xbuff (priv nd) = s ∧
    xhead (priv nd) = Z.of_nat (length s) - left ∧ xleft (priv nd) = left.

(** The transmit cursor of a device lies inside its transmit buffer: the
    string in [xbuff] fits the [SLC_MTU] bytes of the array together with
    its NUL, and the [xleft] bytes from [xhead] on, which the next write
    hands to the transport, are bytes of that string. *)
Definition cursor_ok (nd : net_device) : Prop :=
  0 ≤ xhead (priv nd) ∧ 0 ≤ xleft (priv nd) ∧
  xhead (priv nd) + xleft (priv nd) ≤ Z.of_nat (length (xbuff (priv nd))) ∧
  Z.of_nat (length (xbuff (priv nd))) < SLC_MTU.

Definition cursors_ok (muxnetdevs : Z) (sl : slcan_channel) : Prop :=
  ∀ j nd, 0 ≤ j < muxnetdevs → dev_at sl j = Some nd → cursor_ok nd.

(** [example_frame] with the data bytes beyond its DLC cleared. *)
Definition example_frame_padded : can_frame :=
  CanFrame (Z.lor 0x12ABCDEF CAN_EFF_FLAG) 2 [0xAA; 0x55; 0; 0; 0; 0; 0; 0].

(** A table of four entries whose first one holds a channel linked to its
    transport, and the state of a second transport that points to no
    channel yet. *)
Definition table_one_taken : list (option slcan_channel) :=
  [Some channel_up2; None; None; None].

Definition state_unbound : ldisc_state := LdiscState table_one_taken None.

(** [state_unbound] once [slcan_open] has succeeded, every allocation and
    registration going well. *)
Definition state_opened : ldisc_state :=
  default state_unbound
    (snd <$> slcan_open_tty 4 2 true true true (fun _ => true) (fun _ => 0)
               (TtyStruct 0 []) state_unbound).

(** [state_unbound] once [slcan_open] has failed because the registration
    of the second device returned -19. *)
Definition state_failed : ldisc_state :=
  default state_unbound
    (snd <$> slcan_open_tty 4 2 true true true (fun _ => true)
               (fun j => if j =? 1 then -19 else 0) (TtyStruct 0 []) state_unbound).

(** [channel_up2] after a hangup: both endpoints are up, the transport is
    gone. *)
Definition channel_hungup : slcan_channel := set_tty channel_up2 None.

(** A table of twelve entries: a channel without transport in entry 0,
    channels linked to their transports in entries 1 and 10, the other
    entries free. *)
Definition table_twelve : list (option slcan_channel) :=
  [Some channel_hungup; Some channel_up2] ++ replicate 8 None ++ [Some channel_up2; None].

(** A transport that points to no channel yet, and the state once
    [slcan_open] has succeeded for it on [table_twelve]. *)
Definition state_unbound12 : ldisc_state := LdiscState table_twelve None.

Definition state_opened12 : ldisc_state :=
  default state_unbound12
    (snd <$> slcan_open_tty 12 2 true true true (fun _ => true) (fun _ => 0)
               (TtyStruct 0 []) state_unbound12).

(** A table of twelve entries that are all taken by linked channels. *)
Definition table_full : list (option slcan_channel) := replicate 12 (Some channel_up2).

(** ** The model on the examples of the source's header *)

Example encaps_t1230 :
  slc_encaps_string 1 (CanFrame 0x123 0 zero_payload) 0 = bytes_of_string "t1230" ++ [CR].
Proof. reflexivity. Qed.

Example encaps_t4563112233 :
  slc_encaps_string 1 (CanFrame 0x456 3 [0x11; 0x22; 0x33; 0; 0; 0; 0; 0]) 0
  = bytes_of_string "t4563112233" ++ [CR].
Proof. reflexivity. Qed.

Example bump_r1230 :
  (sl ← channel_up 1;
   sl' ← slcan_feed true sl (bytes_of_string "r1230" ++ [CR]);
   rx_queue <$> dev_at sl' 0)
  = Some [CanFrame (Z.lor 0x123 CAN_RTR_FLAG) 0 zero_payload].
Proof. reflexivity. Qed.

(** ** Basic facts about the setters and [slc_bump] *)

#[local] Arguments Z.testbit : simpl never.
#[local] Arguments Z.clearbit : simpl never.
#[local] Arguments Z.setbit : simpl never.
#[local] Arguments Z.land : simpl never.
#[local] Arguments Z.lor : simpl never.
#[local] Arguments Z.shiftl : simpl never.
#[local] Arguments Z.modulo : simpl never.
#[local] Arguments Z.div : simpl never.
#[local] Arguments Z.pow : simpl never.
#[local] Arguments Z.to_nat : simpl never.
#[local] Arguments Z.of_nat : simpl never.

(** Comparisons of integers in boolean form, decided case by case. *)
Ltac bool_lia :=
  repeat match goal with
         | |- context [?a <=? ?b] => destruct (Z.leb_spec a b)
         | |- context [?a <? ?b] => destruct (Z.ltb_spec a b)
         | |- context [?a =? ?b] => destruct (Z.eqb_spec a b)
         end;
  cbn [andb orb negb]; first [reflexivity | lia].

Lemma slc_bump_flags skb sl : flags (slc_bump skb sl) = flags sl.
Proof.
  unfold slc_bump.
  repeat (match goal with
          | |- context [if ?b then _ else _] => destruct b
          | |- context [match ?o with Some _ => _ | None => _ end] => destruct o
          end; try reflexivity).
Qed.

Lemma slc_bump_rcount skb sl : rcount (slc_bump skb sl) = rcount sl.
Proof.
  unfold slc_bump.
  repeat (match goal with
          | |- context [if ?b then _ else _] => destruct b
          | |- context [match ?o with Some _ => _ | None => _ end] => destruct o
          end; try reflexivity).
Qed.

Lemma ext_frame_cases sl : ext_frame sl = 0 ∨ ext_frame sl = 1.
Proof. unfold ext_frame. destruct (is_digit _); auto. Qed.

Lemma dlc_pos_ge sl : 4 ≤ dlc_pos sl ≤ 10.
Proof.
  unfold dlc_pos. destruct (ext_frame_cases sl) as [-> | ->];
    destruct (_ =? _); lia.
Qed.

Lemma rbuff_at_0_insert sl p c :
  0 < p → rbuff_at (set_rbuff sl (<[Z.to_nat p := c]> (rbuff sl))) 0 = rbuff_at sl 0.
Proof.
  intros Hp. unfold rbuff_at. simpl.
  rewrite list_lookup_insert_ne by lia. reflexivity.
Qed.

(** [slc_bump] either leaves every device as it is, or every test of the
    decoder passed and one frame went to the device at [dev_idx_of sl]. *)
Lemma slc_bump_cases skb sl :
  dev (slc_bump skb sl) = dev sl ∨
  ∃ nd ultmp payload,
    is_cmd (cmd_char sl) = true ∧
    dlc_ok (rbuff_at sl (dlc_pos sl)) = true ∧
    strict_strtoul (c_string (drop (Z.to_nat (1 + ext_frame sl)) (id_terminated sl)))
      = Some ultmp ∧
    slc_bump_data (id_terminated sl) (Z.to_nat (rbuff_at sl (dlc_pos sl) - 48)) 0
      (dlc_pos sl + 1) zero_payload = Some payload ∧
    skb = true ∧
    dev_at sl (dev_idx_of sl) = Some nd ∧
    slc_bump skb sl =
      set_dev (set_rbuff sl (id_terminated sl))
        (<[Z.to_nat (dev_idx_of sl) :=
             Some (deliver nd (CanFrame (decoded_id (cmd_char sl) ultmp)
                                 (rbuff_at sl (dlc_pos sl) - 48) payload))]> (dev sl)).
Proof.
  unfold slc_bump.
  destruct (is_cmd (cmd_char sl)) eqn:Hcmd; simpl; [| by left].
  destruct (dlc_ok (rbuff_at sl (dlc_pos sl))) eqn:Hdlc; simpl; [| by left].
  fold (id_terminated sl).
  destruct (strict_strtoul _) as [ultmp |] eqn:Hid; [| by left].
  destruct (slc_bump_data _ _ _ _ _) as [payload |] eqn:Hdata; [| by left].
  destruct skb; simpl; [| by left].
  assert (Hr0 : rbuff_at (set_rbuff sl (id_terminated sl)) 0 = rbuff_at sl 0).
  { apply rbuff_at_0_insert. pose proof (dlc_pos_ge sl). lia. }
  rewrite Hr0. fold (dev_idx_of sl).
  change (dev_at (set_rbuff sl (id_terminated sl)) (dev_idx_of sl))
    with (dev_at sl (dev_idx_of sl)).
  destruct (dev_at sl (dev_idx_of sl)) as [nd |] eqn:Hdev; [| by left].
  right. exists nd, ultmp, payload. by repeat split.
Qed.

(** ** The terminator *)

(** C6.  On a terminator byte (CR or BEL) [slcan_unesc] returns, the
    receive counter is 0 and the error flag is clear afterwards, whatever
    the decoder did; the decoder runs when the flag was clear and more than
    4 bytes were accumulated, and when the flag was set or at most 4 bytes
    were accumulated no decode is attempted: only the counter and the flag
    change. *)
Theorem terminator_resets skb sl s :
  s = CR ∨ s = BEL →
  ∃ sl',
    slcan_unesc skb sl s = Some sl' ∧
    rcount sl' = 0 ∧
    Z.testbit (flags sl') SLF_ERROR = false ∧
    (Z.testbit (flags sl) SLF_ERROR = false → 4 < rcount sl →
     sl' = set_rcount (slc_bump skb (set_flags sl (Z.clearbit (flags sl) SLF_ERROR))) 0) ∧
    (Z.testbit (flags sl) SLF_ERROR = true ∨ rcount sl ≤ 4 →
     sl' = set_rcount (set_flags sl (Z.clearbit (flags sl) SLF_ERROR)) 0).
Proof.
  intros Hs.
  assert (Ht : is_terminator s = true) by (destruct Hs as [-> | ->]; reflexivity).
  unfold slcan_unesc. rewrite Ht. eexists. split; [reflexivity |].
  split; [reflexivity |]. split.
  - simpl. destruct (negb _ && _); simpl;
      rewrite ?slc_bump_flags; simpl; apply Z.clearbit_eq.
  - split.
    + intros He Hc. rewrite He. simpl.
      destruct (4 <? rcount sl) eqn:E; [reflexivity | lia].
    + intros [He | Hc].
      * rewrite He. reflexivity.
      * simpl. destruct (4 <? rcount sl) eqn:E; [lia |].
        rewrite andb_false_r. reflexivity.
Qed.

(** ** Endpoint 0 guards the receive path *)

(** C10.  When the interface of endpoint 0 is not running,
    [slcan_receive_buf] returns with the channel as it was: receive buffer,
    counter, error flag and every device (so every receive queue) are
    untouched, whatever the block holds and whatever the state of the other
    endpoints. *)
Theorem receive_gated_by_endpoint0 skb sl cp fp nd0 :
  dev_at sl 0 = Some nd0 →
  running nd0 = false →
  slcan_receive_buf skb sl cp fp = Some sl.
Proof.
  intros Hd Hr. unfold slcan_receive_buf.
  destruct (negb (magic sl =? SLCAN_MAGIC)); [reflexivity |].
  rewrite Hd. simpl. rewrite Hr. reflexivity.
Qed.

(** ** The DLC digit *)

(** C4.  The DLC test passes exactly for the digits '0'..'8'.  When the
    byte at the DLC position is one of them (and the type character is
    valid, which fixes that position), [slc_bump] goes on and terminates the
    identifier string there; for every other byte, '9' included, it returns
    with the channel unchanged, so no frame is delivered. *)
Theorem dlc_digit_range skb sl :
  (dlc_ok (rbuff_at sl (dlc_pos sl)) = true ↔ 48 ≤ rbuff_at sl (dlc_pos sl) ≤ 56) ∧
  (is_cmd (cmd_char sl) = true → 48 ≤ rbuff_at sl (dlc_pos sl) ≤ 56 →
   rbuff (slc_bump skb sl) = <[Z.to_nat (dlc_pos sl) := 0]> (rbuff sl)) ∧
  (¬ 48 ≤ rbuff_at sl (dlc_pos sl) ≤ 56 → slc_bump skb sl = sl) ∧
  (rbuff_at sl (dlc_pos sl) = 57 → slc_bump skb sl = sl).
Proof.
  assert (Hiff : dlc_ok (rbuff_at sl (dlc_pos sl)) = true
                 ↔ 48 ≤ rbuff_at sl (dlc_pos sl) ≤ 56).
  { unfold dlc_ok. rewrite andb_true_iff, Z.leb_le, Z.ltb_lt. lia. }
  assert (Hno : ¬ 48 ≤ rbuff_at sl (dlc_pos sl) ≤ 56 → slc_bump skb sl = sl).
  { intros Hn. unfold slc_bump.
    destruct (is_cmd (cmd_char sl)); [| reflexivity]. cbn [negb].
    destruct (dlc_ok (rbuff_at sl (dlc_pos sl))) eqn:E; [| reflexivity].
    exfalso. apply Hn, Hiff. reflexivity. }
  split; [exact Hiff |]. split; [| split; [exact Hno |]].
  - intros Hcmd Hr. apply Hiff in Hr. unfold slc_bump. rewrite Hcmd, Hr. simpl.
    repeat (match goal with
            | |- context [if ?b then _ else _] => destruct b
            | |- context [match ?o with Some _ => _ | None => _ end] => destruct o
            end; try reflexivity).
  - intros H9. apply Hno. lia.
Qed.

(** ** The payload of a delivered frame *)

Lemma slc_bump_data_frame buf n : ∀ i pos payload payload',
  slc_bump_data buf n i pos payload = Some payload' →
  length payload' = length payload ∧
  ∀ j, (j < i ∨ i + n ≤ j)%nat → payload' !! j = payload !! j.
Proof.
  induction n as [| n IH]; intros i pos payload payload' H; simpl in H.
  - inversion H; subst. split; [reflexivity | auto].
  - destruct (_ <? 0); [discriminate |].
    destruct (_ <? 0); [discriminate |].
    apply IH in H as [Hlen Hout]. rewrite length_insert in Hlen.
    split; [exact Hlen |]. intros j Hj.
    rewrite Hout by lia. apply list_lookup_insert_ne. lia.
Qed.

Lemma dlc_ok_range c : dlc_ok c = true → 0 ≤ c - 48 ≤ 8.
Proof. unfold dlc_ok. rewrite andb_true_iff, Z.leb_le, Z.ltb_lt. lia. Qed.

Lemma dev_at_insert sl l k x d :
  dev_at (set_dev sl (<[k := x]> l)) d =
  if decide (k = Z.to_nat d ∧ (k < length l)%nat) then x
  else mjoin (l !! Z.to_nat d).
Proof.
  unfold dev_at. simpl. rewrite list_lookup_insert.
  destruct (decide _); reflexivity.
Qed.

(** What [slc_bump] does to the device in slot [d]: nothing, or one frame
    is appended to its receive queue. *)
Lemma slc_bump_device skb sl d nd' :
  dev_at (slc_bump skb sl) d = Some nd' →
  dev_at sl d = Some nd' ∨
  ∃ nd ultmp payload,
    dev_at sl d = Some nd ∧
    Z.to_nat d = Z.to_nat (dev_idx_of sl) ∧
    is_cmd (cmd_char sl) = true ∧
    dlc_ok (rbuff_at sl (dlc_pos sl)) = true ∧
    strict_strtoul (c_string (drop (Z.to_nat (1 + ext_frame sl)) (id_terminated sl)))
      = Some ultmp ∧
    slc_bump_data (id_terminated sl) (Z.to_nat (rbuff_at sl (dlc_pos sl) - 48)) 0
      (dlc_pos sl + 1) zero_payload = Some payload ∧
    skb = true ∧
    nd' = deliver nd (CanFrame (decoded_id (cmd_char sl) ultmp)
                        (rbuff_at sl (dlc_pos sl) - 48) payload).
Proof.
  intros H.
  destruct (slc_bump_cases skb sl) as [Hsame | (nd & ultmp & payload & Hc & Hd & Hid & Hp & Hs & Hnd & Heq)].
  - left. unfold dev_at in *. rewrite <- Hsame. exact H.
  - rewrite Heq in H.
    change (set_dev (set_rbuff sl (id_terminated sl)) ?l) with
      (set_rbuff (set_dev sl l) (id_terminated sl)) in H.
    change (dev_at (set_rbuff ?s ?b) d) with (dev_at s d) in H.
    rewrite dev_at_insert in H.
    destruct (decide _) as [[Hk Hlt] |].
    + right. exists nd, ultmp, payload.
      inversion H; subst nd'. repeat split; try done.
      unfold dev_at in *. rewrite <- Hk. exact Hnd.
    + left. exact H.
Qed.

(** C9.  A frame that [slc_bump] delivers has a [can_dlc] of at most 8, a
    payload of 8 bytes, and every payload byte at an index from [can_dlc]
    to 7 is zero: after [slc_bump], the receive queue of a device is what it
    was, or what it was followed by one such frame. *)
Theorem delivered_payload_zero_padded skb sl d nd' :
  dev_at (slc_bump skb sl) d = Some nd' →
  ∃ nd,
    dev_at sl d = Some nd ∧
    (rx_queue nd' = rx_queue nd ∨
     ∃ cf,
       rx_queue nd' = rx_queue nd ++ [cf] ∧
       0 ≤ can_dlc cf ≤ 8 ∧
       length (data cf) = 8%nat ∧
       ∀ i, (Z.to_nat (can_dlc cf) ≤ i < 8)%nat → data cf !! i = Some 0).
Proof.
  intros H. apply slc_bump_device in H
    as [H | (nd & ultmp & payload & Hnd & _ & _ & Hd & _ & Hp & _ & ->)].
  - exists nd'. auto.
  - exists nd. split; [exact Hnd |]. right. eexists. split; [reflexivity |].
    simpl. apply slc_bump_data_frame in Hp as [Hlen Hout].
    split; [by apply dlc_ok_range |]. split; [exact Hlen |].
    intros i Hi. rewrite Hout by lia.
    apply lookup_replicate_2. lia.
Qed.

(** ** The scenarios of the wire format *)

(** C8.  [slc_encaps] builds "t1230\r" for the standard data frame 0x123
    with no data on a channel without multiplexing, "T12ABCDEF2AA55\r" for
    the extended frame 0x12ABCDEF with the two bytes AA 55, and "1t1230\r"
    for the first frame sent to address 1 on a channel with two endpoints;
    these are the bytes the transport receives.  A channel with two
    endpoints that receives "1t1230\r" delivers the frame to endpoint 1 and
    nothing to endpoint 0. *)
Theorem wire_format_scenarios :
  slc_encaps_string 1 (CanFrame 0x123 0 zero_payload) 0
    = bytes_of_string "t1230" ++ [CR] ∧
  slc_encaps_string 1
      (CanFrame (Z.lor 0x12ABCDEF CAN_EFF_FLAG) 2 [0xAA; 0x55; 0; 0; 0; 0; 0; 0]) 0
    = bytes_of_string "T12ABCDEF2AA55" ++ [CR] ∧
  slc_encaps_string 2 (CanFrame 0x123 0 zero_payload) 1
    = bytes_of_string "1t1230" ++ [CR] ∧
  (sl ← channel_up 2;
   sl' ← slc_xmit 2 7 sl 1 16 (CanFrame 0x123 0 zero_payload);
   wire <$> tty sl') = Some (bytes_of_string "1t1230" ++ [CR]) ∧
  (sl ← channel_up 2;
   sl' ← slcan_feed true sl (bytes_of_string "1t1230" ++ [CR]);
   Some (rx_queue <$> dev_at sl' 0, rx_queue <$> dev_at sl' 1))
    = Some (Some [], Some [CanFrame 0x123 0 zero_payload]).
Proof. repeat split; vm_compute; reflexivity. Qed.

(** ** The address digit *)

(** C5, as first stated, fails: on a channel with a single endpoint the
    buffer "0t1230" has no address digit in the words of the specification,
    which take its first byte '0' as the type character, and no frame could
    come of it; [slc_bump] takes the '0' as an address and delivers the
    frame 0x123 to endpoint 0. *)
Lemma address_digit_not_gated :
  ∃ sl0 sl1,
    (sl ← channel_up 1; slcan_feed true sl (bytes_of_string "0t1230")) = Some sl0 ∧
    spec_addr_present 1 sl0 = false ∧
    is_cmd (spec_type_char 1 sl0) = false ∧
    ext_frame sl0 = 1 ∧
    cmd_char sl0 ≠ spec_type_char 1 sl0 ∧
    slcan_unesc true sl0 CR = Some sl1 ∧
    rx_queue <$> dev_at sl1 0 = Some [CanFrame 0x123 0 zero_payload].
Proof.
  eexists. eexists.
  split; [vm_compute; reflexivity |].
  split; [vm_compute; reflexivity |].
  split; [vm_compute; reflexivity |].
  split; [vm_compute; reflexivity |].
  split; [vm_compute; discriminate |].
  split; vm_compute; reflexivity.
Qed.

(** When every test of the decoder passes and the destination has a
    device, [slc_bump] delivers the frame there. *)
Lemma slc_bump_delivers sl nd ultmp payload :
  is_cmd (cmd_char sl) = true →
  dlc_ok (rbuff_at sl (dlc_pos sl)) = true →
  strict_strtoul (c_string (drop (Z.to_nat (1 + ext_frame sl)) (id_terminated sl)))
    = Some ultmp →
  slc_bump_data (id_terminated sl) (Z.to_nat (rbuff_at sl (dlc_pos sl) - 48)) 0
    (dlc_pos sl + 1) zero_payload = Some payload →
  dev_at sl (dev_idx_of sl) = Some nd →
  slc_bump true sl =
    set_dev (set_rbuff sl (id_terminated sl))
      (<[Z.to_nat (dev_idx_of sl) :=
           Some (deliver nd (CanFrame (decoded_id (cmd_char sl) ultmp)
                               (rbuff_at sl (dlc_pos sl) - 48) payload))]> (dev sl)).
Proof.
  intros Hc Hd Hid Hp Hnd.
  destruct (slc_bump_cases true sl)
    as [Hsame | (nd' & ultmp' & payload' & _ & _ & Hid' & Hp' & _ & Hnd' & Heq)].
  - exfalso. revert Hsame. unfold slc_bump.
    rewrite Hc, Hd. cbn [negb]. cbv zeta. fold (id_terminated sl).
    cbn [rbuff set_rbuff]. rewrite Hid, Hp.
    assert (Hr0 : rbuff_at (set_rbuff sl (id_terminated sl)) 0 = rbuff_at sl 0).
    { apply rbuff_at_0_insert. pose proof (dlc_pos_ge sl). lia. }
    rewrite Hr0. fold (dev_idx_of sl).
    change (dev_at (set_rbuff sl (id_terminated sl)) (dev_idx_of sl))
      with (dev_at sl (dev_idx_of sl)).
    rewrite Hnd. cbn [dev set_dev set_rbuff].
    intros Hsame. apply (f_equal (fun l => l !! Z.to_nat (dev_idx_of sl))) in Hsame.
    unfold dev_at in Hnd.
    destruct (dev sl !! Z.to_nat (dev_idx_of sl)) as [o |] eqn:E; [| discriminate].
    simpl in Hnd. subst o.
    rewrite list_lookup_insert_eq in Hsame by (eapply lookup_lt_Some; exact E).
    inversion Hsame as [Hq]. apply (f_equal rx_queue) in Hq. simpl in Hq.
    apply (f_equal length) in Hq. rewrite length_app in Hq. simpl in Hq. lia.
  - rewrite Heq. congruence.
Qed.

(** The quantities of [slc_bump] read off the first bytes of the buffer. *)
Lemma ext_frame_digit sl :
  48 ≤ rbuff_at sl 0 ≤ 57 →
  ext_frame sl = 1 ∧ cmd_char sl = rbuff_at sl 1 ∧
  dev_idx_of sl = rbuff_at sl 0 - 48 ∧
  dlc_pos sl = (if Z.land (rbuff_at sl 1) 0x20 =? 0 then 10 else 5).
Proof.
  intros H.
  assert (E : is_digit (rbuff_at sl 0) = true) by (unfold is_digit; lia).
  unfold dlc_pos, dev_idx_of, cmd_char, ext_frame. rewrite E.
  repeat split.
Qed.

Lemma ext_frame_no_digit sl :
  ¬ 48 ≤ rbuff_at sl 0 ≤ 57 →
  ext_frame sl = 0 ∧ cmd_char sl = rbuff_at sl 0 ∧
  dev_idx_of sl = 0 ∧
  dlc_pos sl = (if Z.land (rbuff_at sl 0) 0x20 =? 0 then 9 else 4).
Proof.
  intros H.
  assert (E : is_digit (rbuff_at sl 0) = false) by (unfold is_digit; lia).
  unfold dlc_pos, dev_idx_of, cmd_char, ext_frame. rewrite E.
  repeat split.
Qed.

(** C5, amended.  [slc_bump] looks for the address digit whatever the
    number of endpoints: the address is present exactly when the first byte
    is in '0'..'9'; the type character is then the second byte and the
    destination index the value of the digit, and otherwise the type
    character is the first byte and the destination index 0.  A buffer whose
    type character is none of t, T, r, R leaves the channel unchanged, and a
    device that changes is the one at the destination index.  And the frame
    is delivered accordingly.  When the first byte is a digit, the second
    byte is a type character, the DLC digit (at index 10 for 'T' and 'R',
    at index 5 for 't' and 'r') is in range, the identifier string from
    index 2 on and the payload parse, and the slot of the digit's value
    holds a device, that device receives the frame, whose flags are those
    of the second byte.  When the first byte is no digit, the same holds
    with the first byte as type character, the DLC digit at index 9 or 4,
    the identifier string from index 1 on, and the device of slot 0. *)
Theorem address_digit_by_content skb sl :
  (ext_frame sl = 1 ↔ 48 ≤ rbuff_at sl 0 ≤ 57) ∧
  (ext_frame sl = 0 ↔ ¬ 48 ≤ rbuff_at sl 0 ≤ 57) ∧
  (48 ≤ rbuff_at sl 0 ≤ 57 →
   cmd_char sl = rbuff_at sl 1 ∧ dev_idx_of sl = rbuff_at sl 0 - 48) ∧
  (¬ 48 ≤ rbuff_at sl 0 ≤ 57 →
   cmd_char sl = rbuff_at sl 0 ∧ dev_idx_of sl = 0) ∧
  (is_cmd (cmd_char sl) = false → slc_bump skb sl = sl) ∧
  (∀ d nd', dev_at (slc_bump skb sl) d = Some nd' → dev_at sl d ≠ Some nd' →
     Z.to_nat d = Z.to_nat (dev_idx_of sl)) ∧
  (∀ nd ultmp payload,
     48 ≤ rbuff_at sl 0 ≤ 57 →
     let c := rbuff_at sl 1 in
     let p := if Z.land c 0x20 =? 0 then 10 else 5 in
     let buf := <[Z.to_nat p := 0]> (rbuff sl) in
     is_cmd c = true →
     dlc_ok (rbuff_at sl p) = true →
     strict_strtoul (c_string (drop 2 buf)) = Some ultmp →
     slc_bump_data buf (Z.to_nat (rbuff_at sl p - 48)) 0 (p + 1) zero_payload
       = Some payload →
     dev_at sl (rbuff_at sl 0 - 48) = Some nd →
     slc_bump true sl
     = set_dev (set_rbuff sl buf)
         (<[Z.to_nat (rbuff_at sl 0 - 48) :=
              Some (deliver nd (CanFrame (decoded_id c ultmp) (rbuff_at sl p - 48)
                                  payload))]> (dev sl))) ∧
  (∀ nd ultmp payload,
     ¬ 48 ≤ rbuff_at sl 0 ≤ 57 →
     let c := rbuff_at sl 0 in
     let p := if Z.land c 0x20 =? 0 then 9 else 4 in
     let buf := <[Z.to_nat p := 0]> (rbuff sl) in
     is_cmd c = true →
     dlc_ok (rbuff_at sl p) = true →
     strict_strtoul (c_string (drop 1 buf)) = Some ultmp →
     slc_bump_data buf (Z.to_nat (rbuff_at sl p - 48)) 0 (p + 1) zero_payload
       = Some payload →
     dev_at sl 0 = Some nd →
     slc_bump true sl
     = set_dev (set_rbuff sl buf)
         (<[Z.to_nat 0 :=
              Some (deliver nd (CanFrame (decoded_id c ultmp) (rbuff_at sl p - 48)
                                  payload))]> (dev sl))).
Proof.
  assert (Hd : is_digit (rbuff_at sl 0) = true ↔ 48 ≤ rbuff_at sl 0 ≤ 57).
  { unfold is_digit. rewrite andb_true_iff, !Z.leb_le. reflexivity. }
  assert (Hpos : ∀ nd ultmp payload,
    48 ≤ rbuff_at sl 0 ≤ 57 →
    let c := rbuff_at sl 1 in
    let p := if Z.land c 0x20 =? 0 then 10 else 5 in
    let buf := <[Z.to_nat p := 0]> (rbuff sl) in
    is_cmd c = true →
    dlc_ok (rbuff_at sl p) = true →
    strict_strtoul (c_string (drop 2 buf)) = Some ultmp →
    slc_bump_data buf (Z.to_nat (rbuff_at sl p - 48)) 0 (p + 1) zero_payload
      = Some payload →
    dev_at sl (rbuff_at sl 0 - 48) = Some nd →
    slc_bump true sl
    = set_dev (set_rbuff sl buf)
        (<[Z.to_nat (rbuff_at sl 0 - 48) :=
             Some (deliver nd (CanFrame (decoded_id c ultmp) (rbuff_at sl p - 48)
                                 payload))]> (dev sl))).
  { intros nd ultmp payload Hdig c p buf Hc Hdlc Hid Hp Hnd.
    destruct (ext_frame_digit sl Hdig) as (He & Hcmd & Hidx & Hdp).
    pose proof (slc_bump_delivers sl nd ultmp payload) as H.
    unfold id_terminated in H. rewrite He, Hcmd, Hidx, Hdp in H.
    change (Z.to_nat (1 + 1)) with 2%nat in H.
    apply H; assumption. }
  assert (Hneg : ∀ nd ultmp payload,
    ¬ 48 ≤ rbuff_at sl 0 ≤ 57 →
    let c := rbuff_at sl 0 in
    let p := if Z.land c 0x20 =? 0 then 9 else 4 in
    let buf := <[Z.to_nat p := 0]> (rbuff sl) in
    is_cmd c = true →
    dlc_ok (rbuff_at sl p) = true →
    strict_strtoul (c_string (drop 1 buf)) = Some ultmp →
    slc_bump_data buf (Z.to_nat (rbuff_at sl p - 48)) 0 (p + 1) zero_payload
      = Some payload →
    dev_at sl 0 = Some nd →
    slc_bump true sl
    = set_dev (set_rbuff sl buf)
        (<[Z.to_nat 0 :=
             Some (deliver nd (CanFrame (decoded_id c ultmp) (rbuff_at sl p - 48)
                                 payload))]> (dev sl))).
  { intros nd ultmp payload Hdig c p buf Hc Hdlc Hid Hp Hnd.
    destruct (ext_frame_no_digit sl Hdig) as (He & Hcmd & Hidx & Hdp).
    pose proof (slc_bump_delivers sl nd ultmp payload) as H.
    unfold id_terminated in H. rewrite He, Hcmd, Hidx, Hdp in H.
    change (Z.to_nat (1 + 0)) with 1%nat in H.
    apply H; assumption. }
  unfold dev_idx_of, cmd_char, ext_frame.
  destruct (is_digit (rbuff_at sl 0)) eqn:E.
  - assert (48 ≤ rbuff_at sl 0 ≤ 57) by (by apply Hd).
    repeat split; try done; try lia.
    + intros Hc. unfold slc_bump, cmd_char, ext_frame. rewrite E, Hc. reflexivity.
    + intros d nd' H1 H2. apply slc_bump_device in H1 as [H1 | H1]; [done |].
      destruct H1 as (? & ? & ? & _ & Hk & _). rewrite Hk.
      unfold dev_idx_of, ext_frame. rewrite E. reflexivity.
  - assert (¬ 48 ≤ rbuff_at sl 0 ≤ 57) by (intros ?%Hd; done).
    repeat split; try done; try lia.
    + intros Hc. unfold slc_bump, cmd_char, ext_frame. rewrite E, Hc. reflexivity.
    + intros d nd' H1 H2. apply slc_bump_device in H1 as [H1 | H1]; [done |].
      destruct H1 as (? & ? & ? & _ & Hk & _). rewrite Hk.
      unfold dev_idx_of, ext_frame. rewrite E. reflexivity.
Qed.

(** ** Malformed buffers *)

(** C7 at the failing input: the five bytes 't' '1' NUL 'Z' '0'.  The
    identifier field holds a NUL and a 'Z', so the buffer is malformed; the
    identifier string that [slc_bump] parses stops at the NUL, and the
    frame with identifier 1 is delivered to endpoint 0, whose packet
    counter goes from 0 to 1. *)
Theorem nul_in_identifier_delivered :
  ∃ sl0 sl1 nd,
    (sl ← channel_up 1; slcan_feed true sl [116; 49; 0; 90; 48]) = Some sl0 ∧
    id_span sl0 = [49; 0; 90] ∧
    malformed sl0 = true ∧
    slcan_unesc true sl0 CR = Some sl1 ∧
    dev_at sl1 0 = Some nd ∧
    rx_queue nd = [CanFrame 1 0 zero_payload] ∧
    rx_packets (stats nd) = 1.
Proof.
  eexists. eexists. eexists.
  split; [vm_compute; reflexivity |].
  split; [vm_compute; reflexivity |].
  split; [vm_compute; reflexivity |].
  split; [vm_compute; reflexivity |].
  split; [vm_compute; reflexivity |].
  split; vm_compute; reflexivity.
Qed.

Lemma slc_bump_data_hex buf n : ∀ i pos payload payload',
  0 ≤ pos →
  slc_bump_data buf n i pos payload = Some payload' →
  ∀ k, (k < 2 * n)%nat →
    is_hex (default 0 (buf !! (Z.to_nat pos + k)%nat)) = true.
Proof.
  induction n as [| n IH]; intros i pos payload payload' Hpos H k Hk; [lia |].
  simpl in H.
  destruct (hex_to_bin (default 0 (buf !! Z.to_nat pos)) <? 0) eqn:E1; [discriminate |].
  destruct (hex_to_bin (default 0 (buf !! Z.to_nat (pos + 1))) <? 0) eqn:E2;
    [discriminate |].
  destruct k as [| [| k]].
  - rewrite Nat.add_0_r. unfold is_hex. lia.
  - replace (Z.to_nat pos + 1)%nat with (Z.to_nat (pos + 1)) by lia.
    unfold is_hex. lia.
  - replace (Z.to_nat pos + S (S k))%nat with (Z.to_nat (pos + 2) + k)%nat by lia.
    eapply IH; [| exact H |]; lia.
Qed.

Lemma forallb_lookup {A} (f : A → bool) (l : list A) :
  (∀ i x, l !! i = Some x → f x = true) → forallb f l = true.
Proof.
  intros H. apply forallb_forall. intros x Hx.
  apply list_elem_of_In, list_elem_of_lookup in Hx as [i Hi]. eauto.
Qed.

Lemma slc_bump_with_strict skb sl : slc_bump_with strict_strtoul skb sl = slc_bump skb sl.
Proof. reflexivity. Qed.

(** [slc_bump_with] either leaves every device as it is, or every test of
    the decoder passed, the parse of the identifier string included, and
    one frame went to the device at [dev_idx_of sl]. *)
Lemma slc_bump_with_cases parse skb sl :
  dev (slc_bump_with parse skb sl) = dev sl ∨
  ∃ nd ultmp payload,
    is_cmd (cmd_char sl) = true ∧
    dlc_ok (rbuff_at sl (dlc_pos sl)) = true ∧
    parse (c_string (drop (Z.to_nat (1 + ext_frame sl)) (id_terminated sl))) = Some ultmp ∧
    slc_bump_data (id_terminated sl) (Z.to_nat (rbuff_at sl (dlc_pos sl) - 48)) 0
      (dlc_pos sl + 1) zero_payload = Some payload ∧
    skb = true ∧
    dev_at sl (dev_idx_of sl) = Some nd ∧
    slc_bump_with parse skb sl =
      set_dev (set_rbuff sl (id_terminated sl))
        (<[Z.to_nat (dev_idx_of sl) :=
             Some (deliver nd (CanFrame (decoded_id (cmd_char sl) ultmp)
                                 (rbuff_at sl (dlc_pos sl) - 48) payload))]> (dev sl)).
Proof.
  unfold slc_bump_with.
  destruct (is_cmd (cmd_char sl)) eqn:Hcmd; simpl; [| by left].
  destruct (dlc_ok (rbuff_at sl (dlc_pos sl))) eqn:Hdlc; simpl; [| by left].
  fold (id_terminated sl).
  destruct (parse _) as [ultmp |] eqn:Hid; [| by left].
  destruct (slc_bump_data _ _ _ _ _) as [payload |] eqn:Hdata; [| by left].
  destruct skb; simpl; [| by left].
  assert (Hr0 : rbuff_at (set_rbuff sl (id_terminated sl)) 0 = rbuff_at sl 0).
  { apply rbuff_at_0_insert. pose proof (dlc_pos_ge sl). lia. }
  rewrite Hr0. fold (dev_idx_of sl).
  change (dev_at (set_rbuff sl (id_terminated sl)) (dev_idx_of sl))
    with (dev_at sl (dev_idx_of sl)).
  destruct (dev_at sl (dev_idx_of sl)) as [nd |] eqn:Hdev; [| by left].
  right. exists nd, ultmp, payload. by repeat split.
Qed.

(** A buffer with a bad type character, with a DLC digit outside '0'..'8'
    or with a character that is no hexadecimal digit among its [2 * dlc]
    payload characters, and a buffer whose destination has no device,
    leaves every device, so every receive queue and every counter, as it
    was.  This does not depend on the identifier: it holds whatever strings
    the parse of the identifier accepts, and so for [slc_bump]. *)
Theorem malformed_buffer_dropped parse skb sl :
  malformed_framing sl = true ∨ dev_at sl (dev_idx_of sl) = None →
  dev (slc_bump_with parse skb sl) = dev sl ∧ dev (slc_bump skb sl) = dev sl.
Proof.
  intros Hbad.
  assert (H : ∀ prs, dev (slc_bump_with prs skb sl) = dev sl).
  { intros prs.
    destruct (slc_bump_with_cases prs skb sl)
      as [Hsame | (nd & ultmp & payload & Hc & Hd & Hid & Hp & Hs & Hnd & Heq)];
      [exact Hsame | exfalso].
    destruct Hbad as [Hbad | Hnone]; [| congruence].
    unfold malformed_framing in Hbad. rewrite Hc, Hd in Hbad. simpl in Hbad.
    apply negb_true_iff in Hbad.
    pose proof (dlc_pos_ge sl) as Hpos.
    assert (Hall : forallb is_hex (payload_span sl) = true); [| congruence].
    apply forallb_lookup. intros k x Hk. unfold payload_span in Hk.
    apply lookup_take_Some in Hk as [Hk Hlt]. rewrite lookup_drop in Hk.
    eapply slc_bump_data_hex with (k := k) in Hp; [| lia | lia].
    unfold id_terminated in Hp.
    rewrite list_lookup_insert_ne in Hp by lia.
    rewrite Hk in Hp. exact Hp. }
  split; [apply H |]. rewrite <- slc_bump_with_strict. apply H.
Qed.

(** The receive counters of a device move only when a frame is delivered
    to it. *)
Lemma rx_counters_only_on_delivery skb sl d nd' :
  dev_at (slc_bump skb sl) d = Some nd' →
  dev_at sl d = Some nd' ∨ ∃ nd cf, dev_at sl d = Some nd ∧ nd' = deliver nd cf.
Proof.
  intros H. apply slc_bump_device in H as [H | (nd & ? & ? & Hnd & _ & _ & _ & _ & _ & _ & ->)].
  - by left.
  - right. eauto.
Qed.

(** ** Hexadecimal digits *)

Lemma hex_upper_range x : 0 ≤ x < 16 → 48 ≤ hex_upper x ≤ 70.
Proof. unfold hex_upper. destruct (x <? 10) eqn:E; lia. Qed.

Lemma hex_to_bin_hex_upper x : 0 ≤ x < 16 → hex_to_bin (hex_upper x) = x.
Proof.
  intros Hx. unfold hex_upper, hex_to_bin.
  destruct (x <? 10) eqn:E.
  - replace ((48 <=? 48 + x) && (48 + x <=? 57)) with true by lia. lia.
  - replace ((48 <=? 55 + x) && (55 + x <=? 57)) with false by lia.
    replace ((97 <=? 55 + x) && (55 + x <=? 102)) with false by lia.
    replace ((65 <=? 55 + x) && (55 + x <=? 70)) with true by lia. lia.
Qed.

Lemma hex_digits_length w : ∀ v, length (hex_digits w v) = w.
Proof.
  induction w as [| w IH]; intros v; simpl; [reflexivity |].
  rewrite length_app, IH. simpl. lia.
Qed.

Lemma hex_digits_range w : ∀ v, Forall (fun c => 48 ≤ c ≤ 70) (hex_digits w v).
Proof.
  induction w as [| w IH]; intros v; simpl; [constructor |].
  apply Forall_app. split; [apply IH |].
  constructor; [| constructor].
  apply hex_upper_range, Z.mod_pos_bound. lia.
Qed.

Lemma strtoul_digits_hex_digits w : ∀ v acc s,
  strtoul_digits acc (hex_digits w v ++ s)
  = strtoul_digits (acc * 16 ^ Z.of_nat w + v mod 16 ^ Z.of_nat w) s.
Proof.
  induction w as [| w IH]; intros v acc s.
  - simpl. rewrite Z.pow_0_r, Z.mod_1_r. f_equal. lia.
  - simpl hex_digits. rewrite <- app_assoc. rewrite IH. simpl.
    assert (Hm : 0 ≤ v mod 16 < 16) by (apply Z.mod_pos_bound; lia).
    rewrite hex_to_bin_hex_upper by exact Hm.
    replace (v mod 16 <? 0) with false by lia.
    f_equal. rewrite Nat2Z.inj_succ, Z.pow_succ_r by lia.
    rewrite (Z.rem_mul_r v 16 (16 ^ Z.of_nat w)) by lia. lia.
Qed.

Lemma strict_strtoul_hex_digits w v :
  (0 < w)%nat → 0 ≤ v < 16 ^ Z.of_nat w →
  strict_strtoul (hex_digits w v) = Some v.
Proof.
  intros Hw Hv. unfold strict_strtoul.
  destruct (hex_digits w v) as [| c s] eqn:E.
  - apply (f_equal length) in E. rewrite hex_digits_length in E. simpl in E. lia.
  - rewrite <- E, <- (app_nil_r (hex_digits w v)), strtoul_digits_hex_digits.
    simpl. f_equal. rewrite Z.mod_small by exact Hv. lia.
Qed.

Lemma hex_len_le fuel : ∀ v, (hex_len fuel v ≤ fuel)%nat.
Proof.
  induction fuel as [| f IH]; intros v; simpl; [lia |].
  destruct (v <? 16); [lia |]. specialize (IH (v / 16)). lia.
Qed.

Lemma hex_len_small k : ∀ fuel v,
  0 ≤ v < 16 ^ Z.of_nat (S k) → (hex_len fuel v ≤ S k)%nat.
Proof.
  induction k as [| k IH]; intros fuel v Hv; destruct fuel as [| f]; simpl; try lia.
  - change (16 ^ Z.of_nat 1) with 16 in Hv.
    destruct (v <? 16) eqn:E; lia.
  - destruct (v <? 16); [lia |].
    assert (0 ≤ v / 16 < 16 ^ Z.of_nat (S k)).
    { rewrite Nat2Z.inj_succ, Z.pow_succ_r in Hv by lia.
      split; [apply Z.div_pos; lia | apply Z.div_lt_upper_bound; lia]. }
    specialize (IH f (v / 16)). lia.
Qed.

Lemma sprintf_0X_small w v :
  (0 < w ≤ 8)%nat → 0 ≤ v < 16 ^ Z.of_nat w → sprintf_0X w v = hex_digits w v.
Proof.
  intros Hw Hv. unfold sprintf_0X. f_equal.
  destruct w as [| k]; [lia |].
  pose proof (hex_len_small k 8 v Hv). lia.
Qed.

(** A byte printed with [%02X] and read back by the payload loop. *)
Lemma byte_of_nibbles b :
  0 ≤ b < 256 → Z.lor (Z.shiftl (b / 16 mod 16) 4) (b mod 16) = b.
Proof.
  intros Hb.
  assert (Hall : forallb (fun n => Z.lor (Z.shiftl (Z.of_nat n / 16 mod 16) 4)
                                     (Z.of_nat n mod 16) =? Z.of_nat n)
                   (seq 0 256) = true) by (vm_compute; reflexivity).
  rewrite forallb_forall in Hall.
  specialize (Hall (Z.to_nat b)).
  rewrite Z2Nat.id in Hall by lia.
  apply Z.eqb_eq, Hall, in_seq. lia.
Qed.

Lemma sprintf_02X_byte b :
  0 ≤ b < 256 → sprintf_0X 2 b = [hex_upper (b / 16 mod 16); hex_upper (b mod 16)].
Proof.
  intros Hb. rewrite sprintf_0X_small; [reflexivity | lia |].
  change (16 ^ Z.of_nat 2) with 256. exact Hb.
Qed.

(** ** The payload loops of the encoder and of the decoder *)

Lemma default_byte (payload : list Z) i :
  Forall (fun b => 0 ≤ b < 256) payload → 0 ≤ default 0 (payload !! i) < 256.
Proof.
  intros Hall. destruct (payload !! i) as [b |] eqn:E; simpl; [| lia].
  eapply (Forall_lookup_1 _ _ _ _ Hall E).
Qed.

Lemma slc_bump_data_encaps payload rest n : ∀ front i pos acc,
  Forall (fun b => 0 ≤ b < 256) payload →
  length front = Z.to_nat pos → 0 ≤ pos →
  slc_bump_data (front ++ slc_encaps_data payload n i ++ rest) n i pos acc
  = Some (store_payload payload n i acc).
Proof.
  induction n as [| n IH]; intros front i pos acc Hall Hlen Hpos; [reflexivity |].
  pose proof (default_byte payload i Hall) as Hb.
  set (b := default 0 (payload !! i)) in *.
  assert (Hhi : 0 ≤ b / 16 mod 16 < 16) by (apply Z.mod_pos_bound; lia).
  assert (Hlo : 0 ≤ b mod 16 < 16) by (apply Z.mod_pos_bound; lia).
  cbn [slc_encaps_data slc_bump_data store_payload]. fold b.
  rewrite sprintf_02X_byte by exact Hb.
  cbn [app].
  rewrite (list_lookup_middle front _ _ (Z.to_nat pos)) by lia.
  replace (front ++ hex_upper (b / 16 mod 16) :: hex_upper (b mod 16)
             :: slc_encaps_data payload n (S i) ++ rest)
    with ((front ++ [hex_upper (b / 16 mod 16)]) ++ hex_upper (b mod 16)
             :: slc_encaps_data payload n (S i) ++ rest)
    by (rewrite <- app_assoc; reflexivity).
  rewrite (list_lookup_middle (front ++ [hex_upper (b / 16 mod 16)]) _ _
             (Z.to_nat (pos + 1))) by (rewrite length_app; simpl; lia).
  cbn [default from_option id].
  rewrite !hex_to_bin_hex_upper by assumption.
  replace (b / 16 mod 16 <? 0) with false by lia.
  replace (b mod 16 <? 0) with false by lia.
  rewrite byte_of_nibbles by exact Hb.
  replace ((front ++ [hex_upper (b / 16 mod 16)]) ++ hex_upper (b mod 16)
             :: slc_encaps_data payload n (S i) ++ rest)
    with ((front ++ [hex_upper (b / 16 mod 16); hex_upper (b mod 16)])
             ++ slc_encaps_data payload n (S i) ++ rest)
    by (rewrite <- !app_assoc; reflexivity).
  apply IH; [exact Hall | rewrite length_app; simpl; lia | lia].
Qed.

Lemma store_payload_length payload n : ∀ i acc,
  length (store_payload payload n i acc) = length acc.
Proof.
  induction n as [| n IH]; intros i acc; simpl; [reflexivity |].
  rewrite IH. apply length_insert.
Qed.

Lemma store_payload_lookup payload n : ∀ i acc j,
  (i + n ≤ length acc)%nat →
  store_payload payload n i acc !! j
  = if decide (i ≤ j < i + n)%nat then Some (default 0 (payload !! j)) else acc !! j.
Proof.
  induction n as [| n IH]; intros i acc j Hlen; simpl.
  - destruct (decide _); [lia | reflexivity].
  - rewrite IH by (rewrite length_insert; lia).
    destruct (decide (S i ≤ j < S i + n)%nat), (decide (i ≤ j < i + S n)%nat);
      try lia; try reflexivity.
    + assert (j = i) by lia. subst j. apply list_lookup_insert_eq. lia.
    + apply list_lookup_insert_ne. lia.
Qed.

Lemma slc_encaps_data_length payload n : ∀ i,
  Forall (fun b => 0 ≤ b < 256) payload →
  length (slc_encaps_data payload n i) = (2 * n)%nat.
Proof.
  induction n as [| n IH]; intros i Hall; simpl; [reflexivity |].
  rewrite length_app, IH, sprintf_02X_byte by (try apply default_byte; assumption).
  simpl. lia.
Qed.

Lemma slc_encaps_data_range payload n : ∀ i,
  Forall (fun b => 0 ≤ b < 256) payload →
  Forall (fun c => 48 ≤ c ≤ 70) (slc_encaps_data payload n i).
Proof.
  induction n as [| n IH]; intros i Hall; simpl; [constructor |].
  apply Forall_app. split; [| by apply IH].
  pose proof (default_byte payload i Hall) as Hb.
  rewrite sprintf_02X_byte by exact Hb.
  repeat constructor; apply hex_upper_range, Z.mod_pos_bound; lia.
Qed.

(** ** Accumulation of the receive buffer *)

Lemma store_step (l : list Z) rc b bs :
  (rc < length l)%nat →
  take (S rc) (<[rc := b]> l) ++ bs ++ drop (S rc + length bs) (<[rc := b]> l)
  = take rc l ++ (b :: bs) ++ drop (rc + S (length bs)) l.
Proof.
  intros Hlt.
  assert (H1 : take (S rc) (<[rc := b]> l) = take rc l ++ [b]).
  { rewrite insert_take_drop by exact Hlt.
    replace (take rc l ++ b :: drop (S rc) l)
      with ((take rc l ++ [b]) ++ drop (S rc) l)
      by (rewrite <- app_assoc; reflexivity).
    apply take_app_length'. rewrite length_app, length_take_le; simpl; lia. }
  assert (H2 : drop (S rc + length bs) (<[rc := b]> l) = drop (rc + S (length bs)) l).
  { rewrite drop_insert_lt by lia. f_equal. lia. }
  rewrite H1, H2, <- app_assoc. reflexivity.
Qed.

Lemma channel_eta sl :
  SlcanChannel (magic sl) (tty sl) (dev sl) (rbuff sl) (rcount sl) (flags sl) = sl.
Proof. destruct sl; reflexivity. Qed.

(** Bytes that are no terminators are stored one after the other as long
    as the buffer has room and the error flag is clear. *)
Lemma slcan_feed_store skb : ∀ bs sl,
  Forall (fun c => is_terminator c = false) bs →
  Z.testbit (flags sl) SLF_ERROR = false →
  0 ≤ rcount sl →
  rcount sl + Z.of_nat (length bs) ≤ SLC_MTU →
  length (rbuff sl) = Z.to_nat SLC_MTU →
  slcan_feed skb sl bs
  = Some (set_rcount
            (set_rbuff sl
               (take (Z.to_nat (rcount sl)) (rbuff sl) ++ bs
                  ++ drop (Z.to_nat (rcount sl) + length bs) (rbuff sl)))
            (rcount sl + Z.of_nat (length bs))).
Proof.
  induction bs as [| b bs IH]; intros sl Hbs Herr Hrc Hroom Hlen.
  - simpl. rewrite Nat.add_0_r, take_drop, Z.add_0_r.
    unfold set_rcount, set_rbuff. simpl. by rewrite channel_eta.
  - inversion Hbs as [| ? ? Hb Hbs']; subst.
    simpl length in *.
    cbn [slcan_feed]. unfold slcan_unesc at 1. rewrite Hb, Herr. simpl negb.
    cbv iota.
    replace (rcount sl <? SLC_MTU) with true by lia.
    cbn [mbind option_bind].
    rewrite IH; cbn [rcount rbuff flags set_rcount set_rbuff]; try done; try lia.
    + unfold set_rcount, set_rbuff. cbn [magic tty dev rbuff rcount flags].
      f_equal. f_equal; [| lia].
      replace (Z.to_nat (rcount sl + 1)) with (S (Z.to_nat (rcount sl))) by lia.
      apply store_step. lia.
    + rewrite length_insert. exact Hlen.
Qed.

Lemma slcan_feed_app skb : ∀ bs1 bs2 sl,
  slcan_feed skb sl (bs1 ++ bs2)
  = sl' ← slcan_feed skb sl bs1; slcan_feed skb sl' bs2.
Proof.
  induction bs1 as [| b bs1 IH]; intros bs2 sl; simpl; [reflexivity |].
  destruct (slcan_unesc skb sl b) as [sl1 |]; simpl; [apply IH | reflexivity].
Qed.

(** A block without line errors, received while endpoint 0 is running, is
    fed byte by byte to [slcan_unesc]. *)
Lemma slcan_receive_loop_feed b : ∀ cp i sl,
  slcan_receive_loop (fun _ => b) None i sl cp = slcan_feed b sl cp.
Proof.
  induction cp as [| c cp IH]; intros i sl; [reflexivity |].
  cbn [slcan_receive_loop slcan_feed]. change (negb (0 =? 0)) with false. cbv iota.
  destruct (slcan_unesc b sl c) as [sl' |]; cbn [mbind option_bind];
    [apply IH | reflexivity].
Qed.

Lemma slcan_receive_buf_feed b sl cp nd0 :
  magic sl = SLCAN_MAGIC →
  dev_at sl 0 = Some nd0 →
  running nd0 = true →
  slcan_receive_buf (fun _ => b) sl cp None = slcan_feed b sl cp.
Proof.
  intros Hm Hd Hr. unfold slcan_receive_buf.
  rewrite Hm, Z.eqb_refl, Hd. cbn [negb mbind option_bind]. rewrite Hr.
  apply slcan_receive_loop_feed.
Qed.

(** ** The layout of a well-formed buffer *)

Section Layout.
Variables (pre : list Z) (cmd : Z) (idhex : list Z) (dlcch : Z) (tail : list Z).
Variable sl : slcan_channel.

Hypothesis Hbuf : rbuff sl = (pre ++ [cmd]) ++ idhex ++ dlcch :: tail.
Hypothesis Hpre :
  pre = [] ∧ is_digit cmd = false ∨ ∃ a, pre = [a] ∧ is_digit a = true.
Hypothesis Hwidth :
  Z.of_nat (length idhex) = if Z.land cmd 0x20 =? 0 then 8 else 3.

Lemma layout_ext : ext_frame sl = Z.of_nat (length pre).
Proof using Hbuf Hpre.
  unfold ext_frame, rbuff_at. rewrite Hbuf.
  destruct Hpre as [[-> Hc] | (a & -> & Ha)]; simpl.
  - rewrite Hc. reflexivity.
  - rewrite Ha. reflexivity.
Qed.

Lemma layout_cmd : cmd_char sl = cmd.
Proof using Hbuf Hpre.
  unfold cmd_char. rewrite layout_ext. unfold rbuff_at.
  rewrite Hbuf, Nat2Z.id, <- !app_assoc. cbn [app].
  rewrite list_lookup_middle by reflexivity. reflexivity.
Qed.

Lemma layout_dlc_pos :
  dlc_pos sl = Z.of_nat (length pre) + 1 + Z.of_nat (length idhex).
Proof using Hbuf Hpre Hwidth.
  unfold dlc_pos. rewrite layout_cmd, layout_ext, Hwidth.
  destruct (Z.land cmd 32 =? 0); lia.
Qed.

Lemma layout_dlc_index :
  Z.to_nat (dlc_pos sl) = length ((pre ++ [cmd]) ++ idhex).
Proof using Hbuf Hpre Hwidth.
  rewrite layout_dlc_pos, !length_app. simpl. lia.
Qed.

Lemma layout_dlc : rbuff_at sl (dlc_pos sl) = dlcch.
Proof using Hbuf Hpre Hwidth.
  unfold rbuff_at. rewrite layout_dlc_index, Hbuf, app_assoc.
  rewrite list_lookup_middle by reflexivity. reflexivity.
Qed.

Lemma layout_terminated : id_terminated sl = (pre ++ [cmd]) ++ idhex ++ 0 :: tail.
Proof using Hbuf Hpre Hwidth.
  unfold id_terminated. rewrite layout_dlc_index, Hbuf, !app_assoc.
  rewrite <- (Nat.add_0_r (length _)), insert_app_r. reflexivity.
Qed.

Lemma c_string_app_nul (s t : list Z) :
  Forall (fun c => c ≠ 0) s → c_string (s ++ 0 :: t) = s.
Proof.
  induction 1 as [| c s Hc _ IH]; simpl; [reflexivity |].
  replace (c =? 0) with false by lia. by rewrite IH.
Qed.

Lemma layout_id_string :
  Forall (fun c => c ≠ 0) idhex →
  c_string (drop (Z.to_nat (1 + ext_frame sl)) (id_terminated sl)) = idhex.
Proof using Hbuf Hpre Hwidth.
  intros Hnz. rewrite layout_terminated, layout_ext.
  replace (Z.to_nat (1 + Z.of_nat (length pre))) with (length (pre ++ [cmd]))
    by (rewrite length_app; simpl; lia).
  rewrite drop_app_length. by apply c_string_app_nul.
Qed.

Lemma layout_dev_idx :
  dev_idx_of sl = match pre with [] => 0 | a :: _ => a - 48 end.
Proof using Hbuf Hpre.
  unfold dev_idx_of. rewrite layout_ext. unfold rbuff_at. rewrite Hbuf.
  destruct Hpre as [[-> Hc] | (a & -> & Ha)]; reflexivity.
Qed.
End Layout.

(** ** Flags and masks of [can_id] *)

Lemma land_eff_mask x : Z.land x CAN_EFF_MASK = x mod 2 ^ 29.
Proof. change CAN_EFF_MASK with (Z.ones 29). apply Z.land_ones. lia. Qed.

Lemma land_sff_mask x : Z.land x CAN_SFF_MASK = x mod 2 ^ 11.
Proof. change CAN_SFF_MASK with (Z.ones 11). apply Z.land_ones. lia. Qed.

Lemma mask_eff_eff : Z.land CAN_EFF_MASK CAN_EFF_MASK = CAN_EFF_MASK.
Proof. reflexivity. Qed.
Lemma mask_sff_eff : Z.land CAN_SFF_MASK CAN_EFF_MASK = CAN_SFF_MASK.
Proof. reflexivity. Qed.
Lemma mask_eff_sff : Z.land CAN_EFF_MASK CAN_SFF_MASK = CAN_SFF_MASK.
Proof. reflexivity. Qed.
Lemma mask_eff_effflag : Z.land CAN_EFF_MASK CAN_EFF_FLAG = 0.
Proof. reflexivity. Qed.
Lemma mask_eff_rtrflag : Z.land CAN_EFF_MASK CAN_RTR_FLAG = 0.
Proof. reflexivity. Qed.
Lemma mask_sff_effflag : Z.land CAN_SFF_MASK CAN_EFF_FLAG = 0.
Proof. reflexivity. Qed.
Lemma mask_sff_rtrflag : Z.land CAN_SFF_MASK CAN_RTR_FLAG = 0.
Proof. reflexivity. Qed.
Lemma effflag_mask_eff : Z.land CAN_EFF_FLAG CAN_EFF_MASK = 0.
Proof. reflexivity. Qed.
Lemma rtrflag_mask_eff : Z.land CAN_RTR_FLAG CAN_EFF_MASK = 0.
Proof. reflexivity. Qed.
Lemma effflag_effflag : Z.land CAN_EFF_FLAG CAN_EFF_FLAG = CAN_EFF_FLAG.
Proof. reflexivity. Qed.
Lemma rtrflag_rtrflag : Z.land CAN_RTR_FLAG CAN_RTR_FLAG = CAN_RTR_FLAG.
Proof. reflexivity. Qed.
Lemma effflag_rtrflag : Z.land CAN_EFF_FLAG CAN_RTR_FLAG = 0.
Proof. reflexivity. Qed.
Lemma rtrflag_effflag : Z.land CAN_RTR_FLAG CAN_EFF_FLAG = 0.
Proof. reflexivity. Qed.

Lemma land_land_r a b c : Z.land (Z.land a b) c = Z.land a (Z.land b c).
Proof. symmetry. apply Z.land_assoc. Qed.

Create Rewrite HintDb can_bits.
#[local] Hint Rewrite Z.land_lor_distr_l land_land_r
  mask_eff_eff mask_sff_eff mask_eff_sff mask_eff_effflag mask_eff_rtrflag
  mask_sff_effflag mask_sff_rtrflag effflag_mask_eff rtrflag_mask_eff
  effflag_effflag rtrflag_rtrflag effflag_rtrflag rtrflag_effflag
  Z.land_0_r Z.lor_0_r Z.lor_0_l : can_bits.

Lemma decoded_id_T v : decoded_id 84 v = Z.lor (v mod 2 ^ 32) CAN_EFF_FLAG.
Proof. reflexivity. Qed.
Lemma decoded_id_R v :
  decoded_id 82 v = Z.lor (Z.lor (v mod 2 ^ 32) CAN_EFF_FLAG) CAN_RTR_FLAG.
Proof. reflexivity. Qed.
Lemma decoded_id_t v : decoded_id 116 v = v mod 2 ^ 32.
Proof. reflexivity. Qed.
Lemma decoded_id_r v : decoded_id 114 v = Z.lor (v mod 2 ^ 32) CAN_RTR_FLAG.
Proof. reflexivity. Qed.

(** ** The string of the encoder *)

Lemma enc_id_value_range cf :
  0 ≤ enc_id_value cf < 16 ^ Z.of_nat (enc_id_width cf).
Proof.
  unfold enc_id_value, enc_id_width.
  destruct (Z.land (can_id cf) CAN_EFF_FLAG =? 0).
  - rewrite land_sff_mask. change (16 ^ Z.of_nat 3) with 4096.
    pose proof (Z.mod_pos_bound (can_id cf) (2 ^ 11)). lia.
  - rewrite land_eff_mask. change (16 ^ Z.of_nat 8) with (2 ^ 32).
    pose proof (Z.mod_pos_bound (can_id cf) (2 ^ 29)). lia.
Qed.

Lemma sprintf_d_digit v : 0 ≤ v ≤ 8 → sprintf_d v = [48 + v].
Proof.
  intros Hv. unfold sprintf_d. replace (v <? 10) with true by lia.
  simpl. rewrite Z.mod_small by lia. reflexivity.
Qed.

Lemma slc_encaps_string_layout muxnetdevs cf dev_idx :
  0 ≤ can_dlc cf ≤ 8 →
  slc_encaps_string muxnetdevs cf dev_idx
  = (enc_prefix muxnetdevs dev_idx ++ [enc_cmd cf])
      ++ hex_digits (enc_id_width cf) (enc_id_value cf)
      ++ (48 + can_dlc cf)
         :: slc_encaps_data (data cf) (Z.to_nat (can_dlc cf)) 0 ++ [CR].
Proof.
  intros Hdlc. pose proof (enc_id_value_range cf) as Hid. revert Hid.
  unfold slc_encaps_string, enc_prefix, enc_cmd, enc_id_value, enc_id_width.
  rewrite (sprintf_d_digit _ Hdlc).
  destruct (muxnetdevs <? 2);
    destruct (Z.land (can_id cf) CAN_EFF_FLAG =? 0); cbn [negb]; cbv zeta; intros Hid;
    rewrite sprintf_0X_small by (exact Hid || lia);
    rewrite <- !app_assoc; reflexivity.
Qed.

Lemma sff_identifier x :
  Z.land x CAN_EFF_MASK ≤ CAN_SFF_MASK → Z.land x CAN_SFF_MASK = Z.land x CAN_EFF_MASK.
Proof.
  intros Hle. rewrite <- mask_eff_sff at 1. rewrite Z.land_assoc, land_sff_mask.
  apply Z.mod_small. split.
  - apply Z.land_nonneg. right. unfold CAN_EFF_MASK. lia.
  - unfold CAN_SFF_MASK in Hle. lia.
Qed.

Lemma enc_id_value_u32 cf : enc_id_value cf mod 2 ^ 32 = enc_id_value cf.
Proof.
  pose proof (enc_id_value_range cf) as H. apply Z.mod_small.
  unfold enc_id_width in H. destruct (_ =? 0) in H.
  - change (16 ^ Z.of_nat 3) with 4096 in H. lia.
  - change (16 ^ Z.of_nat 8) with (2 ^ 32) in H. lia.
Qed.

(** The fields of the decoded frame are those of the frame that was
    encoded. *)
Lemma decoded_frame_fields cf :
  valid_frame cf →
  frame_id (decoded_frame cf) = frame_id cf ∧
  frame_eff (decoded_frame cf) = frame_eff cf ∧
  frame_rtr (decoded_frame cf) = frame_rtr cf ∧
  can_dlc (decoded_frame cf) = can_dlc cf ∧
  length (data (decoded_frame cf)) = 8%nat ∧
  take (Z.to_nat (can_dlc cf)) (data (decoded_frame cf))
    = take (Z.to_nat (can_dlc cf)) (data cf) ∧
  ∀ i, (Z.to_nat (can_dlc cf) ≤ i < 8)%nat → data (decoded_frame cf) !! i = Some 0.
Proof.
  intros (Hid & Hsff & Hdlc & Hlen & Hbytes).
  assert (Hfields :
    frame_id (decoded_frame cf) = frame_id cf ∧
    frame_eff (decoded_frame cf) = frame_eff cf ∧
    frame_rtr (decoded_frame cf) = frame_rtr cf).
  { pose proof (enc_id_value_u32 cf) as Hu. revert Hu Hsff.
    unfold frame_id, frame_eff, frame_rtr, decoded_frame, enc_cmd, enc_id_value.
    cbn [can_id].
    destruct (Z.land (can_id cf) CAN_EFF_FLAG =? 0) eqn:Heff;
      destruct (Z.land (can_id cf) CAN_RTR_FLAG =? 0) eqn:Hrtr;
      cbn [negb]; cbv zeta; intros Hu Hsff.
    - change (Z.lor 84 32) with 116. rewrite decoded_id_t, Hu.
      autorewrite with can_bits.
      split; [apply sff_identifier; auto | split; reflexivity].
    - change (Z.lor 82 32) with 114. rewrite decoded_id_r, Hu.
      autorewrite with can_bits.
      split; [apply sff_identifier; auto | split; reflexivity].
    - rewrite decoded_id_T, Hu. autorewrite with can_bits.
      split; [reflexivity | split; reflexivity].
    - rewrite decoded_id_R, Hu. autorewrite with can_bits.
      split; [reflexivity | split; reflexivity]. }
  destruct Hfields as (H1 & H2 & H3).
  split; [exact H1 |]. split; [exact H2 |]. split; [exact H3 |].
  split; [reflexivity |].
  unfold decoded_frame. cbn [data].
  split; [by rewrite store_payload_length |].
  split.
  - apply list_eq. intros i. rewrite !lookup_take.
    destruct (decide (i < Z.to_nat (can_dlc cf))%nat) as [Hi |]; [| reflexivity].
    rewrite store_payload_lookup by (simpl; lia).
    destruct (decide _); [| lia].
    destruct (lookup_lt_is_Some_2 (data cf) i) as [b Hb]; [lia |].
    rewrite Hb. reflexivity.
  - intros i Hi. rewrite store_payload_lookup by (simpl; lia).
    destruct (decide _); [lia |]. apply lookup_replicate_2. lia.
Qed.

Lemma enc_cmd_cases cf :
  (enc_cmd cf = 116 ∨ enc_cmd cf = 114) ∧ enc_id_width cf = 3%nat ∨
  (enc_cmd cf = 84 ∨ enc_cmd cf = 82) ∧ enc_id_width cf = 8%nat.
Proof.
  unfold enc_cmd, enc_id_width.
  destruct (Z.land (can_id cf) CAN_EFF_FLAG =? 0);
    destruct (Z.land (can_id cf) CAN_RTR_FLAG =? 0); cbv zeta; auto.
Qed.

Lemma enc_cmd_facts cf :
  is_cmd (enc_cmd cf) = true ∧ is_digit (enc_cmd cf) = false ∧ 48 ≤ enc_cmd cf ∧
  Z.of_nat (enc_id_width cf) = if Z.land (enc_cmd cf) 0x20 =? 0 then 8 else 3.
Proof.
  destruct (enc_cmd_cases cf) as [[[-> | ->] ->] | [[-> | ->] ->]];
    repeat split; reflexivity || lia.
Qed.

Lemma clearbit_clear a n : Z.testbit a n = false → Z.clearbit a n = a.
Proof.
  intros H. apply Z.bits_inj'. intros m _. rewrite Z.clearbit_eqb.
  destruct (Z.eqb_spec n m) as [-> | _]; simpl.
  - rewrite H. reflexivity.
  - apply andb_true_r.
Qed.

Lemma not_terminator c : 48 ≤ c → is_terminator c = false.
Proof. intros H. unfold is_terminator, CR, BEL. lia. Qed.

Lemma enc_body_range muxnetdevs cf dev_idx :
  valid_frame cf → 0 ≤ dev_idx →
  Forall (fun c => 48 ≤ c) (enc_body muxnetdevs cf dev_idx).
Proof.
  intros (_ & _ & Hdlc & _ & Hbytes) Hd. unfold enc_body, enc_prefix.
  repeat apply Forall_app_2.
  - destruct (muxnetdevs <? 2); repeat constructor. lia.
  - repeat constructor. apply enc_cmd_facts.
  - eapply Forall_impl; [| apply hex_digits_range]. intros c Hc. simpl in Hc. lia.
  - constructor; [lia |].
    eapply Forall_impl; [| by apply slc_encaps_data_range].
    intros c Hc. simpl in Hc. lia.
Qed.

Lemma enc_body_length muxnetdevs cf dev_idx :
  valid_frame cf →
  (5 ≤ length (enc_body muxnetdevs cf dev_idx) ≤ 27)%nat.
Proof.
  intros (_ & _ & Hdlc & _ & Hbytes). unfold enc_body, enc_prefix.
  rewrite !length_app, hex_digits_length. cbn [length].
  rewrite slc_encaps_data_length by exact Hbytes.
  destruct (enc_cmd_cases cf) as [[_ ->] | [_ ->]];
    destruct (muxnetdevs <? 2); simpl; lia.
Qed.

Lemma slc_encaps_string_body muxnetdevs cf dev_idx :
  0 ≤ can_dlc cf ≤ 8 →
  slc_encaps_string muxnetdevs cf dev_idx = enc_body muxnetdevs cf dev_idx ++ [CR].
Proof.
  intros H. rewrite slc_encaps_string_layout by exact H.
  unfold enc_body. rewrite <- !app_assoc. reflexivity.
Qed.

(** ** Decoding what the encoder printed *)

(** [slc_bump] on a buffer that starts with the bytes the encoder printed
    for [cf] and the address [dev_idx]. *)
Lemma slc_bump_encoded muxnetdevs cf dev_idx sl rest nd :
  valid_frame cf →
  0 ≤ dev_idx ≤ 9 →
  (muxnetdevs < 2 → dev_idx = 0) →
  rbuff sl = enc_body muxnetdevs cf dev_idx ++ rest →
  dev_at sl dev_idx = Some nd →
  slc_bump true sl =
    set_dev (set_rbuff sl (id_terminated sl))
      (<[Z.to_nat dev_idx := Some (deliver nd (decoded_frame cf))]> (dev sl)).
Proof.
  intros Hvalid Hd Hmux Hbuf Hnd.
  pose proof Hvalid as (_ & _ & Hdlc & _ & Hbytes).
  destruct (enc_cmd_facts cf) as (Hcmd & Hnodigit & _ & Hwidth).
  set (pre := enc_prefix muxnetdevs dev_idx) in *.
  set (idhex := hex_digits (enc_id_width cf) (enc_id_value cf)) in *.
  set (datahex := slc_encaps_data (data cf) (Z.to_nat (can_dlc cf)) 0) in *.
  assert (Hbuf' : rbuff sl = (pre ++ [enc_cmd cf]) ++ idhex
                              ++ (48 + can_dlc cf) :: (datahex ++ rest)).
  { rewrite Hbuf. unfold enc_body. fold pre idhex datahex.
    rewrite <- !app_assoc. reflexivity. }
  assert (Hpre : pre = [] ∧ is_digit (enc_cmd cf) = false
                 ∨ ∃ a, pre = [a] ∧ is_digit a = true).
  { unfold pre, enc_prefix. destruct (muxnetdevs <? 2); [by left | right].
    eexists. split; [reflexivity |]. unfold is_digit. lia. }
  assert (Hw : Z.of_nat (length idhex)
               = if Z.land (enc_cmd cf) 0x20 =? 0 then 8 else 3).
  { unfold idhex. rewrite hex_digits_length. exact Hwidth. }
  pose proof (layout_cmd _ _ _ _ _ _ Hbuf' Hpre) as Lcmd.
  pose proof (layout_dlc _ _ _ _ _ _ Hbuf' Hpre Hw) as Ldlc.
  pose proof (layout_dlc_index _ _ _ _ _ _ Hbuf' Hpre Hw) as Lidx.
  pose proof (layout_terminated _ _ _ _ _ _ Hbuf' Hpre Hw) as Lterm.
  pose proof (layout_dev_idx _ _ _ _ _ _ Hbuf' Hpre) as Ldev.
  assert (Hidx : dev_idx_of sl = dev_idx).
  { rewrite Ldev. unfold pre, enc_prefix.
    destruct (muxnetdevs <? 2) eqn:E; [symmetry; apply Hmux |]; lia. }
  assert (Hdata : decoded_frame cf
                  = CanFrame (decoded_id (cmd_char sl) (enc_id_value cf))
                      (rbuff_at sl (dlc_pos sl) - 48)
                      (store_payload (data cf) (Z.to_nat (can_dlc cf)) 0 zero_payload)).
  { unfold decoded_frame. rewrite Lcmd, Ldlc. f_equal. lia. }
  rewrite Hdata, <- Hidx.
  apply slc_bump_delivers.
  - by rewrite Lcmd.
  - rewrite Ldlc. unfold dlc_ok. lia.
  - rewrite (layout_id_string _ _ _ _ _ _ Hbuf' Hpre Hw).
    + apply strict_strtoul_hex_digits; [| apply enc_id_value_range].
      destruct (enc_cmd_cases cf) as [[_ ->] | [_ ->]]; lia.
    + eapply Forall_impl; [| apply hex_digits_range]. intros c Hc. simpl in Hc. lia.
  - rewrite Lterm, Ldlc.
    replace (48 + can_dlc cf - 48) with (can_dlc cf) by lia.
    replace ((pre ++ [enc_cmd cf]) ++ idhex ++ 0 :: datahex ++ rest)
      with ((((pre ++ [enc_cmd cf]) ++ idhex) ++ [0]) ++ datahex ++ rest)
      by (rewrite <- !app_assoc; reflexivity).
    apply slc_bump_data_encaps;
      [exact Hbytes | | pose proof (dlc_pos_ge sl); lia].
    rewrite length_app, <- Lidx. simpl. pose proof (dlc_pos_ge sl). lia.
  - rewrite Hidx. exact Hnd.
Qed.

(** The bytes [slc_encaps] prints for a valid frame, fed to a channel whose
    receive buffer is empty and whose error flag is clear: the decoded
    frame goes to the device at the address, and the channel is ready for
    the next frame. *)
Lemma feed_encoded muxnetdevs cf dev_idx sl nd :
  valid_frame cf →
  0 ≤ dev_idx ≤ 9 →
  (muxnetdevs < 2 → dev_idx = 0) →
  rcount sl = 0 →
  Z.testbit (flags sl) SLF_ERROR = false →
  length (rbuff sl) = Z.to_nat SLC_MTU →
  dev_at sl dev_idx = Some nd →
  ∃ rb,
    length rb = Z.to_nat SLC_MTU ∧
    slcan_feed true sl (slc_encaps_string muxnetdevs cf dev_idx)
    = Some (SlcanChannel (magic sl) (tty sl)
              (<[Z.to_nat dev_idx := Some (deliver nd (decoded_frame cf))]> (dev sl))
              rb 0 (flags sl)).
Proof.
  intros Hvalid Hd Hmux Hrc Herr Hlen Hnd.
  pose proof Hvalid as (_ & _ & Hdlc & _ & _).
  pose proof (enc_body_length muxnetdevs cf dev_idx Hvalid) as Hbl.
  rewrite slc_encaps_string_body by exact Hdlc.
  rewrite slcan_feed_app.
  rewrite slcan_feed_store; try assumption.
  2: { eapply Forall_impl; [| apply enc_body_range; [exact Hvalid | lia]].
       intros c Hc. by apply not_terminator. }
  2: lia.
  2: { rewrite Hrc. unfold SLC_MTU. lia. }
  rewrite Hrc. change (Z.to_nat 0) with 0%nat. rewrite take_0. cbn [app Nat.add].
  set (body := enc_body muxnetdevs cf dev_idx) in *.
  set (rest := drop (length body) (rbuff sl)).
  cbn [mbind option_bind slcan_feed].
  unfold slcan_unesc. change (is_terminator CR) with true. cbv iota zeta.
  cbn [flags rcount set_rcount set_rbuff set_flags].
  rewrite Herr. cbn [negb andb].
  replace (4 <? 0 + Z.of_nat (length body)) with true by lia.
  cbn [mbind option_bind].
  match goal with
  | |- context [slc_bump true ?s] => set (sl2 := s)
  end.
  rewrite (slc_bump_encoded muxnetdevs cf dev_idx sl2 rest nd); try assumption;
    [| reflexivity].
  exists (id_terminated sl2). split.
  - unfold id_terminated. rewrite length_insert. subst sl2.
    change (length (body ++ rest) = Z.to_nat SLC_MTU).
    unfold rest. rewrite length_app, length_drop. rewrite Hlen. unfold SLC_MTU. lia.
  - subst sl2. unfold set_rcount, set_dev, set_rbuff.
    cbn [magic tty dev rbuff rcount flags].
    rewrite clearbit_clear by exact Herr. reflexivity.
Qed.

Lemma land_pow2_cases x n :
  0 ≤ n → Z.land x (2 ^ n) = 0 ∨ Z.land x (2 ^ n) = 2 ^ n.
Proof.
  intros Hn. destruct (Z.testbit x n) eqn:E; [right | left];
    apply Z.bits_inj'; intros m Hm;
    rewrite Z.land_spec, ?Z.bits_0, Z.pow2_bits_eqb by exact Hn;
    destruct (Z.eqb_spec n m) as [<- | _];
    rewrite ?E, ?andb_false_r; reflexivity.
Qed.

Lemma can_id_parts x :
  0 ≤ x < 2 ^ 32 → Z.testbit x 29 = false →
  x = Z.lor (Z.lor (Z.land x CAN_EFF_MASK) (Z.land x CAN_EFF_FLAG))
        (Z.land x CAN_RTR_FLAG).
Proof.
  intros Hx H29. apply Z.bits_inj'. intros m Hm.
  rewrite !Z.lor_spec, !Z.land_spec.
  change CAN_EFF_MASK with (Z.ones 29).
  change CAN_EFF_FLAG with (2 ^ 31). change CAN_RTR_FLAG with (2 ^ 30).
  rewrite Z.testbit_ones_nonneg, !Z.pow2_bits_eqb by lia.
  destruct (Z.testbit x m) eqn:E; [| reflexivity]. cbn [andb].
  assert (m < 32).
  { destruct (Z.lt_ge_cases m 32) as [? | Hge]; [assumption | exfalso].
    pose proof (proj1 (Z.bounded_iff_bits_nonneg' 32 x ltac:(lia) ltac:(lia)) Hx m Hge).
    congruence. }
  assert (m ≠ 29) by congruence.
  lia.
Qed.

(** When bit 29 of [can_id], which is neither in the identifier nor one of
    the two flags, is clear, the decoded [can_id] is the encoded one. *)
Lemma decoded_can_id cf :
  valid_frame cf → Z.testbit (can_id cf) 29 = false →
  can_id (decoded_frame cf) = can_id cf.
Proof.
  intros (Hid & Hsff & _) H29.
  pose proof (can_id_parts (can_id cf) Hid H29) as Hparts.
  pose proof (enc_id_value_u32 cf) as Hu.
  unfold frame_id, frame_eff, decoded_frame, enc_cmd, enc_id_value in *.
  cbn [can_id].
  destruct (land_pow2_cases (can_id cf) 31) as [Heff | Heff]; [lia | |];
    destruct (land_pow2_cases (can_id cf) 30) as [Hrtr | Hrtr]; try lia;
    change (2 ^ 31) with CAN_EFF_FLAG in Heff;
    change (2 ^ 30) with CAN_RTR_FLAG in Hrtr;
    rewrite Heff in *; rewrite Hrtr in *;
    change (CAN_EFF_FLAG =? 0) with false in *;
    change (CAN_RTR_FLAG =? 0) with false in *;
    change (0 =? 0) with true in *;
    cbv iota zeta in *; cbn [negb] in *.
  all: rewrite ?Z.lor_0_r in Hparts.
  - change (Z.lor 84 32) with 116. rewrite decoded_id_t, Hu.
    rewrite sff_identifier by auto. symmetry. exact Hparts.
  - change (Z.lor 82 32) with 114. rewrite decoded_id_r, Hu.
    rewrite sff_identifier by auto. symmetry. exact Hparts.
  - rewrite decoded_id_T, Hu. symmetry. exact Hparts.
  - rewrite decoded_id_R, Hu. symmetry. exact Hparts.
Qed.

(** ** Round trip *)

(** C1.  For a valid frame [cf] and an address [dev_idx] below the number of
    endpoints, the bytes [slc_encaps] prints, fed to a channel with an
    empty receive buffer, a clear error flag and a device at [dev_idx],
    deliver exactly one frame, to the device at [dev_idx] and to no other;
    the frame has the identifier, the extended flag, the remote-request
    flag, the DLC and the first DLC data bytes of [cf] (and the very
    [can_id] of [cf] when the only bits set in it are the identifier and
    the two flags).  The channel is then ready for the next frame. *)
Theorem encode_decode_round_trip muxnetdevs cf dev_idx sl nd :
  valid_frame cf →
  1 ≤ muxnetdevs ≤ MUX_NETDEV_MAX →
  0 ≤ dev_idx < muxnetdevs →
  rcount sl = 0 →
  Z.testbit (flags sl) SLF_ERROR = false →
  length (rbuff sl) = Z.to_nat SLC_MTU →
  dev_at sl dev_idx = Some nd →
  ∃ sl' cf',
    slcan_feed true sl (slc_encaps_string muxnetdevs cf dev_idx) = Some sl' ∧
    dev sl' = <[Z.to_nat dev_idx := Some (deliver nd cf')]> (dev sl) ∧
    rx_queue (deliver nd cf') = rx_queue nd ++ [cf'] ∧
    frame_id cf' = frame_id cf ∧
    frame_eff cf' = frame_eff cf ∧
    frame_rtr cf' = frame_rtr cf ∧
    can_dlc cf' = can_dlc cf ∧
    take (Z.to_nat (can_dlc cf)) (data cf') = take (Z.to_nat (can_dlc cf)) (data cf) ∧
    (Z.testbit (can_id cf) 29 = false → can_id cf' = can_id cf) ∧
    rcount sl' = 0 ∧
    Z.testbit (flags sl') SLF_ERROR = false.
Proof.
  intros Hvalid Hmux Hd Hrc Herr Hlen Hnd.
  unfold MUX_NETDEV_MAX in Hmux.
  destruct (feed_encoded muxnetdevs cf dev_idx sl nd) as (rb & _ & Hfeed);
    try assumption; try lia.
  destruct (decoded_frame_fields cf Hvalid) as (H1 & H2 & H3 & H4 & _ & H5 & _).
  eexists. exists (decoded_frame cf).
  split; [exact Hfeed |]. cbn [dev rcount flags].
  repeat split; try assumption.
  by apply decoded_can_id.
Qed.

(** ** Overflow of the receive buffer *)

Lemma slcan_feed_discard skb : ∀ bs sl,
  Forall (fun c => is_terminator c = false) bs →
  Z.testbit (flags sl) SLF_ERROR = true →
  slcan_feed skb sl bs = Some sl.
Proof.
  induction bs as [| b bs IH]; intros sl Hbs Herr; [reflexivity |].
  inversion Hbs as [| ? ? Hb Hbs']; subst.
  cbn [slcan_feed]. unfold slcan_unesc. rewrite Hb, Herr. cbn [negb mbind option_bind].
  by apply IH.
Qed.

Lemma slcan_unesc_overflow skb sl b nd0 :
  is_terminator b = false →
  Z.testbit (flags sl) SLF_ERROR = false →
  rcount sl = SLC_MTU →
  dev_at sl 0 = Some nd0 →
  slcan_unesc skb sl b
  = Some (set_flags (set_dev sl (<[0%nat := Some (count_overrun nd0)]> (dev sl)))
            (Z.setbit (flags sl) SLF_ERROR)).
Proof.
  intros Hb Herr Hrc Hnd. unfold slcan_unesc.
  rewrite Hb, Herr, Hrc, Hnd. reflexivity.
Qed.

(** More bytes than the buffer holds, none of them a terminator: the first
    [SLC_MTU] are stored, the next one sets the error flag and counts one
    overrun on the device in slot 0, the others change nothing. *)
Lemma slcan_feed_overflow skb sl bs nd0 :
  Forall (fun c => is_terminator c = false) bs →
  (Z.to_nat SLC_MTU < length bs)%nat →
  rcount sl = 0 →
  Z.testbit (flags sl) SLF_ERROR = false →
  length (rbuff sl) = Z.to_nat SLC_MTU →
  dev_at sl 0 = Some nd0 →
  slcan_feed skb sl bs
  = Some (SlcanChannel (magic sl) (tty sl)
            (<[0%nat := Some (count_overrun nd0)]> (dev sl))
            (take (Z.to_nat SLC_MTU) bs) SLC_MTU (Z.setbit (flags sl) SLF_ERROR)).
Proof.
  intros Hbs Hlong Hrc Herr Hlen Hnd.
  rewrite <- (take_drop (Z.to_nat SLC_MTU) bs) in Hbs |- * at 1.
  apply Forall_app in Hbs as [Hhead Htail].
  assert (Hl : length (take (Z.to_nat SLC_MTU) bs) = Z.to_nat SLC_MTU)
    by (apply length_take_le; lia).
  destruct (drop (Z.to_nat SLC_MTU) bs) as [| b more] eqn:E.
  { apply (f_equal length) in E. rewrite length_drop in E. simpl in E. lia. }
  inversion Htail as [| ? ? Hb Hmore]; subst.
  rewrite slcan_feed_app, slcan_feed_store; try assumption; try lia;
    [| rewrite Hrc, Hl; unfold SLC_MTU; lia].
  rewrite Hrc, Hl, drop_ge by lia.
  change (Z.to_nat 0) with 0%nat. rewrite take_0, app_nil_r. cbn [app].
  cbn [mbind option_bind slcan_feed].
  erewrite slcan_unesc_overflow; [| exact Hb | exact Herr | | exact Hnd].
  - cbn [mbind option_bind]. rewrite slcan_feed_discard; [reflexivity | exact Hmore |].
    apply Z.setbit_eq. unfold SLF_ERROR. lia.
  - cbn [rcount set_rcount]. unfold SLC_MTU. lia.
Qed.

Lemma ulong_inc_plain x : 0 ≤ x < 2 ^ BITS_PER_LONG - 1 → ulong_inc x = x + 1.
Proof. intros Hx. unfold ulong_inc, ulong_add. apply Z.mod_small. lia. Qed.

(** C3, as first stated, fails: the buffer of a channel with one endpoint
    is filled to its capacity by the 34 bytes "t1230" and 29 times '0'.
    This sets no error flag and counts no overrun; the CR that follows
    decodes the buffer and delivers the frame 0x123. *)
Lemma full_buffer_is_no_overflow :
  ∃ sl1 sl2,
    slcan_feed true channel_up1 (bytes_of_string "t1230" ++ replicate 29 48) = Some sl1 ∧
    rcount sl1 = SLC_MTU ∧
    Z.testbit (flags sl1) SLF_ERROR = false ∧
    (fun nd => rx_over_errors (stats nd)) <$> dev_at sl1 0 = Some 0 ∧
    slcan_unesc true sl1 CR = Some sl2 ∧
    rx_queue <$> dev_at sl2 0 = Some [CanFrame 0x123 0 zero_payload] ∧
    (fun nd => rx_over_errors (stats nd)) <$> dev_at sl2 0 = Some 0.
Proof.
  do 2 eexists.
  split; [vm_compute; reflexivity |].
  split; [vm_compute; reflexivity |].
  split; [vm_compute; reflexivity |].
  split; [vm_compute; reflexivity |].
  split; [vm_compute; reflexivity |].
  split; vm_compute; reflexivity.
Qed.

(** C3, amended.  On a channel with an empty buffer and a clear error flag,
    more non-terminator bytes than the buffer holds set the error flag and
    count one overrun, on the device in slot 0 and on no other device,
    whatever the bytes are (so whatever address they start with); the bytes
    after the buffer is full are discarded.  The next terminator delivers no
    frame, clears the flag and empties the buffer, and the encoding of a
    valid frame that follows is decoded and delivered as usual. *)
Theorem overflow_recovery skb sl nd0 bs t muxnetdevs cf dev_idx nd :
  rcount sl = 0 →
  Z.testbit (flags sl) SLF_ERROR = false →
  length (rbuff sl) = Z.to_nat SLC_MTU →
  dev_at sl 0 = Some nd0 →
  Forall (fun c => is_terminator c = false) bs →
  (Z.to_nat SLC_MTU < length bs)%nat →
  t = CR ∨ t = BEL →
  valid_frame cf →
  1 ≤ muxnetdevs ≤ MUX_NETDEV_MAX →
  0 ≤ dev_idx < muxnetdevs →
  dev_at sl dev_idx = Some nd →
  ∃ sl1 sl2 sl3 nd' cf',
    slcan_feed skb sl bs = Some sl1 ∧
    Z.testbit (flags sl1) SLF_ERROR = true ∧
    rbuff sl1 = take (Z.to_nat SLC_MTU) bs ∧
    dev sl1 = <[0%nat := Some (count_overrun nd0)]> (dev sl) ∧
    rx_over_errors (stats (count_overrun nd0)) = ulong_inc (rx_over_errors (stats nd0)) ∧
    (0 ≤ rx_over_errors (stats nd0) < 2 ^ BITS_PER_LONG - 1 →
     rx_over_errors (stats (count_overrun nd0)) = rx_over_errors (stats nd0) + 1) ∧
    rx_queue (count_overrun nd0) = rx_queue nd0 ∧
    slcan_unesc skb sl1 t = Some sl2 ∧
    dev sl2 = dev sl1 ∧
    Z.testbit (flags sl2) SLF_ERROR = false ∧
    rcount sl2 = 0 ∧
    dev_at sl2 dev_idx = Some nd' ∧
    rx_queue nd' = rx_queue nd ∧
    slcan_feed true sl2 (slc_encaps_string muxnetdevs cf dev_idx) = Some sl3 ∧
    dev sl3 = <[Z.to_nat dev_idx := Some (deliver nd' cf')]> (dev sl2) ∧
    frame_id cf' = frame_id cf ∧
    frame_eff cf' = frame_eff cf ∧
    frame_rtr cf' = frame_rtr cf ∧
    can_dlc cf' = can_dlc cf ∧
    take (Z.to_nat (can_dlc cf)) (data cf') = take (Z.to_nat (can_dlc cf)) (data cf).
Proof.
  intros Hrc Herr Hlen Hnd0 Hbs Hlong Ht Hvalid Hmux Hd Hnd.
  unfold MUX_NETDEV_MAX in Hmux.
  pose proof (slcan_feed_overflow skb sl bs nd0 Hbs Hlong Hrc Herr Hlen Hnd0) as Hover.
  set (sl1 := SlcanChannel (magic sl) (tty sl)
                (<[0%nat := Some (count_overrun nd0)]> (dev sl))
                (take (Z.to_nat SLC_MTU) bs) SLC_MTU (Z.setbit (flags sl) SLF_ERROR)) in *.
  assert (Hset : Z.testbit (flags sl1) SLF_ERROR = true).
  { apply Z.setbit_eq. unfold SLF_ERROR. lia. }
  assert (Hterm : is_terminator t = true) by (destruct Ht as [-> | ->]; reflexivity).
  set (sl2 := set_rcount (set_flags sl1 (Z.clearbit (flags sl1) SLF_ERROR)) 0).
  assert (Hstep : slcan_unesc skb sl1 t = Some sl2).
  { unfold slcan_unesc. rewrite Hterm, Hset. reflexivity. }
  assert (Hnd' : ∃ nd', dev_at sl2 dev_idx = Some nd' ∧ rx_queue nd' = rx_queue nd).
  { change (dev_at sl2 dev_idx) with (dev_at (set_dev sl (<[0%nat := Some (count_overrun nd0)]> (dev sl))) dev_idx).
    rewrite dev_at_insert. destruct (decide _) as [[Hz _] |].
    - exists (count_overrun nd0). split; [reflexivity |].
      unfold dev_at in Hnd, Hnd0. rewrite <- Hz in Hnd.
      change (Z.to_nat 0) with 0%nat in Hnd0.
      change (rx_queue (count_overrun nd0)) with (rx_queue nd0). congruence.
    - exists nd. split; [exact Hnd | reflexivity]. }
  destruct Hnd' as (nd' & Hnd' & Hq).
  destruct (feed_encoded muxnetdevs cf dev_idx sl2 nd') as (rb & _ & Hfeed);
    try assumption; try lia; try reflexivity.
  { apply Z.clearbit_eq. }
  { change (rbuff sl2) with (take (Z.to_nat SLC_MTU) bs). apply length_take_le. lia. }
  destruct (decoded_frame_fields cf Hvalid) as (H1 & H2 & H3 & H4 & _ & H5 & _).
  exists sl1, sl2. eexists. exists nd', (decoded_frame cf).
  split; [exact Hover |]. split; [exact Hset |].
  split; [reflexivity |]. split; [reflexivity |]. split; [reflexivity |].
  split; [intros Hx; by apply ulong_inc_plain |].
  split; [reflexivity |]. split; [exact Hstep |]. split; [reflexivity |].
  split; [apply Z.clearbit_eq |]. split; [reflexivity |].
  split; [exact Hnd' |]. split; [exact Hq |]. split; [exact Hfeed |].
  split; [reflexivity |]. auto.
Qed.

(** ** Transmit flow control *)

(** C2 at the failing input: a channel with two endpoints, both up and
    idle; endpoint 1 sends the extended frame 0x12345678 without data (12
    bytes), of which the transport takes 5.  The first writable
    notification writes the 7 pending bytes, so that the whole frame is on
    the wire and nothing is pending, and it leaves the counter of endpoint 1
    at 0, while it counts one packet for endpoint 0, which has sent
    nothing.  A second notification counts the frame of endpoint 1, and
    one more packet for endpoint 0. *)
Theorem idle_endpoint_counted :
  let cf := CanFrame (Z.lor 0x12345678 CAN_EFF_FLAG) 0 zero_payload in
  ∃ sl0 sl1 sl2 sl3,
    channel_up 2 = Some sl0 ∧
    length (slc_encaps_string 2 cf 1) = 12%nat ∧
    slc_xmit 2 5 sl0 1 16 cf = Some sl1 ∧
    pending sl1 1 = Some 7 ∧
    tx_count sl1 0 = Some 0 ∧ tx_count sl1 1 = Some 0 ∧
    slcan_write_wakeup 2 (fun _ => 7) sl1 = Some sl2 ∧
    wire <$> tty sl2 = Some (slc_encaps_string 2 cf 1) ∧
    pending sl2 1 = Some 0 ∧
    tx_count sl2 0 = Some 1 ∧ tx_count sl2 1 = Some 0 ∧
    slcan_write_wakeup 2 (fun _ => 0) sl2 = Some sl3 ∧
    tx_count sl3 0 = Some 2 ∧ tx_count sl3 1 = Some 1.
Proof.
  intros cf. do 4 eexists.
  split; [vm_compute; reflexivity |].
  split; [vm_compute; reflexivity |].
  split; [vm_compute; reflexivity |].
  split; [vm_compute; reflexivity |].
  split; [vm_compute; reflexivity |].
  split; [vm_compute; reflexivity |].
  split; [vm_compute; reflexivity |].
  split; [vm_compute; reflexivity |].
  split; [vm_compute; reflexivity |].
  split; [vm_compute; reflexivity |].
  split; [vm_compute; reflexivity |].
  split; [vm_compute; reflexivity |].
  split; vm_compute; reflexivity.
Qed.

(** ** The theorems at concrete inputs *)

Lemma example_frame_valid : valid_frame example_frame.
Proof.
  unfold valid_frame, example_frame. cbn [can_id can_dlc data].
  split; [vm_compute; split; [discriminate | reflexivity] |].
  split; [intros H; vm_compute in H; discriminate |].
  split; [lia |]. split; [reflexivity |].
  repeat constructor; lia.
Qed.

(** The round trip of [example_frame] to endpoint 1 of a channel with two
    endpoints. *)
Lemma encode_decode_round_trip_witness :
  (valid_frame example_frame ∧ dev_at channel_up2 1 = Some (fresh_device 1)) ∧
  ∃ sl' cf',
    slcan_feed true channel_up2 (slc_encaps_string 2 example_frame 1) = Some sl' ∧
    rx_queue <$> dev_at sl' 1 = Some [cf'] ∧
    can_id cf' = can_id example_frame ∧
    can_dlc cf' = 2 ∧
    take 2 (data cf') = [0xAA; 0x55].
Proof.
  split; [split; [exact example_frame_valid | reflexivity] |].
  destruct (encode_decode_round_trip 2 example_frame 1 channel_up2 (fresh_device 1))
    as (sl' & cf' & Hfeed & Hdev & _ & _ & _ & _ & Hdlc & Hdata & Hid & _).
  - exact example_frame_valid.
  - unfold MUX_NETDEV_MAX. lia.
  - lia.
  - reflexivity.
  - reflexivity.
  - reflexivity.
  - reflexivity.
  - exists sl', cf'. split; [exact Hfeed |].
    split; [unfold dev_at; rewrite Hdev; reflexivity |].
    split; [apply Hid; reflexivity |].
    split; [exact Hdlc | exact Hdata].
Defined.

(** Forty bytes '1' overflow the buffer of a channel with two endpoints; a
    BEL ends the error, and [example_frame] then reaches endpoint 1. *)
Lemma overflow_recovery_witness :
  ∃ sl1 sl3,
    slcan_feed true channel_up2 (replicate 40 49) = Some sl1 ∧
    (fun nd => rx_over_errors (stats nd)) <$> dev_at sl1 0 = Some 1 ∧
    (fun nd => rx_over_errors (stats nd)) <$> dev_at sl1 1 = Some 0 ∧
    slcan_feed true sl1 (BEL :: slc_encaps_string 2 example_frame 1) = Some sl3 ∧
    length <$> (rx_queue <$> dev_at sl3 1) = Some 1%nat.
Proof.
  destruct (overflow_recovery true channel_up2 (fresh_device 0) (replicate 40 49) BEL
              2 example_frame 1 (fresh_device 1))
    as (sl1 & sl2 & sl3 & nd' & cf' & Hfeed & _ & _ & Hdev1 & _ & _ & _ & Hstep & Hdev2
        & _ & _ & Hnd' & Hq & Hfeed3 & Hdev3 & _).
  - reflexivity.
  - reflexivity.
  - reflexivity.
  - reflexivity.
  - apply Forall_replicate. reflexivity.
  - vm_compute. lia.
  - right. reflexivity.
  - exact example_frame_valid.
  - unfold MUX_NETDEV_MAX. lia.
  - lia.
  - reflexivity.
  - exists sl1, sl3.
    split; [exact Hfeed |].
    split; [unfold dev_at; rewrite Hdev1; reflexivity |].
    split; [unfold dev_at; rewrite Hdev1; reflexivity |].
    split.
    + cbn [slcan_feed]. rewrite Hstep. exact Hfeed3.
    + unfold dev_at in *. rewrite Hdev3, list_lookup_insert_eq.
      * cbn [mjoin option_join fmap option_fmap option_map deliver rx_queue].
        rewrite Hq. reflexivity.
      * destruct (dev sl2 !! Z.to_nat 1) eqn:E; [| discriminate].
        eapply lookup_lt_Some. exact E.
Defined.

(** A CR on the channel that has accumulated "t1232AA55". *)
Lemma terminator_resets_witness :
  ∃ sl',
    slcan_unesc true channel_t1232AA55 CR = Some sl' ∧
    rcount sl' = 0 ∧
    Z.testbit (flags sl') SLF_ERROR = false.
Proof.
  destruct (terminator_resets true channel_t1232AA55 CR) as (sl' & H & Hrc & Hfl & _).
  - left. reflexivity.
  - exists sl'. auto.
Defined.

(** Endpoint 0 is down and endpoint 1 is up: a frame for endpoint 1 is
    discarded with the rest of the block. *)
Lemma receive_gated_by_endpoint0_witness :
  (running <$> dev_at channel_dev0_down 0 = Some false ∧
   running <$> dev_at channel_dev0_down 1 = Some true) ∧
  slcan_receive_buf (fun _ => true) channel_dev0_down
    (bytes_of_string "1t1230" ++ [CR]) None
  = Some channel_dev0_down.
Proof.
  split; [split; reflexivity |].
  apply (receive_gated_by_endpoint0 _ _ _ _ (alloc_netdev 0)); reflexivity.
Defined.

(** The buffer "t1232AA55" has the DLC digit '2'. *)
Lemma dlc_digit_range_witness :
  rbuff_at channel_t1232AA55 (dlc_pos channel_t1232AA55) = 50 ∧
  rbuff (slc_bump true channel_t1232AA55)
  = <[4%nat := 0]> (rbuff channel_t1232AA55).
Proof.
  split; [reflexivity |].
  destruct (dlc_digit_range true channel_t1232AA55) as (_ & Hpass & _).
  apply Hpass; [reflexivity |]. vm_compute. split; discriminate.
Defined.

(** The frame decoded from "t1232AA55" has six zero bytes after its two
    data bytes. *)
Lemma delivered_payload_zero_padded_witness :
  ∃ nd',
    dev_at (slc_bump true channel_t1232AA55) 0 = Some nd' ∧
    rx_queue nd' = [CanFrame 0x123 2 [0xAA; 0x55; 0; 0; 0; 0; 0; 0]].
Proof.
  assert (H : dev_at (slc_bump true channel_t1232AA55) 0
              = Some (deliver (fresh_device 0)
                        (CanFrame 0x123 2 [0xAA; 0x55; 0; 0; 0; 0; 0; 0])))
    by reflexivity.
  destruct (delivered_payload_zero_padded true channel_t1232AA55 0 _ H)
    as (nd & _ & _).
  eexists. split; [exact H | reflexivity].
Defined.

(** ** The effect of a writable notification on each endpoint *)

Lemma write_wakeup_loop_devices w n : ∀ i sl,
  0 ≤ i →
  tty sl ≠ None →
  (∀ k, i ≤ k < i + Z.of_nat n → dev_at sl k ≠ None) →
  ∃ sl',
    slcan_write_wakeup_loop w n i sl = Some sl' ∧
    tty sl' ≠ None ∧
    ∀ j, 0 ≤ j →
      dev_at sl' j
      = if (i <=? j) && (j <? i + Z.of_nat n)
        then wakeup_device (w j) <$> dev_at sl j
        else dev_at sl j.
Proof.
  induction n as [| n IH]; intros i sl Hi Htty Hdevs.
  - exists sl. split; [reflexivity |]. split; [exact Htty |].
    intros j Hj. change (Z.of_nat 0) with 0.
    replace ((i <=? j) && (j <? i + 0)) with false by bool_lia.
    reflexivity.
  - cbn [slcan_write_wakeup_loop].
    assert (HS : Z.of_nat (S n) = Z.of_nat n + 1) by lia.
    setoid_rewrite HS. setoid_rewrite HS in Hdevs. clear HS.
    destruct (dev_at sl i) as [nd |] eqn:End; [| exfalso; apply (Hdevs i); [lia | exact End]].
    destruct (tty sl) as [t |] eqn:Et; [| congruence].
    cbn [mbind option_bind].
    assert (Hin : (Z.to_nat i < length (dev sl))%nat).
    { unfold dev_at in End. destruct (dev sl !! Z.to_nat i) eqn:E; [| discriminate].
      eapply lookup_lt_Some. exact E. }
    assert (Hstep : ∀ nd' t',
      ∃ sl', slcan_write_wakeup_loop w n (i + 1)
               (set_tty (set_dev sl (<[Z.to_nat i := Some nd']> (dev sl))) (Some t'))
             = Some sl' ∧
             tty sl' ≠ None ∧
             ∀ j, 0 ≤ j →
               dev_at sl' j
               = if (i <=? j) && (j <? i + (Z.of_nat n + 1))
                 then (if j =? i then Some nd' else wakeup_device (w j) <$> dev_at sl j)
                 else dev_at sl j).
    { intros nd' t'.
      destruct (IH (i + 1)
                  (set_tty (set_dev sl (<[Z.to_nat i := Some nd']> (dev sl))) (Some t')))
        as (sl' & Hrun & Htty' & Hdev'); [lia | discriminate | |].
      - intros k Hk.
        change (dev_at (set_tty ?s ?x) k) with (dev_at s k).
        rewrite dev_at_insert. destruct (decide _); [discriminate |].
        apply Hdevs. lia.
      - exists sl'. split; [exact Hrun |]. split; [exact Htty' |].
        intros j Hj. rewrite (Hdev' j Hj).
        change (dev_at (set_tty ?s ?x) j) with (dev_at s j).
        rewrite dev_at_insert.
        destruct (decide (Z.to_nat i = Z.to_nat j ∧ (Z.to_nat i < length (dev sl))%nat))
          as [[Hij _] | Hne].
        + assert (j = i) by lia. subst j.
          replace ((i + 1 <=? i) && (i <? i + 1 + Z.of_nat n)) with false by bool_lia.
          replace ((i <=? i) && (i <? i + (Z.of_nat n + 1))) with true by bool_lia.
          rewrite Z.eqb_refl. reflexivity.
        + assert (j ≠ i) by (intros ->; apply Hne; split; [reflexivity | exact Hin]).
          replace (j =? i) with false by bool_lia.
          replace ((i + 1 <=? j) && (j <? i + 1 + Z.of_nat n))
            with ((i <=? j) && (j <? i + (Z.of_nat n + 1))) by bool_lia.
          reflexivity. }
    assert (Hfin : ∀ nd' t', nd' = wakeup_device (w i) nd →
      ∃ sl', slcan_write_wakeup_loop w n (i + 1)
               (set_tty (set_dev sl (<[Z.to_nat i := Some nd']> (dev sl))) (Some t'))
             = Some sl' ∧
             tty sl' ≠ None ∧
             ∀ j, 0 ≤ j →
               dev_at sl' j
               = if (i <=? j) && (j <? i + (Z.of_nat n + 1))
                 then wakeup_device (w j) <$> dev_at sl j
                 else dev_at sl j).
    { intros nd' t' ->. destruct (Hstep (wakeup_device (w i) nd) t')
        as (sl' & Hrun & Htty' & Hdev').
      exists sl'. split; [exact Hrun |]. split; [exact Htty' |].
      intros j Hj. rewrite (Hdev' j Hj).
      destruct ((i <=? j) && (j <? i + (Z.of_nat n + 1))); [| reflexivity].
      destruct (Z.eqb_spec j i) as [-> | _]; [| reflexivity].
      rewrite End. reflexivity. }
    destruct (running nd) eqn:Erun; cbn [negb].
    + destruct (xleft (priv nd) <=? 0) eqn:Ex.
      * apply Hfin. unfold wakeup_device. rewrite Erun, Ex. reflexivity.
      * apply Hfin. unfold wakeup_device. rewrite Erun, Ex. reflexivity.
    + destruct (Hfin nd t) as (sl' & Hrun & Htty' & Hdev').
      { unfold wakeup_device. rewrite Erun. reflexivity. }
      exists sl'. split; [| split; [exact Htty' | exact Hdev']].
      rewrite <- Hrun. f_equal.
      unfold set_tty, set_dev. cbn [magic tty dev rbuff rcount flags].
      rewrite <- Et, list_insert_id; [apply eq_sym, channel_eta |].
      unfold dev_at in End. destruct (dev sl !! Z.to_nat i) as [o |] eqn:E; [| discriminate].
      simpl in End. by subst o.
Qed.

(** One writable notification, seen from each endpoint of the channel: a
    running endpoint with pending bytes has its offset and its pending count
    moved by what the transport accepted, and its counters are untouched; a
    running endpoint with nothing pending has its queue resumed and one
    packet counted; an endpoint that is not running is left alone. *)
Theorem writable_notification_effect muxnetdevs w sl t :
  magic sl = SLCAN_MAGIC →
  tty sl = Some t →
  0 ≤ muxnetdevs →
  (∀ k, 0 ≤ k < muxnetdevs → dev_at sl k ≠ None) →
  ∃ sl',
    slcan_write_wakeup muxnetdevs w sl = Some sl' ∧
    ∀ j nd, 0 ≤ j < muxnetdevs → dev_at sl j = Some nd →
      ∃ nd',
        dev_at sl' j = Some nd' ∧
        (running nd = true → 0 < xleft (priv nd) →
         xhead (priv nd') = xhead (priv nd) + w j ∧
         xleft (priv nd') = xleft (priv nd) - w j ∧
         stats nd' = stats nd) ∧
        (running nd = true → xleft (priv nd) ≤ 0 →
         queue_stopped nd' = false ∧
         tx_packets (stats nd') = ulong_inc (tx_packets (stats nd))) ∧
        (running nd = false → nd' = nd).
Proof.
  intros Hmagic Htty Hmux Hdevs.
  destruct (write_wakeup_loop_devices w (Z.to_nat muxnetdevs) 0 sl)
    as (sl' & Hrun & _ & Hdev'); [lia | congruence | |].
  { intros k Hk. apply Hdevs. lia. }
  exists sl'. split.
  - unfold slcan_write_wakeup. rewrite Hmagic, Z.eqb_refl. exact Hrun.
  - intros j nd Hj Hnd. rewrite Hdev' by lia.
    replace ((0 <=? j) && (j <? 0 + Z.of_nat (Z.to_nat muxnetdevs))) with true
      by (rewrite Z2Nat.id by lia; bool_lia).
    rewrite Hnd. eexists. split; [reflexivity |].
    unfold wakeup_device. split; [| split].
    + intros -> Hx. replace (xleft (priv nd) <=? 0) with false by bool_lia.
      cbn. auto.
    + intros -> Hx. replace (xleft (priv nd) <=? 0) with true by bool_lia.
      cbn. auto.
    + intros ->. reflexivity.
Qed.

(** The notification that follows a partial write of 5 bytes out of 12 on a
    channel with a single endpoint. *)
Lemma writable_notification_effect_witness :
  pending channel_pending 0 = Some 7 ∧
  ∃ sl2,
    slcan_write_wakeup 1 (fun _ => 7) channel_pending = Some sl2 ∧
    pending sl2 0 = Some 0 ∧
    tx_count sl2 0 = Some 0.
Proof.
  split; [reflexivity |].
  destruct (writable_notification_effect 1 (fun _ => 7) channel_pending
              (TtyStruct 32 [116; 49; 50; 51; 51]))
    as (sl2 & Hrun & Heff).
  - reflexivity.
  - reflexivity.
  - lia.
  - intros k Hk. assert (k = 0) by lia. subst k. vm_compute. discriminate.
  - destruct (Heff 0 (NetDevice true true (NetDeviceStats 0 0 0 3 0 0)
                        (SlcanDev 0 [116; 49; 50; 51; 51; 48; 49; 48; 50; 48; 51; 13] 5 7)
                        []))
      as (nd' & Hnd' & Hpend & _ & _); [lia | reflexivity |].
    destruct Hpend as (_ & Hleft & Hstats); [reflexivity | cbn; lia |].
    exists sl2. split; [exact Hrun |].
    unfold pending, tx_count. rewrite Hnd'. cbn [fmap option_fmap option_map].
    rewrite Hleft, Hstats. split; reflexivity.
Defined.

(** The buffer "t1231G5": the payload holds a 'G', and nothing is
    delivered. *)
Lemma malformed_buffer_dropped_witness :
  let sl := default channel_up1 (slcan_feed true channel_up1 (bytes_of_string "t1231G5")) in
  malformed_framing sl = true ∧
  dev (slc_bump_with strict_strtoul true sl) = dev sl ∧
  dev (slc_bump true sl) = dev sl.
Proof.
  intros sl. split; [reflexivity |].
  apply (malformed_buffer_dropped strict_strtoul true sl). left. reflexivity.
Defined.

(** ** Further facts about the receive path *)

(** The receive counter stays within the buffer, and the buffer keeps its
    size, whatever byte arrives. *)
Theorem rcount_within_buffer skb sl s sl' :
  0 ≤ rcount sl ≤ SLC_MTU →
  slcan_unesc skb sl s = Some sl' →
  0 ≤ rcount sl' ≤ SLC_MTU ∧ length (rbuff sl') = length (rbuff sl).
Proof.
  intros Hrc H. unfold slcan_unesc in H.
  destruct (is_terminator s).
  - inversion H; subst sl'. cbn [rcount set_rcount].
    split; [unfold SLC_MTU; lia |].
    destruct (negb _ && _); [| reflexivity].
    cbn [rbuff set_rcount].
    destruct (slc_bump_cases skb (set_flags sl (Z.clearbit (flags sl) SLF_ERROR)))
      as [_ | (nd & u & pl & _ & _ & _ & _ & _ & _ & Heq)].
    + unfold slc_bump.
      repeat (match goal with
              | |- context [if ?b then _ else _] => destruct b
              | |- context [match ?o with Some _ => _ | None => _ end] => destruct o
              end; cbn [rbuff set_rbuff set_dev set_flags];
              rewrite ?length_insert; try reflexivity).
    + rewrite Heq. cbn [rbuff set_rbuff set_dev]. unfold id_terminated.
      rewrite length_insert. reflexivity.
  - destruct (negb (Z.testbit (flags sl) SLF_ERROR)).
    + destruct (rcount sl <? SLC_MTU) eqn:E.
      * inversion H; subst sl'. cbn [rcount rbuff set_rcount set_rbuff].
        rewrite length_insert. split; [lia | reflexivity].
      * destruct (dev_at sl 0); [| discriminate].
        inversion H; subst sl'. split; [exact Hrc | reflexivity].
    + inversion H; subst sl'. split; [exact Hrc | reflexivity].
Qed.

(** The first byte stored in an empty buffer. *)
Lemma rcount_within_buffer_witness :
  let sl' := default channel_up1 (slcan_unesc true channel_up1 116) in
  0 ≤ rcount sl' ≤ SLC_MTU ∧ length (rbuff sl') = length (rbuff channel_up1).
Proof.
  intros sl'.
  apply (rcount_within_buffer true channel_up1 116 sl');
    [vm_compute; split; discriminate | reflexivity].
Defined.

(** The decoder does not compare the number of bytes accumulated with the
    number the DLC digit calls for: after the frame "t12381122334455667788",
    the five bytes "t1238" and a CR deliver a second frame with the same
    eight data bytes, read from what the first frame left in the buffer. *)
Theorem truncated_frame_reads_stale_payload :
  ∃ sl1 sl2,
    slcan_feed true channel_up1 (bytes_of_string "t12381122334455667788" ++ [CR])
      = Some sl1 ∧
    rx_queue <$> dev_at sl1 0
      = Some [CanFrame 0x123 8 [0x11; 0x22; 0x33; 0x44; 0x55; 0x66; 0x77; 0x88]] ∧
    slcan_feed true sl1 (bytes_of_string "t1238" ++ [CR]) = Some sl2 ∧
    rx_queue <$> dev_at sl2 0
      = Some [CanFrame 0x123 8 [0x11; 0x22; 0x33; 0x44; 0x55; 0x66; 0x77; 0x88];
              CanFrame 0x123 8 [0x11; 0x22; 0x33; 0x44; 0x55; 0x66; 0x77; 0x88]].
Proof.
  do 2 eexists.
  split; [vm_compute; reflexivity |].
  split; [vm_compute; reflexivity |].
  split; vm_compute; reflexivity.
Qed.

(** ** The encoded string *)

Lemma enc_body_bytes muxnetdevs cf dev_idx :
  valid_frame cf → 0 ≤ dev_idx ≤ 9 →
  Forall (fun c => 48 ≤ c ≤ 116) (enc_body muxnetdevs cf dev_idx).
Proof.
  intros (_ & _ & Hdlc & _ & Hbytes) Hd. unfold enc_body, enc_prefix.
  repeat apply Forall_app_2.
  - destruct (muxnetdevs <? 2); repeat constructor; lia.
  - repeat constructor; destruct (enc_cmd_cases cf) as [[[-> | ->] _] | [[-> | ->] _]]; lia.
  - eapply Forall_impl; [| apply hex_digits_range]. intros c Hc. simpl in Hc. lia.
  - constructor; [lia |].
    eapply Forall_impl; [| by apply slc_encaps_data_range].
    intros c Hc. simpl in Hc. lia.
Qed.

(** The string [slc_encaps] prints for a valid frame and an address in
    0..9 is made of characters between '0' and 't' followed by one CR: it
    ends with its only terminator and holds no NUL, so that [strlen] of
    [xbuff] is its length and a receiver finds the end of the frame at its
    last byte.  It has between 6 and 28 bytes and fits the [SLC_MTU] bytes
    of the transmit buffer together with the NUL that ends it there. *)
Theorem encoded_string_framed muxnetdevs cf dev_idx :
  valid_frame cf →
  0 ≤ dev_idx ≤ 9 →
  ∃ body,
    slc_encaps_string muxnetdevs cf dev_idx = body ++ [CR] ∧
    Forall (fun c => 48 ≤ c ≤ 116 ∧ is_terminator c = false ∧ c ≠ 0) body ∧
    (6 ≤ length (slc_encaps_string muxnetdevs cf dev_idx) ≤ 28)%nat ∧
    Z.of_nat (length (slc_encaps_string muxnetdevs cf dev_idx)) + 1 ≤ SLC_MTU.
Proof.
  intros Hvalid Hd. pose proof Hvalid as (_ & _ & Hdlc & _ & _).
  pose proof (enc_body_length muxnetdevs cf dev_idx Hvalid) as Hlen.
  exists (enc_body muxnetdevs cf dev_idx).
  split; [by apply slc_encaps_string_body |]. split.
  - eapply Forall_impl; [| by apply enc_body_bytes].
    intros c Hc. simpl in Hc.
    split; [exact Hc |]. split; [apply not_terminator |]; lia.
  - rewrite slc_encaps_string_body by exact Hdlc.
    rewrite length_app. cbn [length]. unfold SLC_MTU. lia.
Qed.

Lemma encoded_string_framed_witness :
  ∃ body,
    slc_encaps_string 2 example_frame 1 = body ++ [CR] ∧
    Forall (fun c => 48 ≤ c ≤ 116 ∧ is_terminator c = false ∧ c ≠ 0) body ∧
    (6 ≤ length (slc_encaps_string 2 example_frame 1) ≤ 28)%nat ∧
    Z.of_nat (length (slc_encaps_string 2 example_frame 1)) + 1 ≤ SLC_MTU.
Proof.
  apply (encoded_string_framed 2 example_frame 1); [apply example_frame_valid | lia].
Defined.

Lemma slc_alloc_device d :
  0 ≤ d ≤ 9 → dev_at (slc_alloc MUX_NETDEV_MAX) d = Some (alloc_netdev d).
Proof.
  intros Hd.
  assert (H : d = 0 ∨ d = 1 ∨ d = 2 ∨ d = 3 ∨ d = 4 ∨ d = 5 ∨ d = 6 ∨ d = 7
              ∨ d = 8 ∨ d = 9) by lia.
  repeat (destruct H as [-> | H]; [reflexivity |]). subst d. reflexivity.
Qed.

(** The encoding is injective on what a frame carries: two valid frames
    for which [slc_encaps] prints the same string have the same
    identifier, the same extended and remote-request flags, the same DLC
    and the same first DLC data bytes. *)
Theorem encoding_injective muxnetdevs cf1 cf2 dev_idx :
  valid_frame cf1 →
  valid_frame cf2 →
  0 ≤ dev_idx ≤ 9 →
  slc_encaps_string muxnetdevs cf1 dev_idx = slc_encaps_string muxnetdevs cf2 dev_idx →
  frame_id cf1 = frame_id cf2 ∧
  frame_eff cf1 = frame_eff cf2 ∧
  frame_rtr cf1 = frame_rtr cf2 ∧
  can_dlc cf1 = can_dlc cf2 ∧
  take (Z.to_nat (can_dlc cf1)) (data cf1) = take (Z.to_nat (can_dlc cf2)) (data cf2).
Proof.
  intros Hv1 Hv2 Hd Heq.
  assert (Hdec : decoded_frame cf1 = decoded_frame cf2).
  { (* with a single endpoint the string carries no address *)
    set (d := if muxnetdevs <? 2 then 0 else dev_idx).
    assert (Hs : ∀ cf, slc_encaps_string muxnetdevs cf dev_idx
                       = slc_encaps_string muxnetdevs cf d).
    { intros cf. subst d. unfold slc_encaps_string.
      destruct (muxnetdevs <? 2); reflexivity. }
    rewrite !Hs in Heq.
    assert (Hd' : 0 ≤ d ≤ 9) by (subst d; destruct (muxnetdevs <? 2); lia).
    assert (Hm : muxnetdevs < 2 → d = 0).
    { intros Hlt. subst d. replace (muxnetdevs <? 2) with true by lia. reflexivity. }
    destruct (feed_encoded muxnetdevs cf1 d (slc_alloc MUX_NETDEV_MAX) (alloc_netdev d))
      as (rb1 & _ & H1); try done; try (by apply slc_alloc_device).
    destruct (feed_encoded muxnetdevs cf2 d (slc_alloc MUX_NETDEV_MAX) (alloc_netdev d))
      as (rb2 & _ & H2); try done; try (by apply slc_alloc_device).
    rewrite Heq, H2 in H1.
    injection H1 as Hdev _.
    apply (f_equal (fun l => l !! Z.to_nat d)) in Hdev.
    rewrite !list_lookup_insert_eq in Hdev
      by (change (length _) with 10%nat; lia).
    do 2 apply (inj Some) in Hdev. apply (f_equal rx_queue) in Hdev.
    cbn [deliver rx_queue] in Hdev.
    apply app_inv_head in Hdev. symmetry. exact (f_equal (default cf1 ∘ head) Hdev). }
  destruct (decoded_frame_fields cf1 Hv1) as (Hi1 & He1 & Hr1 & Hc1 & _ & Ht1 & _).
  destruct (decoded_frame_fields cf2 Hv2) as (Hi2 & He2 & Hr2 & Hc2 & _ & Ht2 & _).
  rewrite Hdec in Hi1, He1, Hr1, Hc1, Ht1.
  repeat split; congruence.
Qed.

Lemma example_frame_padded_valid : valid_frame example_frame_padded.
Proof.
  unfold valid_frame, example_frame_padded. cbn [can_id can_dlc data].
  split; [vm_compute; split; [discriminate | reflexivity] |].
  split; [intros H; vm_compute in H; discriminate |].
  split; [lia |]. split; [reflexivity |].
  repeat constructor; lia.
Qed.

(** [example_frame] and the frame that differs from it in a data byte
    beyond the DLC are printed alike. *)
Lemma encoding_injective_witness :
  frame_id example_frame = frame_id example_frame_padded ∧
  frame_eff example_frame = frame_eff example_frame_padded ∧
  frame_rtr example_frame = frame_rtr example_frame_padded ∧
  can_dlc example_frame = can_dlc example_frame_padded ∧
  take (Z.to_nat (can_dlc example_frame)) (data example_frame)
  = take (Z.to_nat (can_dlc example_frame_padded)) (data example_frame_padded).
Proof.
  apply (encoding_injective 2 example_frame example_frame_padded 1).
  - exact example_frame_valid.
  - exact example_frame_padded_valid.
  - lia.
  - reflexivity.
Defined.

(** ** The receive counters and the delivered frames *)

Lemma sum_dlc_app fs cf : sum_dlc (fs ++ [cf]) = sum_dlc fs + can_dlc cf.
Proof.
  induction fs as [| f fs IH]; cbn [sum_dlc foldr app] in *; [lia |].
  unfold sum_dlc in IH. rewrite IH. lia.
Qed.

Lemma rx_accounted_refl nd :
  0 ≤ rx_packets (stats nd) < 2 ^ BITS_PER_LONG →
  0 ≤ rx_bytes (stats nd) < 2 ^ BITS_PER_LONG →
  rx_accounted nd nd [].
Proof.
  intros Hp Hb. unfold rx_accounted. cbn [length sum_dlc foldr].
  change (Z.of_nat 0) with 0.
  rewrite app_nil_r, !Z.add_0_r, !Z.mod_small by assumption. done.
Qed.

Lemma rx_accounted_deliver nd nd1 fs cf :
  rx_accounted nd nd1 fs → rx_accounted nd (deliver nd1 cf) (fs ++ [cf]).
Proof.
  intros (Hq & Hp & Hb & Htp & Htb & Hr & Hs & Hpr).
  unfold rx_accounted, deliver. cbn [rx_queue stats rx_packets rx_bytes tx_packets
    tx_bytes running queue_stopped priv].
  rewrite Hq, Hp, Hb, sum_dlc_app, length_app, <- app_assoc. cbn [length].
  unfold ulong_inc, ulong_add.
  rewrite !Z.add_mod_idemp_l by (unfold BITS_PER_LONG; lia).
  repeat split; try assumption; f_equal; lia.
Qed.

Lemma rx_accounted_count_overrun nd nd1 fs :
  rx_accounted nd nd1 fs → rx_accounted nd (count_overrun nd1) fs.
Proof. intros H. exact H. Qed.

Lemma rx_accounted_count_rx_error nd nd1 fs :
  rx_accounted nd nd1 fs → rx_accounted nd (count_rx_error nd1) fs.
Proof. intros H. exact H. Qed.

(** [slc_bump] seen from a device that exists: it is left as it is, or one
    frame with a DLC of at most 8 is delivered to it. *)
Lemma slc_bump_device_fwd skb sl d nd :
  dev_at sl d = Some nd →
  dev_at (slc_bump skb sl) d = Some nd ∨
  ∃ cf, 0 ≤ can_dlc cf ≤ 8 ∧ dev_at (slc_bump skb sl) d = Some (deliver nd cf).
Proof.
  intros Hnd.
  destruct (slc_bump_cases skb sl)
    as [Hsame | (nd0 & ultmp & payload & _ & Hdlc & _ & _ & _ & Hnd0 & Heq)].
  - left. unfold dev_at in *. by rewrite Hsame.
  - rewrite Heq.
    change (set_dev (set_rbuff sl (id_terminated sl)) ?l) with
      (set_rbuff (set_dev sl l) (id_terminated sl)).
    change (dev_at (set_rbuff ?s ?b) d) with (dev_at s d).
    rewrite dev_at_insert.
    destruct (decide _) as [[Hk _] |]; [| by left].
    right. eexists. split; [| f_equal; f_equal].
    + cbn [can_dlc]. by apply dlc_ok_range.
    + unfold dev_at in *. rewrite Hk in Hnd0. congruence.
Qed.

Lemma slcan_unesc_accounted skb sl s sl' d nd nd1 fs :
  rx_accounted nd nd1 fs →
  Forall (fun cf => 0 ≤ can_dlc cf ≤ 8) fs →
  dev_at sl d = Some nd1 →
  slcan_unesc skb sl s = Some sl' →
  ∃ nd2 fs2,
    dev_at sl' d = Some nd2 ∧ rx_accounted nd nd2 fs2 ∧
    Forall (fun cf => 0 ≤ can_dlc cf ≤ 8) fs2.
Proof.
  intros Hacc Hfs Hnd Hrun. unfold slcan_unesc in Hrun.
  destruct (is_terminator s).
  - injection Hrun as <-.
    change (dev_at (set_rcount ?x 0) d) with (dev_at x d).
    match goal with
    | |- context [if ?c then _ else _] => destruct c
    end.
    + destruct (slc_bump_device_fwd skb
                  (set_flags sl (Z.clearbit (flags sl) SLF_ERROR)) d nd1 Hnd)
        as [H | (cf & Hcf & H)].
      * exists nd1, fs. auto.
      * exists (deliver nd1 cf), (fs ++ [cf]). split; [exact H |].
        split; [by apply rx_accounted_deliver |].
        apply Forall_app_2; [exact Hfs | by constructor].
    + exists nd1, fs. auto.
  - destruct (negb (Z.testbit (flags sl) SLF_ERROR)).
    + destruct (rcount sl <? SLC_MTU).
      * injection Hrun as <-. exists nd1, fs. auto.
      * destruct (dev_at sl 0) as [nd0 |] eqn:E0; [| discriminate].
        injection Hrun as <-.
        change (dev_at (set_flags ?x ?f) d) with (dev_at x d).
        rewrite dev_at_insert.
        destruct (decide _) as [[Hk _] |].
        -- exists (count_overrun nd1), fs.
           unfold dev_at in *. rewrite <- Hk in Hnd.
           change (Z.to_nat 0) with 0%nat in E0.
           split; [congruence | auto].
        -- exists nd1, fs. auto.
    + injection Hrun as <-. exists nd1, fs. auto.
Qed.

Lemma slcan_receive_loop_accounted skb fp : ∀ cp i sl sl' d nd nd1 fs,
  rx_accounted nd nd1 fs →
  Forall (fun cf => 0 ≤ can_dlc cf ≤ 8) fs →
  dev_at sl d = Some nd1 →
  slcan_receive_loop skb fp i sl cp = Some sl' →
  ∃ nd2 fs2,
    dev_at sl' d = Some nd2 ∧ rx_accounted nd nd2 fs2 ∧
    Forall (fun cf => 0 ≤ can_dlc cf ≤ 8) fs2.
Proof.
  induction cp as [| c cp IH]; intros i sl sl' d nd nd1 fs Hacc Hfs Hnd Hrun.
  - injection Hrun as <-. exists nd1, fs. auto.
  - cbn [slcan_receive_loop] in Hrun.
    destruct (negb (_ =? 0)).
    + destruct (Z.testbit (flags sl) SLF_ERROR).
      * cbn [mbind option_bind] in Hrun.
        eapply IH; [exact Hacc | exact Hfs | | exact Hrun]. exact Hnd.
      * destruct (dev_at sl 0) as [nd0 |] eqn:E0; [| discriminate].
        cbn [mbind option_bind] in Hrun.
        assert (Hd : ∃ nd2,
          dev_at (set_flags (set_dev sl (<[0%nat := Some (count_rx_error nd0)]> (dev sl)))
                    (Z.setbit (flags sl) SLF_ERROR)) d = Some nd2 ∧
          rx_accounted nd nd2 fs).
        { change (dev_at (set_flags ?x ?f) d) with (dev_at x d).
          rewrite dev_at_insert.
          destruct (decide _) as [[Hk _] |].
          - exists (count_rx_error nd1).
            unfold dev_at in *. rewrite <- Hk in Hnd.
            change (Z.to_nat 0) with 0%nat in E0.
            split; [congruence | auto].
          - exists nd1. auto. }
        destruct Hd as (nd2 & Hnd2 & Hacc2).
        eapply IH; [exact Hacc2 | exact Hfs | exact Hnd2 | exact Hrun].
    + destruct (slcan_unesc (skb i) sl c) as [sl1 |] eqn:E; [| discriminate].
      cbn [mbind option_bind] in Hrun.
      destruct (slcan_unesc_accounted _ _ _ _ _ _ _ _ Hacc Hfs Hnd E)
        as (nd2 & fs2 & Hnd2 & Hacc2 & Hfs2).
      eapply IH; [exact Hacc2 | exact Hfs2 | exact Hnd2 | exact Hrun].
Qed.

(** Whatever block [slcan_receive_buf] is given, with or without line
    errors, every device of the channel is still there afterwards, and its
    receive counters match what was delivered to it: the receive queue has
    grown by some frames with a DLC of at most 8, [rx_packets] by their
    number and [rx_bytes] by the sum of their DLCs (as [unsigned long]),
    and the transmit side of the device is untouched. *)
Theorem rx_counters_match_deliveries skb sl cp fp sl' d nd :
  0 ≤ rx_packets (stats nd) < 2 ^ BITS_PER_LONG →
  0 ≤ rx_bytes (stats nd) < 2 ^ BITS_PER_LONG →
  dev_at sl d = Some nd →
  slcan_receive_buf skb sl cp fp = Some sl' →
  ∃ nd' fs,
    dev_at sl' d = Some nd' ∧
    rx_accounted nd nd' fs ∧
    Forall (fun cf => 0 ≤ can_dlc cf ≤ 8) fs.
Proof.
  intros Hp Hb Hnd Hrun.
  pose proof (rx_accounted_refl nd Hp Hb) as Hacc.
  unfold slcan_receive_buf in Hrun.
  destruct (negb (magic sl =? SLCAN_MAGIC)).
  { injection Hrun as <-. exists nd, []. auto. }
  destruct (dev_at sl 0) as [nd0 |]; [| discriminate].
  cbn [mbind option_bind] in Hrun.
  destruct (negb (running nd0)).
  { injection Hrun as <-. exists nd, []. auto. }
  eapply slcan_receive_loop_accounted; [exact Hacc | constructor | exact Hnd | exact Hrun].
Qed.

Lemma rx_counters_match_deliveries_witness :
  let sl' := default channel_up1
               (slcan_receive_buf (fun _ => true) channel_up1
                  (bytes_of_string "t1230" ++ [CR]) None) in
  ∃ nd' fs,
    dev_at sl' 0 = Some nd' ∧
    rx_accounted (fresh_device 0) nd' fs ∧
    Forall (fun cf => 0 ≤ can_dlc cf ≤ 8) fs.
Proof.
  intros sl'.
  apply (rx_counters_match_deliveries (fun _ => true) channel_up1
           (bytes_of_string "t1230" ++ [CR]) None sl' 0 (fresh_device 0));
    [vm_compute; split; [discriminate | reflexivity]
    | vm_compute; split; [discriminate | reflexivity]
    | reflexivity | reflexivity].
Defined.

(** ** Line errors *)

Lemma setbit_set a n : Z.testbit a n = true → Z.setbit a n = a.
Proof.
  intros H. apply Z.bits_inj'. intros m Hm.
  destruct (Z.eq_dec m n) as [-> | Hne].
  - rewrite Z.setbit_eq by exact Hm. by rewrite H.
  - rewrite Z.setbit_neq; [reflexivity | | congruence].
    destruct (Z.le_gt_cases 0 n); [assumption |].
    rewrite Z.testbit_neg_r in H by lia. discriminate.
Qed.

Lemma slcan_receive_loop_app skb fp : ∀ cp1 cp2 i sl,
  slcan_receive_loop skb fp i sl (cp1 ++ cp2)
  = sl' ← slcan_receive_loop skb fp i sl cp1;
    slcan_receive_loop skb fp (i + length cp1) sl' cp2.
Proof.
  induction cp1 as [| c cp1 IH]; intros cp2 i sl.
  - cbn [app slcan_receive_loop length mbind option_bind]. by rewrite Nat.add_0_r.
  - cbn [app slcan_receive_loop length].
    replace (i + S (length cp1))%nat with (S i + length cp1)%nat by lia.
    destruct (negb (_ =? 0)).
    + destruct (Z.testbit (flags sl) SLF_ERROR); [apply IH |].
      destruct (dev_at sl 0); [apply IH | reflexivity].
    + destruct (slcan_unesc (skb i) sl c); [apply IH | reflexivity].
Qed.

(** Bytes without line error that are no terminators go through
    [slcan_unesc] without any buffer allocation. *)
Lemma slcan_receive_loop_plain skb fp : ∀ cp i sl,
  Forall (fun c => is_terminator c = false) cp →
  (∀ k, (k < length cp)%nat → line_flag fp (i + k) = 0) →
  slcan_receive_loop skb fp i sl cp = slcan_feed true sl cp.
Proof.
  induction cp as [| c cp IH]; intros i sl Hcp Hfl; [reflexivity |].
  inversion Hcp as [| ? ? Hc Hcp']; subst.
  cbn [slcan_receive_loop slcan_feed].
  pose proof (Hfl 0%nat ltac:(simpl; lia)) as H0. rewrite Nat.add_0_r in H0.
  unfold line_flag in H0. rewrite H0. change (negb (0 =? 0)) with false. cbv iota.
  assert (Hu : slcan_unesc (skb i) sl c = slcan_unesc true sl c).
  { unfold slcan_unesc. by rewrite Hc. }
  rewrite Hu. destruct (slcan_unesc true sl c) as [sl1 |]; [| reflexivity].
  cbn [mbind option_bind]. apply IH; [exact Hcp' |].
  intros k Hk. replace (S i + k)%nat with (i + S k)%nat by lia.
  apply Hfl. simpl. lia.
Qed.

(** While the error flag is set, bytes that are no terminators change
    nothing, with or without line error. *)
Lemma slcan_receive_loop_discard skb fp : ∀ cp i sl,
  Forall (fun c => is_terminator c = false) cp →
  Z.testbit (flags sl) SLF_ERROR = true →
  slcan_receive_loop skb fp i sl cp = Some sl.
Proof.
  induction cp as [| c cp IH]; intros i sl Hcp Herr; [reflexivity |].
  inversion Hcp as [| ? ? Hc Hcp']; subst.
  cbn [slcan_receive_loop].
  destruct (negb (_ =? 0)).
  - rewrite Herr. cbn [mbind option_bind].
    rewrite setbit_set by exact Herr.
    unfold set_flags. rewrite channel_eta. by apply IH.
  - unfold slcan_unesc. rewrite Hc, Herr. cbn [negb mbind option_bind].
    by apply IH.
Qed.

(** A byte that the transport flags with a line error, arriving in the
    middle of a frame: the frame is lost and nothing is delivered.  The
    bytes before it were accumulated; the flagged byte sets the error flag
    and counts one [rx_errors] on the device in slot 0; the bytes up to the
    terminator, flagged or not, are ignored and count nothing more; the
    terminator clears the flag and resets the counter without decoding. *)
Theorem line_error_drops_frame skb sl nd0 f bs1 b bs2 t :
  magic sl = SLCAN_MAGIC →
  dev_at sl 0 = Some nd0 →
  running nd0 = true →
  rcount sl = 0 →
  Z.testbit (flags sl) SLF_ERROR = false →
  length (rbuff sl) = Z.to_nat SLC_MTU →
  Forall (fun c => is_terminator c = false) bs1 →
  Forall (fun c => is_terminator c = false) bs2 →
  (length bs1 ≤ Z.to_nat SLC_MTU)%nat →
  is_terminator t = true →
  (∀ k, (k < length bs1)%nat → line_flag (Some f) k = 0) →
  line_flag (Some f) (length bs1) ≠ 0 →
  line_flag (Some f) (length bs1 + 1 + length bs2) = 0 →
  ∃ sl',
    slcan_receive_buf skb sl (bs1 ++ b :: bs2 ++ [t]) (Some f) = Some sl' ∧
    dev sl' = <[0%nat := Some (count_rx_error nd0)]> (dev sl) ∧
    rcount sl' = 0 ∧
    Z.testbit (flags sl') SLF_ERROR = false.
Proof.
  intros Hm Hnd Hrun Hrc Herr Hlen Hbs1 Hbs2 Hroom Ht Hf1 Hfb Hft.
  unfold slcan_receive_buf. rewrite Hm, Z.eqb_refl, Hnd.
  cbn [negb mbind option_bind]. rewrite Hrun. cbn [negb].
  rewrite slcan_receive_loop_app.
  rewrite slcan_receive_loop_plain by (try exact Hbs1; intros k Hk; by apply Hf1).
  rewrite slcan_feed_store;
    [| assumption | assumption | lia | unfold SLC_MTU in *; lia | assumption].
  cbn [mbind option_bind Nat.add].
  match goal with
  | |- context [slcan_receive_loop _ _ _ ?s (b :: _)] => set (s1 := s)
  end.
  cbn [slcan_receive_loop].
  fold (line_flag (Some f) (length bs1)).
  destruct (Z.eqb_spec (line_flag (Some f) (length bs1)) 0) as [E | _]; [done |].
  cbn [negb].
  change (flags s1) with (flags sl). change (dev_at s1 0) with (dev_at sl 0).
  rewrite Herr, Hnd. cbn [mbind option_bind].
  match goal with
  | |- context [slcan_receive_loop _ _ _ ?s (bs2 ++ _)] => set (s2 := s)
  end.
  assert (Herr2 : Z.testbit (flags s2) SLF_ERROR = true).
  { subst s2. cbn [flags set_flags]. apply Z.setbit_eq. unfold SLF_ERROR. lia. }
  rewrite slcan_receive_loop_app.
  rewrite slcan_receive_loop_discard by assumption.
  cbn [mbind option_bind slcan_receive_loop].
  replace (S (length bs1) + length bs2)%nat with (length bs1 + 1 + length bs2)%nat by lia.
  fold (line_flag (Some f) (length bs1 + 1 + length bs2)). rewrite Hft.
  change (negb (0 =? 0)) with false. cbv iota.
  unfold slcan_unesc. rewrite Ht, Herr2. cbn [negb andb mbind option_bind].
  eexists. split; [reflexivity |].
  cbn [dev rcount flags set_rcount set_flags]. split; [reflexivity |].
  split; [reflexivity |].
  apply Z.clearbit_eq.
Qed.

Lemma line_error_drops_frame_witness :
  ∃ sl',
    slcan_receive_buf (fun _ => true) channel_up1
      (bytes_of_string "t1" ++ 50 :: bytes_of_string "30" ++ [CR]) (Some [0; 0; 1; 0; 0; 0])
    = Some sl' ∧
    dev sl' = <[0%nat := Some (count_rx_error (fresh_device 0))]> (dev channel_up1) ∧
    rcount sl' = 0 ∧
    Z.testbit (flags sl') SLF_ERROR = false.
Proof.
  apply (line_error_drops_frame (fun _ => true) channel_up1 (fresh_device 0)
           [0; 0; 1; 0; 0; 0] (bytes_of_string "t1") 50 (bytes_of_string "30") CR);
    try reflexivity.
  - repeat constructor.
  - repeat constructor.
  - vm_compute. lia.
  - intros k Hk. destruct k as [| [| k]]; [reflexivity | reflexivity |].
    vm_compute in Hk. lia.
  - vm_compute. discriminate.
Defined.

(** ** The transmit path *)

(** [slc_xmit] drops the frame without touching the channel when the
    buffer it is given has not the size of a CAN frame, when the interface
    is not running, or when the channel has lost its transport: nothing
    goes on the wire, the queue is not stopped and no counter moves. *)
Theorem slc_xmit_drops muxnetdevs actual sl i skb_len cf nd :
  dev_at sl i = Some nd →
  skb_len ≠ 16 ∨ running nd = false ∨ tty sl = None →
  slc_xmit muxnetdevs actual sl i skb_len cf = Some sl.
Proof.
  intros Hnd Hcase. unfold slc_xmit. rewrite Hnd. cbn [mbind option_bind].
  destruct (Z.eqb_spec skb_len 16) as [E | _]; [| reflexivity]. cbn [negb].
  destruct (running nd); [| reflexivity]. cbn [negb].
  destruct (tty sl); [| reflexivity].
  destruct Hcase as [H | [H | H]]; [done | discriminate..].
Qed.

Lemma slc_xmit_drops_witness :
  slc_xmit 2 5 (slc_alloc 2) 1 16 example_frame = Some (slc_alloc 2).
Proof.
  apply (slc_xmit_drops 2 5 (slc_alloc 2) 1 16 example_frame (alloc_netdev 1));
    [reflexivity | right; left; reflexivity].
Defined.

(** What [slc_xmit] does when it sends: the queue of the device is stopped,
    the string is in [xbuff], the transport has taken its first [actual]
    bytes, and [tx_bytes] has grown by the DLC. *)
Lemma slc_xmit_sends muxnetdevs actual sl i cf nd t :
  0 ≤ i →
  dev_at sl i = Some nd →
  addr (priv nd) = i →
  running nd = true →
  tty sl = Some t →
  slc_xmit muxnetdevs actual sl i 16 cf
  = let s := slc_encaps_string muxnetdevs cf i in
    let st := stats nd in
    Some (set_tty
            (set_dev sl
               (<[Z.to_nat i :=
                    Some (NetDevice true true
                            (NetDeviceStats (rx_packets st) (tx_packets st) (rx_bytes st)
                               (ulong_add (tx_bytes st) (can_dlc cf)) (rx_errors st)
                               (rx_over_errors st))
                            (SlcanDev i s actual (Z.of_nat (length s) - actual))
                            (rx_queue nd))]> (dev sl)))
            (Some (TtyStruct (Z.setbit (tty_flags t) TTY_DO_WRITE_WAKEUP)
                     (wire t ++ take (Z.to_nat actual) s)))).
Proof.
  intros Hi Hnd Haddr Hrun Ht.
  assert (Hin : (Z.to_nat i < length (dev sl))%nat).
  { unfold dev_at in Hnd. destruct (dev sl !! Z.to_nat i) eqn:E; [| discriminate].
    eapply lookup_lt_Some. exact E. }
  unfold slc_xmit. rewrite Hnd. cbn [mbind option_bind].
  change (negb (16 =? 16)) with false. rewrite Hrun, Ht, Haddr, Hnd.
  cbn [negb mbind option_bind]. unfold slc_encaps.
  rewrite dev_at_insert, decide_True by done.
  change (tty (set_dev ?x ?l)) with (tty x). rewrite Ht.
  cbn [mbind option_bind].
  change (dev_at (set_tty ?x ?y) i) with (dev_at x i).
  cbn [dev set_dev set_tty].
  rewrite !list_insert_insert_eq.
  rewrite dev_at_insert, decide_True by done.
  cbn [mbind option_bind dev set_dev].
  rewrite !list_insert_insert_eq.
  cbn [stats set_stats set_priv set_queue_stopped running queue_stopped priv rx_queue addr].
  rewrite Haddr.
  unfold set_dev, set_tty, set_stats, set_priv, set_queue_stopped, tty_write.
  cbn [magic tty dev rbuff rcount flags running queue_stopped stats priv rx_queue
       tty_flags wire].
  rewrite ?list_insert_insert_eq, Hrun. reflexivity.
Qed.

(** ** Partial writes and their resumption *)

Lemma wakeup_chunks_ext w n : ∀ i sl1 sl2,
  (∀ k, i ≤ k < i + Z.of_nat n → dev_at sl1 k = dev_at sl2 k) →
  wakeup_chunks w sl1 n i = wakeup_chunks w sl2 n i.
Proof.
  induction n as [| n IH]; intros i sl1 sl2 H; [reflexivity |].
  cbn [wakeup_chunks]. rewrite (H i) by lia. f_equal.
  apply IH. intros k Hk. apply H. lia.
Qed.

(** The loop of [slcan_write_wakeup] seen from the wire: the chunks of the
    devices it visits are appended in slot order. *)
Lemma write_wakeup_loop_wire w n : ∀ i sl t,
  0 ≤ i →
  tty sl = Some t →
  (∀ k, i ≤ k < i + Z.of_nat n → dev_at sl k ≠ None) →
  ∃ sl' t',
    slcan_write_wakeup_loop w n i sl = Some sl' ∧
    tty sl' = Some t' ∧
    magic sl' = magic sl ∧
    wire t' = wire t ++ wakeup_chunks w sl n i.
Proof.
  induction n as [| n IH]; intros i sl t Hi Ht Hdevs.
  - exists sl, t. cbn [wakeup_chunks]. rewrite app_nil_r. done.
  - cbn [slcan_write_wakeup_loop wakeup_chunks].
    destruct (dev_at sl i) as [nd |] eqn:End;
      [| exfalso; apply (Hdevs i); [lia | exact End]].
    rewrite Ht. cbn [mbind option_bind from_option].
    assert (Hnext : ∀ nd' t1,
      ∃ sl' t',
        slcan_write_wakeup_loop w n (i + 1)
          (set_tty (set_dev sl (<[Z.to_nat i := Some nd']> (dev sl))) (Some t1))
        = Some sl' ∧
        tty sl' = Some t' ∧ magic sl' = magic sl ∧
        wire t' = wire t1 ++ wakeup_chunks w sl n (i + 1)).
    { intros nd' t1.
      destruct (IH (i + 1)
                  (set_tty (set_dev sl (<[Z.to_nat i := Some nd']> (dev sl))) (Some t1)) t1)
        as (sl' & t' & Hrun & Htty & Hmagic & Hwire); [lia | reflexivity | |].
      - intros k Hk. change (dev_at (set_tty ?s ?x) k) with (dev_at s k).
        rewrite dev_at_insert. destruct (decide _); [discriminate |].
        apply Hdevs. lia.
      - exists sl', t'. split; [exact Hrun |]. split; [exact Htty |].
        split; [exact Hmagic |]. rewrite Hwire. f_equal.
        apply wakeup_chunks_ext. intros k Hk.
        change (dev_at (set_tty ?s ?x) k) with (dev_at s k).
        rewrite dev_at_insert. destruct (decide _) as [[Hik _] |]; [lia | reflexivity]. }
    unfold wakeup_chunk.
    destruct (running nd) eqn:Erun; cbn [negb andb].
    + destruct (Z.leb_spec (xleft (priv nd)) 0) as [Hx | Hx].
      * replace (0 <? xleft (priv nd)) with false by lia.
        match goal with
        | |- ∃ _ _, slcan_write_wakeup_loop _ _ _
                      (set_tty (set_dev _ (<[_ := Some ?nd']> _)) (Some ?t1)) = _ ∧ _ =>
            destruct (Hnext nd' t1) as (sl' & t' & Hrun & Htty & Hmagic & Hwire)
        end.
        exists sl', t'. cbn [app]. auto.
      * replace (0 <? xleft (priv nd)) with true by lia.
        match goal with
        | |- ∃ _ _, slcan_write_wakeup_loop _ _ _
                      (set_tty (set_dev _ (<[_ := Some ?nd']> _)) (Some ?t1)) = _ ∧ _ =>
            destruct (Hnext nd' t1) as (sl' & t' & Hrun & Htty & Hmagic & Hwire)
        end.
        exists sl', t'. split; [exact Hrun |]. split; [exact Htty |].
        split; [exact Hmagic |]. rewrite Hwire. unfold tty_write. cbn [wire].
        by rewrite <- app_assoc.
    + destruct (IH (i + 1) sl t) as (sl' & t' & Hrun & Htty & Hmagic & Hwire);
        [lia | exact Ht | intros k Hk; apply Hdevs; lia |].
      exists sl', t'. cbn [app]. auto.
Qed.

(** When no endpoint but [i] has bytes to send, the chunk of [i] is all
    that a notification writes. *)
Lemma wakeup_chunks_single w sl i n : ∀ i0,
  (∀ k, i0 ≤ k < i0 + Z.of_nat n → k ≠ i →
     ∃ ndk, dev_at sl k = Some ndk ∧ (running ndk = false ∨ xleft (priv ndk) ≤ 0)) →
  wakeup_chunks w sl n i0
  = if (i0 <=? i) && (i <? i0 + Z.of_nat n)
    then from_option (wakeup_chunk (w i)) [] (dev_at sl i) else [].
Proof.
  induction n as [| n IH]; intros i0 H.
  - cbn [wakeup_chunks]. change (Z.of_nat 0) with 0.
    replace ((i0 <=? i) && (i <? i0 + 0)) with false by bool_lia. reflexivity.
  - cbn [wakeup_chunks].
    assert (HS : Z.of_nat (S n) = Z.of_nat n + 1) by lia.
    rewrite HS. setoid_rewrite HS in H. clear HS.
    rewrite IH by (intros k Hk; apply H; lia).
    destruct (Z.eq_dec i0 i) as [-> | Hne].
    + replace ((i + 1 <=? i) && (i <? i + 1 + Z.of_nat n)) with false by bool_lia.
      replace ((i <=? i) && (i <? i + (Z.of_nat n + 1))) with true by bool_lia.
      by rewrite app_nil_r.
    + destruct (H i0) as (ndk & -> & Hidle); [lia | exact Hne |].
      cbn [from_option]. unfold wakeup_chunk at 1.
      replace (running ndk && (0 <? xleft (priv ndk))) with false
        by (destruct Hidle as [-> | Hx]; [reflexivity |];
            replace (0 <? xleft (priv ndk)) with false by lia;
            by rewrite andb_false_r).
      cbn [app].
      replace ((i0 + 1 <=? i) && (i <? i0 + 1 + Z.of_nat n))
        with ((i0 <=? i) && (i <? i0 + (Z.of_nat n + 1))) by bool_lia.
      reflexivity.
Qed.

(** One notification keeps the channel sending, with the pending count
    reduced by what the transport took. *)
Lemma sending_step muxnetdevs i s w0 left w sl :
  0 ≤ i < muxnetdevs →
  0 ≤ left ≤ Z.of_nat (length s) →
  0 ≤ w i ≤ left →
  sending muxnetdevs i s w0 left sl →
  ∃ sl',
    slcan_write_wakeup muxnetdevs w sl = Some sl' ∧
    sending muxnetdevs i s w0 (left - w i) sl'.
Proof.
  intros Hi Hleft Hw (Hm & (t & Ht & Hwire) & Hoth & nd & Hnd & Hrun & Hxb & Hxh & Hxl).
  assert (Hdevs : ∀ k, 0 ≤ k < 0 + Z.of_nat (Z.to_nat muxnetdevs) → dev_at sl k ≠ None).
  { intros k Hk. destruct (Z.eq_dec k i) as [-> | Hne]; [congruence |].
    destruct (Hoth k) as (ndk & -> & _); [lia | exact Hne | discriminate]. }
  destruct (write_wakeup_loop_devices w (Z.to_nat muxnetdevs) 0 sl)
    as (sl' & Hloop & _ & Hdev'); [lia | congruence | exact Hdevs |].
  destruct (write_wakeup_loop_wire w (Z.to_nat muxnetdevs) 0 sl t)
    as (sl'' & t' & Hloop' & Ht' & Hm' & Hwire'); [lia | exact Ht | exact Hdevs |].
  rewrite Hloop in Hloop'. injection Hloop' as <-.
  assert (Hin : ∀ k, 0 ≤ k < muxnetdevs →
            (0 <=? k) && (k <? 0 + Z.of_nat (Z.to_nat muxnetdevs)) = true)
    by (intros k Hk; rewrite Z2Nat.id by lia; bool_lia).
  exists sl'. split.
  { unfold slcan_write_wakeup. rewrite Hm, Z.eqb_refl. exact Hloop. }
  split; [congruence |]. split; [| split].
  - exists t'. split; [exact Ht' |].
    rewrite Hwire', Hwire, <- app_assoc. f_equal.
    rewrite (wakeup_chunks_single w sl i).
    2: { intros k Hk Hne. apply Hoth; [lia | exact Hne]. }
    rewrite Hin by lia. rewrite Hnd. cbn [from_option].
    unfold wakeup_chunk. rewrite Hrun, Hxb, Hxh, Hxl. cbn [andb].
    destruct (Z.ltb_spec 0 left) as [Hpos | Hzero].
    + rewrite take_take, take_take_drop. f_equal. lia.
    + rewrite app_nil_r. f_equal. lia.
  - intros k Hk Hne. destruct (Hoth k Hk Hne) as (ndk & Hndk & Hidle).
    exists (wakeup_device (w k) ndk). split.
    + rewrite Hdev' by lia. rewrite Hin by lia. by rewrite Hndk.
    + unfold wakeup_device.
      destruct (running ndk) eqn:Er; cbn [negb]; [| by left].
      destruct Hidle as [? | Hx]; [discriminate |].
      replace (xleft (priv ndk) <=? 0) with true by lia. by right.
  - exists (wakeup_device (w i) nd). split.
    + rewrite Hdev' by lia. rewrite Hin by lia. by rewrite Hnd.
    + unfold wakeup_device. rewrite Hrun. cbn [negb]. rewrite Hxl.
      destruct (Z.leb_spec left 0) as [Hzero | Hpos].
      * cbn [running priv]. repeat split; try assumption; lia.
      * cbn [running priv set_priv xbuff xhead xleft].
        repeat split; try assumption; lia.
Qed.

Lemma sending_steps muxnetdevs i s w0 : ∀ ws left sl,
  0 ≤ i < muxnetdevs →
  0 ≤ left ≤ Z.of_nat (length s) →
  accepts_within left ws i →
  sending muxnetdevs i s w0 left sl →
  ∃ sl',
    write_wakeups muxnetdevs ws sl = Some sl' ∧
    0 ≤ accepted ws i ≤ left ∧
    sending muxnetdevs i s w0 (left - accepted ws i) sl'.
Proof.
  induction ws as [| w ws IH]; intros left sl Hi Hleft Hacc Hs.
  - exists sl. cbn [write_wakeups accepted foldr]. rewrite Z.sub_0_r.
    split; [reflexivity |]. split; [lia | exact Hs].
  - destruct Hacc as [Hw Hacc].
    destruct (sending_step muxnetdevs i s w0 left w sl Hi Hleft Hw Hs) as (sl1 & Hrun & Hs1).
    destruct (IH (left - w i) sl1) as (sl' & Hrun' & Hrange & Hs'); try assumption; [lia |].
    exists sl'. cbn [write_wakeups]. rewrite Hrun. cbn [mbind option_bind].
    split; [exact Hrun' |].
    change (accepted (w :: ws) i) with (w i + accepted ws i).
    split; [lia |].
    replace (left - (w i + accepted ws i)) with (left - w i - accepted ws i) by lia.
    exact Hs'.
Qed.

(** Flow control from the frame to the wire.  An endpoint sends a valid
    frame while no other endpoint of the channel has bytes pending; the
    transport takes [a0] bytes of the string at once and further bytes at
    each of the writable notifications [ws], never more than are pending
    and never a negative number.  Then the string fits the transmit buffer,
    the wire has received its bytes in order, without loss or repetition,
    as many as were accepted, and the pending count is what remains; once
    everything has been accepted the wire holds the whole string. *)
Theorem partial_write_resumed muxnetdevs a0 ws sl i cf nd t :
  muxnetdevs ≤ MUX_NETDEV_MAX →
  valid_frame cf →
  magic sl = SLCAN_MAGIC →
  tty sl = Some t →
  0 ≤ i < muxnetdevs →
  dev_at sl i = Some nd →
  addr (priv nd) = i →
  running nd = true →
  (∀ k, 0 ≤ k < muxnetdevs → k ≠ i →
     ∃ ndk, dev_at sl k = Some ndk ∧ (running ndk = false ∨ xleft (priv ndk) ≤ 0)) →
  0 ≤ a0 ≤ Z.of_nat (length (slc_encaps_string muxnetdevs cf i)) →
  accepts_within (Z.of_nat (length (slc_encaps_string muxnetdevs cf i)) - a0) ws i →
  Z.of_nat (length (slc_encaps_string muxnetdevs cf i)) + 1 ≤ SLC_MTU ∧
  ∃ sl1 sl2,
    slc_xmit muxnetdevs a0 sl i 16 cf = Some sl1 ∧
    write_wakeups muxnetdevs ws sl1 = Some sl2 ∧
    wire_of sl2
    = wire t ++ take (Z.to_nat (a0 + accepted ws i)) (slc_encaps_string muxnetdevs cf i) ∧
    pending sl2 i
    = Some (Z.of_nat (length (slc_encaps_string muxnetdevs cf i)) - (a0 + accepted ws i)) ∧
    (a0 + accepted ws i = Z.of_nat (length (slc_encaps_string muxnetdevs cf i)) →
     wire_of sl2 = wire t ++ slc_encaps_string muxnetdevs cf i).
Proof.
  intros Hmax Hvalid Hm Ht Hi Hnd Haddr Hrun Hoth Ha0 Hacc.
  split.
  { pose proof Hvalid as (_ & _ & Hdlc & _ & _).
    pose proof (enc_body_length muxnetdevs cf i Hvalid) as Hlen.
    rewrite slc_encaps_string_body by exact Hdlc.
    rewrite length_app. cbn [length]. unfold SLC_MTU. lia. }
  set (s := slc_encaps_string muxnetdevs cf i) in *.
  pose proof (slc_xmit_sends muxnetdevs a0 sl i cf nd t ltac:(lia) Hnd Haddr Hrun Ht) as Hx.
  cbv zeta in Hx. fold s in Hx.
  match type of Hx with _ = Some ?x => set (sl1 := x) in * end.
  assert (Hin : (Z.to_nat i < length (dev sl))%nat).
  { unfold dev_at in Hnd. destruct (dev sl !! Z.to_nat i) eqn:E; [| discriminate].
    eapply lookup_lt_Some. exact E. }
  assert (Hs1 : sending muxnetdevs i s (wire t) (Z.of_nat (length s) - a0) sl1).
  { split; [exact Hm |]. split; [| split].
    - eexists. split; [reflexivity |]. cbn [wire]. do 2 f_equal. lia.
    - intros k Hk Hne. destruct (Hoth k Hk Hne) as (ndk & Hndk & Hidle).
      exists ndk. split; [| exact Hidle].
      subst sl1. change (dev_at (set_tty ?x ?y) k) with (dev_at x k).
      rewrite dev_at_insert. destruct (decide _) as [[Hik _] |]; [lia | exact Hndk].
    - eexists. split.
      + subst sl1. change (dev_at (set_tty ?x ?y) i) with (dev_at x i).
        rewrite dev_at_insert, decide_True by done. reflexivity.
      + cbn [running priv xbuff xhead xleft]. repeat split; lia. }
  destruct (sending_steps muxnetdevs i s (wire t) ws (Z.of_nat (length s) - a0) sl1)
    as (sl2 & Hrun2 & Hrange & (_ & (t2 & Ht2 & Hw2) & _ & nd2 & Hnd2 & _ & _ & _ & Hl2));
    [exact Hi | lia | exact Hacc | exact Hs1 |].
  exists sl1, sl2. split; [exact Hx |]. split; [exact Hrun2 |].
  assert (Hwire : wire_of sl2 = wire t ++ take (Z.to_nat (a0 + accepted ws i)) s).
  { unfold wire_of. rewrite Ht2, Hw2. do 2 f_equal. lia. }
  split; [exact Hwire |]. split.
  - unfold pending. rewrite Hnd2. cbn [fmap option_fmap option_map]. f_equal. lia.
  - intros Hall. rewrite Hwire, Hall, Nat2Z.id, take_ge by lia. reflexivity.
Qed.

(** [example_frame] sent to endpoint 1 of a channel with two endpoints: 16
    bytes, of which the transport takes 5 at once, 4 at the first
    notification and the other 7 at the second. *)
Lemma partial_write_resumed_witness :
  ∃ sl1 sl2,
    slc_xmit 2 5 channel_up2 1 16 example_frame = Some sl1 ∧
    write_wakeups 2 [fun _ => 4; fun _ => 7] sl1 = Some sl2 ∧
    wire_of sl2 = bytes_of_string "1T12ABCDEF2AA55" ++ [CR] ∧
    pending sl2 1 = Some 0.
Proof.
  destruct (partial_write_resumed 2 5 [fun _ => 4; fun _ => 7] channel_up2 1
              example_frame (fresh_device 1) (TtyStruct 0 []))
    as (_ & sl1 & sl2 & H1 & H2 & _ & Hp & Hall).
  - unfold MUX_NETDEV_MAX. lia.
  - exact example_frame_valid.
  - reflexivity.
  - reflexivity.
  - lia.
  - reflexivity.
  - reflexivity.
  - reflexivity.
  - intros k Hk Hne. assert (k = 0) by lia. subst k.
    exists (fresh_device 0). split; [reflexivity |]. right. cbn. lia.
  - vm_compute. split; discriminate.
  - split; [vm_compute; split; discriminate |].
    split; [vm_compute; split; discriminate | exact I].
  - exists sl1, sl2. split; [exact H1 |]. split; [exact H2 |].
    split; [apply Hall; reflexivity | exact Hp].
Defined.

(** ** Closing an endpoint *)



(** ** The module parameters and the channel table *)

Lemma slc_alloc_dev_at muxnetdevs j :
  0 ≤ j →
  dev_at (slc_alloc muxnetdevs) j
  = if (j <? MUX_NETDEV_MAX) && (j <? muxnetdevs) then Some (alloc_netdev j) else None.
Proof.
  intros Hj. unfold dev_at, slc_alloc. cbn [dev]. rewrite list_lookup_fmap.
  destruct (Z.ltb_spec j MUX_NETDEV_MAX) as [Hlt | Hge]; cbn [andb].
  - rewrite lookup_seq_lt by lia. cbn [fmap option_fmap option_map mjoin option_join].
    cbn [Nat.add]. rewrite Z2Nat.id by lia.
    destruct (j <? muxnetdevs); reflexivity.
  - rewrite lookup_seq_ge by lia. reflexivity.
Qed.


Lemma channel_at_insert (tbl : list (option slcan_channel)) k x c :
  channel_at (<[k := x]> tbl) c =
  if decide (k = Z.to_nat c ∧ (k < length tbl)%nat) then x
  else channel_at tbl c.
Proof.
  unfold channel_at. rewrite list_lookup_insert.
  destruct (decide _); reflexivity.
Qed.

Lemma channel_at_length (tbl : list (option slcan_channel)) c sl :
  channel_at tbl c = Some sl → (Z.to_nat c < length tbl)%nat.
Proof.
  unfold channel_at. intros H.
  destruct (tbl !! Z.to_nat c) eqn:E; [| discriminate].
  eapply lookup_lt_Some. exact E.
Qed.

Lemma slc_free_slot_spec tbl n : ∀ i,
  0 ≤ i →
  i ≤ slc_free_slot tbl n i ≤ i + Z.of_nat n ∧
  (∀ k, i ≤ k < slc_free_slot tbl n i → channel_at tbl k ≠ None) ∧
  (slc_free_slot tbl n i < i + Z.of_nat n → channel_at tbl (slc_free_slot tbl n i) = None).
Proof.
  induction n as [| n IH]; intros i Hi; cbn [slc_free_slot].
  - split; [lia |]. split; [intros k Hk; lia | lia].
  - destruct (channel_at tbl i) as [sl |] eqn:E.
    + destruct (IH (i + 1)) as (Hr & Hocc & Hfree); [lia |].
      split; [lia |]. split.
      * intros k Hk. destruct (Z.eq_dec k i) as [-> | Hne]; [congruence |].
        apply Hocc. lia.
      * intros Hlt. apply Hfree. lia.
    + split; [lia |]. split; [intros k Hk; lia | intros _; exact E].
Qed.

Lemma forallb_seq_Z (f : Z → bool) n :
  forallb f (Z.of_nat <$> seq 0 n) = true ↔ ∀ j, 0 ≤ j < Z.of_nat n → f j = true.
Proof.
  rewrite forallb_forall. split.
  - intros H j Hj. apply H. apply list_elem_of_In, list_elem_of_fmap.
    exists (Z.to_nat j). split; [lia |]. apply elem_of_seq. lia.
  - intros H x Hx. apply list_elem_of_In, list_elem_of_fmap in Hx as (k & -> & Hk).
    apply elem_of_seq in Hk. apply H. lia.
Qed.

(** [slc_alloc] takes the first free entry of the table, and only that one
    changes; it fails, leaving the table as it is, exactly when every entry
    is taken or an allocation fails. *)
Theorem slc_alloc_takes_first_free maxchannel muxnetdevs kzalloc_ok netdev_ok tbl :
  length tbl = Z.to_nat maxchannel →
  0 ≤ muxnetdevs →
  match slc_alloc_table maxchannel muxnetdevs kzalloc_ok netdev_ok tbl with
  | (Some i, tbl') =>
      0 ≤ i < maxchannel ∧
      channel_at tbl i = None ∧
      (∀ k, 0 ≤ k < i → channel_at tbl k ≠ None) ∧
      channel_at tbl' i = Some (slc_alloc muxnetdevs) ∧
      (∀ k, 0 ≤ k → k ≠ i → channel_at tbl' k = channel_at tbl k) ∧
      kzalloc_ok = true ∧
      (∀ j, 0 ≤ j < muxnetdevs → netdev_ok j = true)
  | (None, tbl') =>
      tbl' = tbl ∧
      ((∀ k, 0 ≤ k < maxchannel → channel_at tbl k ≠ None) ∨
       kzalloc_ok = false ∨
       ¬ (∀ j, 0 ≤ j < muxnetdevs → netdev_ok j = true))
  end.
Proof.
  intros Hlen Hmux. unfold slc_alloc_table.
  destruct (slc_free_slot_spec tbl (Z.to_nat maxchannel) 0 ltac:(lia)) as (Hr & Hocc & Hfree).
  set (i := slc_free_slot tbl (Z.to_nat maxchannel) 0) in *.
  destruct (Z.leb_spec maxchannel i) as [Hfull | Hsome].
  { split; [reflexivity |]. left. intros k Hk. apply Hocc. lia. }
  destruct kzalloc_ok; cbn [negb]; [| split; [reflexivity | auto]].
  destruct (forallb netdev_ok _) eqn:Hall; cbn [negb].
  - pose proof (proj1 (forallb_seq_Z _ _) Hall) as Hok.
    split; [lia |]. split; [apply Hfree; lia |].
    split; [intros k Hk; apply Hocc; lia |].
    split; [| split; [| split; [reflexivity |]]].
    + rewrite channel_at_insert, decide_True; [reflexivity |]. split; [reflexivity | lia].
    + intros k Hk Hne. rewrite channel_at_insert.
      destruct (decide _) as [[Hik _] |]; [lia | reflexivity].
    + intros j Hj. apply Hok. lia.
  - split; [reflexivity |]. right. right. intros Hok.
    assert (Htrue : forallb netdev_ok (Z.of_nat <$> seq 0 (Z.to_nat muxnetdevs)) = true).
    { apply forallb_seq_Z. intros j Hj. apply Hok. lia. }
    congruence.
Qed.

(** A table of four entries whose first one is taken: the channel goes to
    entry 1. *)
Lemma slc_alloc_takes_first_free_witness :
  let tbl := [Some (slc_alloc 2); None; None; None] in
  let tbl' := <[1%nat := Some (slc_alloc 2)]> tbl in
  slc_alloc_table 4 2 true (fun _ => true) tbl = (Some 1, tbl') ∧
  0 ≤ 1 < 4 ∧
  channel_at tbl 1 = None ∧
  (∀ k, 0 ≤ k < 1 → channel_at tbl k ≠ None) ∧
  channel_at tbl' 1 = Some (slc_alloc 2) ∧
  (∀ k, 0 ≤ k → k ≠ 1 → channel_at tbl' k = channel_at tbl k) ∧
  true = true ∧
  (∀ j, 0 ≤ j < 2 → true = true).
Proof.
  intros tbl tbl'. split; [reflexivity |].
  exact (slc_alloc_takes_first_free 4 2 true (fun _ => true) tbl eq_refl ltac:(lia)).
Defined.

(** ** Releasing a channel *)

Lemma devs_in_use_nonneg sl n : ∀ i, 0 ≤ devs_in_use sl n i.
Proof.
  induction n as [| n IH]; intros i; cbn [devs_in_use]; [lia |].
  specialize (IH (i + 1)). destruct (dev_at sl i); lia.
Qed.

Lemma devs_in_use_zero sl n : ∀ i,
  devs_in_use sl n i = 0 ↔ ∀ k, i ≤ k < i + Z.of_nat n → dev_at sl k = None.
Proof.
  induction n as [| n IH]; intros i; cbn [devs_in_use].
  - split; [intros _ k Hk; lia | reflexivity].
  - pose proof (devs_in_use_nonneg sl n (i + 1)) as Hnn.
    specialize (IH (i + 1)). split.
    + intros H k Hk. destruct (dev_at sl i) eqn:E; [lia |].
      destruct (Z.eq_dec k i) as [-> | Hne]; [exact E |].
      apply IH; lia.
    + intros H. rewrite (H i) by lia.
      apply IH. intros k Hk. apply H. lia.
Qed.

(** [slc_free_netdev] gives the entry of the channel back exactly when the
    device it frees was the last one among the [muxnetdevs] slots: as long
    as another device remains the channel stays in its entry, with the slot
    of the freed device cleared; no other entry of the table changes. *)
Theorem slc_free_netdev_releases_with_last maxchannel muxnetdevs tbl c j sl nd :
  0 ≤ c < maxchannel →
  channel_at tbl c = Some sl →
  dev_at sl j = Some nd →
  let sl1 := set_dev sl (<[Z.to_nat (addr (priv nd)) := None]> (dev sl)) in
  ∃ tbl',
    slc_free_netdev maxchannel muxnetdevs tbl c j = Some tbl' ∧
    length tbl' = length tbl ∧
    (∀ k, 0 ≤ k → k ≠ c → channel_at tbl' k = channel_at tbl k) ∧
    ((∀ k, 0 ≤ k < muxnetdevs → dev_at sl1 k = None) → channel_at tbl' c = None) ∧
    (¬ (∀ k, 0 ≤ k < muxnetdevs → dev_at sl1 k = None) → channel_at tbl' c = Some sl1).
Proof.
  intros Hc Hsl Hnd sl1.
  pose proof (channel_at_length _ _ _ Hsl) as Hlen.
  unfold slc_free_netdev. rewrite Hsl. cbn [mbind option_bind]. rewrite Hnd.
  cbn [mbind option_bind]. fold sl1.
  replace (c <? maxchannel) with true by lia.
  assert (Hother : ∀ x k, 0 ≤ k → k ≠ c →
            channel_at (<[Z.to_nat c := x]> tbl) k = channel_at tbl k).
  { intros x k Hk Hne. rewrite channel_at_insert.
    destruct (decide _) as [[Hck _] |]; [lia | reflexivity]. }
  assert (Hzero : devs_in_use sl1 (Z.to_nat muxnetdevs) 0 = 0
                  ↔ ∀ k, 0 ≤ k < muxnetdevs → dev_at sl1 k = None).
  { rewrite devs_in_use_zero. split; intros H k Hk; apply H; lia. }
  destruct (Z.eqb_spec (devs_in_use sl1 (Z.to_nat muxnetdevs) 0) 0) as [E | E].
  - eexists. split; [reflexivity |]. split; [apply length_insert |].
    split; [apply Hother |]. split.
    + intros _. rewrite channel_at_insert, decide_True by done. reflexivity.
    + intros Hn. exfalso. apply Hn, Hzero, E.
  - eexists. split; [reflexivity |]. split; [apply length_insert |].
    split; [apply Hother |]. split.
    + intros Hall. exfalso. apply E, Hzero, Hall.
    + intros _. rewrite channel_at_insert, decide_True by done. reflexivity.
Qed.

(** The channel of entry 0 has two devices: freeing the first one keeps
    the channel in its entry. *)
Lemma slc_free_netdev_releases_with_last_witness :
  let tbl := [Some (slc_alloc 2); None; None; None] in
  let sl1 := set_dev (slc_alloc 2)
               (<[Z.to_nat (addr (priv (alloc_netdev 0))) := None]> (dev (slc_alloc 2))) in
  ∃ tbl',
    slc_free_netdev 4 2 tbl 0 0 = Some tbl' ∧
    length tbl' = length tbl ∧
    (∀ k, 0 ≤ k → k ≠ 0 → channel_at tbl' k = channel_at tbl k) ∧
    ((∀ k, 0 ≤ k < 2 → dev_at sl1 k = None) → channel_at tbl' 0 = None) ∧
    (¬ (∀ k, 0 ≤ k < 2 → dev_at sl1 k = None) → channel_at tbl' 0 = Some sl1).
Proof.
  intros tbl sl1.
  apply (slc_free_netdev_releases_with_last 4 2 tbl 0 0 (slc_alloc 2) (alloc_netdev 0));
    [lia | reflexivity | reflexivity].
Defined.

Lemma dev_at_length sl i nd :
  dev_at sl i = Some nd → (Z.to_nat i < length (dev sl))%nat.
Proof.
  unfold dev_at. intros H.
  destruct (dev sl !! Z.to_nat i) eqn:E; [| discriminate].
  eapply lookup_lt_Some. exact E.
Qed.

(** [dev_close] seen from the devices of the channel. *)
Lemma dev_close_spec sl i nd :
  dev_at sl i = Some nd →
  ∃ sl' nd',
    dev_close sl i = Some sl' ∧
    dev_at sl' i = Some nd' ∧
    addr (priv nd') = addr (priv nd) ∧
    running nd' = false ∧
    (running nd = true → queue_stopped nd' = true ∧ xleft (priv nd') = 0) ∧
    (running nd = false → sl' = sl) ∧
    (∀ k, Z.to_nat k ≠ Z.to_nat i → dev_at sl' k = dev_at sl k) ∧
    magic sl' = magic sl ∧
    (tty sl = None → tty sl' = None) ∧
    (tty sl ≠ None → tty sl' ≠ None).
Proof.
  intros Hnd. pose proof (dev_at_length _ _ _ Hnd) as Hlen.
  unfold dev_close. rewrite Hnd. cbn [mbind option_bind].
  destruct (running nd) eqn:Erun; cbn [negb].
  - unfold slc_close. rewrite Hnd. cbn [mbind option_bind].
    change (dev_at (set_rcount ?x 0) i) with (dev_at x i).
    change (dev_at (set_tty ?x ?y) i) with (dev_at x i).
    rewrite dev_at_insert, decide_True by done. cbn [mbind option_bind].
    eexists _, _. split; [reflexivity |].
    split.
    { rewrite dev_at_insert, decide_True; [reflexivity |].
      split; [reflexivity |]. cbn [dev set_rcount set_tty set_dev].
      by rewrite length_insert. }
    cbn [priv addr running queue_stopped xleft].
    split; [reflexivity |]. split; [reflexivity |]. split; [done |].
    split; [discriminate |]. split.
    { intros k Hk. rewrite dev_at_insert.
      destruct (decide _) as [[Hik _] |]; [lia |].
      cbn [dev set_rcount set_tty set_dev].
      change (mjoin (<[Z.to_nat i := ?x]> (dev sl) !! Z.to_nat k))
        with (dev_at (set_dev sl (<[Z.to_nat i := x]> (dev sl))) k).
      rewrite dev_at_insert. destruct (decide _) as [[Hik _] |]; [lia | reflexivity]. }
    split; [reflexivity |].
    cbn [tty set_dev set_rcount set_tty].
    split; [intros ->; reflexivity |].
    destruct (tty sl); [discriminate | done].
  - exists sl, nd. repeat split; done.
Qed.

Lemma slcan_close_loop_S maxchannel muxnetdevs n i tbl c :
  slcan_close_loop maxchannel muxnetdevs (S n) i tbl c
  = tbl' ← unregister_netdev maxchannel muxnetdevs tbl c i;
    slcan_close_loop maxchannel muxnetdevs n (i + 1) tbl' c.
Proof. reflexivity. Qed.

(** The loop of [slcan_close] from device [i] on, when the devices before
    [i] are gone and the others are in the slots of their addresses: the
    entry of the channel is free at the end. *)
Lemma slcan_close_loop_releases maxchannel muxnetdevs c : ∀ n i tbl sl,
  0 ≤ c < maxchannel →
  0 ≤ i →
  i + Z.of_nat (S n) = muxnetdevs →
  channel_at tbl c = Some sl →
  (∀ k, 0 ≤ k < i → dev_at sl k = None) →
  (∀ k, i ≤ k < muxnetdevs → ∃ nd, dev_at sl k = Some nd ∧ addr (priv nd) = k) →
  slcan_close_loop maxchannel muxnetdevs (S n) i tbl c
  = Some (<[Z.to_nat c := None]> tbl).
Proof.
  induction n as [| n IH]; intros i tbl sl Hc Hi Hn Hsl Hgone Hthere.
  all: pose proof (channel_at_length _ _ _ Hsl) as Hlen.
  all: destruct (Hthere i ltac:(lia)) as (nd & Hnd & Haddr).
  all: destruct (dev_close_spec sl i nd Hnd)
         as (sl' & nd' & Hclose & Hnd' & Haddr' & _ & _ & _ & Hoth & _).
  all: rewrite slcan_close_loop_S; unfold unregister_netdev.
  all: rewrite Hsl; cbn [mbind option_bind]; rewrite Hclose; cbn [mbind option_bind].
  all: unfold slc_free_netdev.
  all: rewrite channel_at_insert, decide_True by done; cbn [mbind option_bind].
  all: rewrite Hnd'; cbn [mbind option_bind]; rewrite Haddr', Haddr.
  all: set (sl1 := set_dev sl' (<[Z.to_nat i := None]> (dev sl'))).
  all: pose proof (dev_at_length _ _ _ Hnd') as Hlen'.
  all: assert (Hsl1 : ∀ k, 0 ≤ k →
         dev_at sl1 k = if decide (k = i) then None else dev_at sl k).
  1, 3: intros k Hk; subst sl1; rewrite dev_at_insert;
        destruct (decide (k = i)) as [-> | Hne];
        [ by rewrite decide_True
        | rewrite decide_False by lia; apply Hoth; lia ].
  - (* the last device *)
    replace (devs_in_use sl1 (Z.to_nat muxnetdevs) 0 =? 0) with true.
    2: { symmetry. apply Z.eqb_eq, devs_in_use_zero. intros k Hk.
         rewrite Hsl1 by lia. destruct (decide (k = i)); [reflexivity |].
         apply Hgone. lia. }
    replace (c <? maxchannel) with true by lia.
    cbn [mbind option_bind]. by rewrite list_insert_insert_eq.
  - (* another device remains *)
    replace (devs_in_use sl1 (Z.to_nat muxnetdevs) 0 =? 0) with false.
    2: { symmetry. apply Z.eqb_neq. intros Hz.
         pose proof (proj1 (devs_in_use_zero sl1 (Z.to_nat muxnetdevs) 0) Hz (i + 1)
                       ltac:(lia)) as Hnone.
         rewrite Hsl1, decide_False in Hnone by lia.
         destruct (Hthere (i + 1) ltac:(lia)) as (nd1 & Hnd1 & _). congruence. }
    cbn [mbind option_bind]. rewrite list_insert_insert_eq.
    rewrite (IH (i + 1) _ sl1); try assumption; try lia.
    + by rewrite list_insert_insert_eq.
    + rewrite channel_at_insert, decide_True by done. reflexivity.
    + intros k Hk. rewrite Hsl1 by lia.
      destruct (decide (k = i)); [reflexivity |]. apply Hgone. lia.
    + intros k Hk. rewrite Hsl1, decide_False by lia. apply Hthere. lia.
Qed.

Lemma slcan_close_entry maxchannel muxnetdevs tbl c sl t :
  0 ≤ c < maxchannel →
  1 ≤ muxnetdevs →
  channel_at tbl c = Some sl →
  magic sl = SLCAN_MAGIC →
  tty sl = Some t →
  (∀ k, 0 ≤ k < muxnetdevs → ∃ nd, dev_at sl k = Some nd ∧ addr (priv nd) = k) →
  slcan_close true maxchannel muxnetdevs (LdiscState tbl (Some c))
  = Some (LdiscState (<[Z.to_nat c := None]> tbl) None).
Proof.
  intros Hc Hmux Hsl Hmagic Htty Hdevs.
  pose proof (channel_at_length _ _ _ Hsl) as Hlen.
  unfold slcan_close. cbn [disc_data slcan_channels]. rewrite Hsl.
  cbn [mbind option_bind]. rewrite Hmagic, Z.eqb_refl, Htty. cbn [negb].
  destruct (Z.to_nat muxnetdevs) as [| n] eqn:En; [lia |].
  rewrite (slcan_close_loop_releases maxchannel muxnetdevs c n 0 _ (set_tty sl None));
    try assumption; try lia.
  - cbn [mbind option_bind]. by rewrite list_insert_insert_eq.
  - rewrite channel_at_insert, decide_True by done. reflexivity.
Qed.

(** Closing the line discipline of a transport gives the entry of its
    channel back.  When the channel the transport points to is linked to
    it and has a device in each of its [muxnetdevs] slots, [slcan_close]
    (and [slcan_hangup], which is the same) unlinks the two and unregisters
    the devices one after the other; the channel stays in the table until
    the last one is gone, and then its entry is free again.  No other entry
    changes. *)
Theorem slcan_close_releases_entry maxchannel muxnetdevs tbl c sl t :
  0 ≤ c < maxchannel →
  1 ≤ muxnetdevs →
  channel_at tbl c = Some sl →
  magic sl = SLCAN_MAGIC →
  tty sl = Some t →
  (∀ k, 0 ≤ k < muxnetdevs → ∃ nd, dev_at sl k = Some nd ∧ addr (priv nd) = k) →
  slcan_close true maxchannel muxnetdevs (LdiscState tbl (Some c))
  = Some (LdiscState (<[Z.to_nat c := None]> tbl) None) ∧
  slcan_hangup true maxchannel muxnetdevs (LdiscState tbl (Some c))
  = Some (LdiscState (<[Z.to_nat c := None]> tbl) None).
Proof.
  intros Hc Hmux Hsl Hmagic Htty Hdevs.
  split; by eapply slcan_close_entry.
Qed.

(** A channel linked to its transport, in entry 1 of a table of four. *)
Lemma slcan_close_releases_entry_witness :
  let tbl := [None; Some channel_up2; None; None] in
  slcan_close true 4 2 (LdiscState tbl (Some 1))
  = Some (LdiscState (<[Z.to_nat 1 := None]> tbl) None) ∧
  slcan_hangup true 4 2 (LdiscState tbl (Some 1))
  = Some (LdiscState (<[Z.to_nat 1 := None]> tbl) None).
Proof.
  intros tbl.
  apply (slcan_close_releases_entry 4 2 tbl 1 channel_up2 (TtyStruct 0 []));
    [lia | lia | reflexivity | reflexivity | reflexivity |].
  intros k Hk. assert (Hk' : k = 0 ∨ k = 1) by lia.
  destruct Hk' as [-> | ->]; eexists; split; reflexivity.
Defined.

(** ** The sweep over the channels that lost their transport *)

(** The inner loop of [slc_sync] on a channel without transport, in an
    entry whose index is a slot of [dev]: only the device in slot [i] can
    change, and it is taken down if it is up. *)
Lemma slc_sync_devs_spec i : ∀ n sl,
  i < MUX_NETDEV_MAX →
  tty sl = None →
  ∃ sl',
    slc_sync_devs n i sl = Some sl' ∧
    tty sl' = None ∧
    magic sl' = magic sl ∧
    (∀ k, Z.to_nat k ≠ Z.to_nat i → dev_at sl' k = dev_at sl k) ∧
    (dev_at sl i = None → sl' = sl) ∧
    (∀ nd, dev_at sl i = Some nd → running nd = false → sl' = sl) ∧
    (∀ nd, dev_at sl i = Some nd → running nd = true → (0 < n)%nat →
       ∃ nd', dev_at sl' i = Some nd' ∧ running nd' = false ∧
              queue_stopped nd' = true ∧ xleft (priv nd') = 0).
Proof.
  intros n sl Hi. revert sl.
  induction n as [| n IH]; intros sl Htty.
  - exists sl. cbn [slc_sync_devs]. repeat split; try done. intros; lia.
  - cbn [slc_sync_devs]. replace (MUX_NETDEV_MAX <=? i) with false by lia.
    destruct (dev_at sl i) as [nd |] eqn:End.
    + destruct (running nd) eqn:Erun.
      * destruct (dev_close_spec sl i nd End)
          as (sl1 & nd1 & Hclose & Hnd1 & _ & Hrun1 & Hdown & _ & Hoth & Hmagic & Htty1 & _).
        rewrite Hclose. cbn [mbind option_bind].
        destruct (IH sl1 (Htty1 Htty))
          as (sl' & Hloop & Htty' & Hmagic' & Hoth' & _ & Hsame & _).
        specialize (Hsame nd1 Hnd1 Hrun1). subst sl'.
        exists sl1. split; [exact Hloop |]. split; [exact Htty' |].
        split; [exact Hmagic |]. split; [exact Hoth |].
        split; [discriminate |]. split; [intros ? [= <-] ?; congruence |].
        intros nd0 [= <-] _ _. exists nd1. destruct (Hdown Erun). done.
      * destruct (IH sl Htty) as (sl' & Hloop & Htty' & Hmagic' & Hoth' & _ & Hsame & _).
        specialize (Hsame nd End Erun). subst sl'.
        exists sl. repeat split; try done. intros nd0 [= <-] ?. congruence.
    + destruct (IH sl Htty) as (sl' & Hloop & Htty' & Hmagic' & Hoth' & Hnone & _).
      specialize (Hnone End). subst sl'.
      exists sl. repeat split; try done.
Qed.

(** The outer loop of [slc_sync] from entry [i] on, when every channel
    without transport that it can meet is in an entry whose index is a slot
    of [dev]. *)
Lemma slc_sync_loop_spec muxnetdevs : ∀ n i tbl,
  0 ≤ i →
  (∀ c sl, MUX_NETDEV_MAX ≤ c < i + Z.of_nat n →
     channel_at tbl c = Some sl → tty sl ≠ None) →
  ∃ tbl',
    slc_sync_loop muxnetdevs n i tbl = Some tbl' ∧
    length tbl' = length tbl ∧
    (∀ c, 0 ≤ c < i → channel_at tbl' c = channel_at tbl c) ∧
    ∀ c, 0 ≤ c →
      match channel_at tbl c with
      | None => channel_at tbl' c = None
      | Some sl =>
          (channel_at tbl' c = Some sl ∨
           (tty sl = None ∧ c < MUX_NETDEV_MAX ∧
            channel_at tbl' c = slc_sync_devs (Z.to_nat muxnetdevs) c sl)) ∧
          (i ≤ c < i + Z.of_nat n →
           (∀ k, i ≤ k < c → channel_at tbl k ≠ None) →
           tty sl = None →
           channel_at tbl' c = slc_sync_devs (Z.to_nat muxnetdevs) c sl)
      end.
Proof.
  induction n as [| n IH]; intros i tbl Hi Hb.
  - exists tbl. cbn [slc_sync_loop]. split; [reflexivity |]. split; [reflexivity |].
    split; [reflexivity |]. intros c Hc.
    destruct (channel_at tbl c); [| reflexivity]. split; [by left | lia].
  - cbn [slc_sync_loop].
    destruct (channel_at tbl i) as [sl |] eqn:Esl.
    2: { exists tbl. split; [reflexivity |]. split; [reflexivity |].
         split; [reflexivity |]. intros c Hc.
         destruct (channel_at tbl c) eqn:Ec; [| reflexivity].
         split; [by left |]. intros Hr Hocc _.
         destruct (Z.eq_dec c i) as [-> | Hne]; [congruence |].
         exfalso. apply (Hocc i); [lia | exact Esl]. }
    destruct (tty sl) as [t |] eqn:Et.
    + destruct (IH (i + 1) tbl ltac:(lia)) as (tbl' & Hloop & Hlen & Hlow & Hall).
      { intros c slc Hc. apply Hb. lia. }
      exists tbl'. split; [exact Hloop |]. split; [exact Hlen |].
      split; [intros c Hc; apply Hlow; lia |].
      intros c Hc. specialize (Hall c Hc).
      destruct (channel_at tbl c) as [slc |] eqn:Ec; [| exact Hall].
      destruct Hall as [Hcase Hreach]. split; [exact Hcase |].
      intros Hr Hocc Hnone.
      destruct (Z.eq_dec c i) as [-> | Hne]; [congruence |].
      apply Hreach; [lia | | exact Hnone]. intros k Hk. apply Hocc. lia.
    + assert (Hslot : i < MUX_NETDEV_MAX).
      { destruct (Z.lt_ge_cases i MUX_NETDEV_MAX) as [Hlt | Hge]; [exact Hlt |].
        exfalso. apply (Hb i sl); [lia | exact Esl | exact Et]. }
      destruct (slc_sync_devs_spec i (Z.to_nat muxnetdevs) sl Hslot Et)
        as (sl1 & Hdevs & _).
      rewrite Hdevs. cbn [mbind option_bind].
      pose proof (channel_at_length _ _ _ Esl) as Hin.
      destruct (IH (i + 1) (<[Z.to_nat i := Some sl1]> tbl) ltac:(lia))
        as (tbl' & Hloop & Hlen & Hlow & Hall).
      { intros c slc Hc. rewrite channel_at_insert.
        destruct (decide _) as [[Hic _] |]; [lia |]. apply Hb. lia. }
      exists tbl'. split; [exact Hloop |].
      split; [by rewrite Hlen, length_insert |].
      split.
      { intros c Hc. rewrite Hlow by lia. rewrite channel_at_insert.
        destruct (decide _) as [[Hic _] |]; [lia | reflexivity]. }
      intros c Hc. destruct (Z.eq_dec c i) as [-> | Hne].
      * rewrite Esl.
        assert (Hi' : channel_at tbl' i = slc_sync_devs (Z.to_nat muxnetdevs) i sl).
        { rewrite Hlow by lia. rewrite channel_at_insert, decide_True by done.
          by rewrite Hdevs. }
        split; [right; split; [exact Et | split; [exact Hslot | exact Hi']]
               | intros; exact Hi'].
      * specialize (Hall c Hc). rewrite channel_at_insert in Hall.
        destruct (decide _) as [[Hic _] |]; [lia |].
        destruct (channel_at tbl c) as [slc |] eqn:Ec; [| exact Hall].
        destruct Hall as [Hcase Hreach]. split; [exact Hcase |].
        intros Hr Hocc Hnone.
        apply Hreach; [lia | | exact Hnone]. intros k Hk.
        rewrite channel_at_insert. destruct (decide _) as [[Hik _] |]; [lia |].
        apply Hocc. lia.
Qed.

(** The sweep changes no channel that has a transport and gives none a
    transport, and it takes and frees no entry. *)
Lemma slc_sync_keeps_tty maxchannel muxnetdevs tbl :
  (∀ c sl, MUX_NETDEV_MAX ≤ c < maxchannel →
     channel_at tbl c = Some sl → tty sl ≠ None) →
  ∃ tbl',
    slc_sync maxchannel muxnetdevs tbl = Some tbl' ∧
    length tbl' = length tbl ∧
    ∀ c, 0 ≤ c →
      match channel_at tbl c with
      | None => channel_at tbl' c = None
      | Some sl =>
          ∃ sl', channel_at tbl' c = Some sl' ∧ tty sl' = tty sl ∧
                 magic sl' = magic sl ∧ (tty sl ≠ None → sl' = sl)
      end.
Proof.
  intros Hb.
  destruct (slc_sync_loop_spec muxnetdevs (Z.to_nat maxchannel) 0 tbl ltac:(lia))
    as (tbl' & Hloop & Hlen & _ & Hall).
  { intros c sl Hc. apply Hb. unfold MUX_NETDEV_MAX in *. lia. }
  exists tbl'. split; [exact Hloop |]. split; [exact Hlen |].
  intros c Hc. specialize (Hall c Hc).
  destruct (channel_at tbl c) as [sl |]; [| exact Hall].
  destruct Hall as [[Hsame | (Htty & Hslot & Hsync)] _].
  - exists sl. done.
  - destruct (slc_sync_devs_spec c (Z.to_nat muxnetdevs) sl Hslot Htty)
      as (sl1 & Hdevs & Htty1 & Hmagic1 & _).
    exists sl1. split; [by rewrite Hsync |]. split; [congruence |].
    split; [exact Hmagic1 | done].
Qed.

(** [slc_sync] looks for channels that lost their transport, from the
    first entry up to the first free one, and takes interfaces down.  In
    the channel of entry [c] it is the device in slot [c] that is read in
    every round of the inner loop, so that this device is taken down if it
    is up and every other device of the channel stays as it is.  The read
    is inside the array [dev] for an entry below [MUX_NETDEV_MAX]: when no
    channel without transport sits in an entry from [MUX_NETDEV_MAX] on
    (as is the case when [maxchannel] is at most [MUX_NETDEV_MAX]),
    [slc_sync] returns, no entry of the table is taken or given back, and a
    channel that has a transport is not touched. *)
Theorem slc_sync_closes_own_index maxchannel muxnetdevs tbl :
  (∀ c sl, MUX_NETDEV_MAX ≤ c < maxchannel →
     channel_at tbl c = Some sl → tty sl ≠ None) →
  ∃ tbl',
    slc_sync maxchannel muxnetdevs tbl = Some tbl' ∧
    length tbl' = length tbl ∧
    ∀ c, 0 ≤ c →
      (channel_at tbl c = None → channel_at tbl' c = None) ∧
      ∀ sl, channel_at tbl c = Some sl →
        ∃ sl',
          channel_at tbl' c = Some sl' ∧
          magic sl' = magic sl ∧
          tty sl' = tty sl ∧
          (tty sl ≠ None → sl' = sl) ∧
          (∀ j, 0 ≤ j → j ≠ c → dev_at sl' j = dev_at sl j) ∧
          (tty sl = None →
           c < maxchannel →
           0 < muxnetdevs →
           (∀ k, 0 ≤ k < c → channel_at tbl k ≠ None) →
           ∀ nd, dev_at sl c = Some nd → running nd = true →
             ∃ nd', dev_at sl' c = Some nd' ∧ running nd' = false ∧
                    queue_stopped nd' = true ∧ xleft (priv nd') = 0).
Proof.
  intros Hb.
  destruct (slc_sync_loop_spec muxnetdevs (Z.to_nat maxchannel) 0 tbl ltac:(lia))
    as (tbl' & Hloop & Hlen & _ & Hall).
  { intros c sl Hc. apply Hb. unfold MUX_NETDEV_MAX in *. lia. }
  exists tbl'. split; [exact Hloop |]. split; [exact Hlen |].
  intros c Hc. specialize (Hall c Hc). split.
  { intros E. by rewrite E in Hall. }
  intros sl Esl. rewrite Esl in Hall. destruct Hall as [Hcase Hreach].
  destruct (tty sl) as [t |] eqn:Et.
  - destruct Hcase as [Hsame | [? _]]; [| discriminate].
    exists sl. repeat split; try done.
  - destruct Hcase as [Hsame | (_ & Hslot & Hsync)].
    + exists sl. split; [exact Hsame |]. repeat split; try done.
      intros _ Hmax Hmux Hocc nd Hnd Hrun.
      assert (Hslot : c < MUX_NETDEV_MAX).
      { destruct (Z.lt_ge_cases c MUX_NETDEV_MAX) as [Hlt | Hge]; [exact Hlt |].
        exfalso. apply (Hb c sl); [lia | exact Esl | exact Et]. }
      destruct (slc_sync_devs_spec c (Z.to_nat muxnetdevs) sl Hslot Et)
        as (sl1 & Hdevs & _ & _ & _ & _ & _ & Hdown).
      rewrite Hreach, Hdevs in Hsame by (try done; lia).
      injection Hsame as ->.
      apply (Hdown nd Hnd Hrun). lia.
    + destruct (slc_sync_devs_spec c (Z.to_nat muxnetdevs) sl Hslot Et)
        as (sl1 & Hdevs & Htty1 & Hmagic1 & Hoth & _ & _ & Hdown).
      exists sl1. split; [by rewrite Hsync, Hdevs |].
      split; [exact Hmagic1 |]. split; [exact Htty1 |]. split; [done |].
      split; [intros j Hj Hne; apply Hoth; lia |].
      intros _ Hmax Hmux Hocc nd Hnd Hrun. apply (Hdown nd Hnd Hrun). lia.
Qed.

(** ** Opening the line discipline *)

(** What [slcan_open] has done when it returns no error number of its own:
    the table was swept, the first free entry [i] was given a new channel
    linked to the transport, and the devices were registered, or the first
    failure of a registration undid the link. *)
Lemma slcan_open_tty_inv maxchannel muxnetdevs capable write_op kzalloc_ok netdev_ok
    register_netdevice t st r st1 :
  slcan_open_tty maxchannel muxnetdevs capable write_op kzalloc_ok netdev_ok
    register_netdevice t st = Some (r, st1) →
  (∀ e, r ≠ Errno e) →
  ∃ tbl0 i,
    slc_sync maxchannel muxnetdevs (slcan_channels st) = Some tbl0 ∧
    0 ≤ i < maxchannel ∧
    (Z.to_nat i < length tbl0)%nat ∧
    channel_at tbl0 i = None ∧
    (∀ k, 0 ≤ k < i → channel_at tbl0 k ≠ None) ∧
    let sl1 := slcan_open t (slc_alloc muxnetdevs) in
    let err := register_netdevices register_netdevice (Z.to_nat muxnetdevs) 0 in
    (r = Success ∧ err = 0 ∧
     st1 = LdiscState (<[Z.to_nat i := Some sl1]> tbl0) (Some i)) ∨
    (r = Status err ∧ err ≠ 0 ∧
     st1 = LdiscState
             (<[Z.to_nat i := Some (set_flags (set_tty sl1 None)
                                      (Z.clearbit (flags sl1) SLF_INUSE))]> tbl0)
             None).
Proof.
  intros H Hr. unfold slcan_open_tty in H.
  destruct capable; cbn [negb] in H; [| injection H as <- _; by destruct (Hr EPERM)].
  destruct write_op; cbn [negb] in H; [| injection H as <- _; by destruct (Hr EOPNOTSUPP)].
  destruct (slc_sync maxchannel muxnetdevs (slcan_channels st)) as [tbl0 |];
    [| discriminate].
  cbn [mbind option_bind] in H.
  assert (H' :
    match slc_alloc_table maxchannel muxnetdevs kzalloc_ok netdev_ok tbl0 with
    | (None, tbl1) => Some (Errno ENFILE, LdiscState tbl1 (disc_data st))
    | (Some i, tbl1) =>
        sl ← channel_at tbl1 i;
        if Z.testbit (flags sl) SLF_INUSE then
          Some (Success, LdiscState (<[Z.to_nat i := Some (set_tty sl (Some t))]> tbl1)
                           (Some i))
        else
          let sl1 := slcan_open t sl in
          let err := register_netdevices register_netdevice (Z.to_nat muxnetdevs) 0 in
          if err =? 0 then
            Some (Success, LdiscState (<[Z.to_nat i := Some sl1]> tbl1) (Some i))
          else
            Some (Status err,
                  LdiscState
                    (<[Z.to_nat i :=
                         Some (set_flags (set_tty sl1 None)
                                 (Z.clearbit (flags sl1) SLF_INUSE))]> tbl1)
                    None)
    end = Some (r, st1)).
  { destruct (disc_data st) as [c |]; cbn [mbind option_bind] in H.
    - destruct (channel_at tbl0 c) as [slc |]; cbn [mbind option_bind] in H;
        [| discriminate].
      destruct (magic slc =? SLCAN_MAGIC); [| exact H].
      injection H as <- _. by destruct (Hr EEXIST).
    - exact H. }
  clear H. rename H' into H.
  unfold slc_alloc_table in H.
  destruct (slc_free_slot_spec tbl0 (Z.to_nat maxchannel) 0 ltac:(lia)) as (Hrange & Hocc & Hfree).
  set (i := slc_free_slot tbl0 (Z.to_nat maxchannel) 0) in *.
  destruct (Z.leb_spec maxchannel i); [injection H as <- _; by destruct (Hr ENFILE) |].
  destruct kzalloc_ok; cbn [negb] in H; [| injection H as <- _; by destruct (Hr ENFILE)].
  destruct (forallb netdev_ok _); cbn [negb] in H;
    [| injection H as <- _; by destruct (Hr ENFILE)].
  rewrite channel_at_insert in H.
  destruct (decide _) as [[_ Hin] |].
  2: { rewrite (Hfree ltac:(lia)) in H. discriminate. }
  cbn [mbind option_bind] in H.
  change (Z.testbit (flags (slc_alloc muxnetdevs)) SLF_INUSE) with false in H.
  cbv iota in H. rewrite list_insert_insert_eq in H.
  exists tbl0, i. split; [reflexivity |]. split; [lia |]. split; [exact Hin |].
  split; [apply Hfree; lia |]. split; [intros k Hk; apply Hocc; lia |].
  cbv zeta.
  destruct (Z.eqb_spec (register_netdevices register_netdevice (Z.to_nat muxnetdevs) 0) 0)
    as [E | E]; injection H as <- <-.
  - left. rewrite ?list_insert_insert_eq. done.
  - right. rewrite ?list_insert_insert_eq. done.
Qed.

(** A successful [slcan_open] has swept the table, taken its first free
    entry for a new channel and pointed the transport to it: the channel
    is linked to the transport and marked in use, its receive counter is 0
    and its error flag clear, and its devices are those [slc_alloc] made;
    the other entries are as the sweep left them. *)
Theorem slcan_open_binds_first_free maxchannel muxnetdevs capable write_op kzalloc_ok
    netdev_ok register_netdevice t st st1 :
  slcan_open_tty maxchannel muxnetdevs capable write_op kzalloc_ok netdev_ok
    register_netdevice t st = Some (Success, st1) →
  ∃ tbl0 i sl,
    slc_sync maxchannel muxnetdevs (slcan_channels st) = Some tbl0 ∧
    0 ≤ i < maxchannel ∧
    channel_at tbl0 i = None ∧
    (∀ k, 0 ≤ k < i → channel_at tbl0 k ≠ None) ∧
    disc_data st1 = Some i ∧
    channel_at (slcan_channels st1) i = Some sl ∧
    (∀ k, 0 ≤ k → k ≠ i → channel_at (slcan_channels st1) k = channel_at tbl0 k) ∧
    magic sl = SLCAN_MAGIC ∧
    tty sl = Some t ∧
    rcount sl = 0 ∧
    Z.testbit (flags sl) SLF_INUSE = true ∧
    Z.testbit (flags sl) SLF_ERROR = false ∧
    dev sl = dev (slc_alloc muxnetdevs).
Proof.
  intros H.
  destruct (slcan_open_tty_inv _ _ _ _ _ _ _ _ _ _ _ H ltac:(discriminate))
    as (tbl0 & i & Hsync & Hi & Hin & Hfree & Hocc & [(_ & _ & ->) | (? & _)]);
    [| discriminate].
  exists tbl0, i, (slcan_open t (slc_alloc muxnetdevs)).
  cbn [disc_data slcan_channels].
  split; [exact Hsync |]. split; [exact Hi |]. split; [exact Hfree |].
  split; [exact Hocc |]. split; [reflexivity |].
  split; [by rewrite channel_at_insert, decide_True |].
  split.
  { intros k Hk Hne. rewrite channel_at_insert.
    destruct (decide _) as [[Hik _] |]; [lia | reflexivity]. }
  repeat split; reflexivity.
Qed.

(** A channel, once bound, stays bound: a second [slcan_open] on a
    transport that a successful [slcan_open] has linked to a channel is
    refused with EEXIST, whatever the outcome of the allocations would be;
    the transport still points to its channel, which is unchanged.  (The
    table holds no channel without transport in an entry from
    [MUX_NETDEV_MAX] on, so that the sweep of the second call reads inside
    the array [dev].) *)
Theorem reopen_rejected maxchannel muxnetdevs capable write_op kzalloc_ok netdev_ok
    register_netdevice t st st1 kzalloc_ok' netdev_ok' register_netdevice' t' :
  (∀ c sl, MUX_NETDEV_MAX ≤ c < maxchannel →
     channel_at (slcan_channels st) c = Some sl → tty sl ≠ None) →
  slcan_open_tty maxchannel muxnetdevs capable write_op kzalloc_ok netdev_ok
    register_netdevice t st = Some (Success, st1) →
  ∃ st2,
    slcan_open_tty maxchannel muxnetdevs true true kzalloc_ok' netdev_ok'
      register_netdevice' t' st1 = Some (Errno EEXIST, st2) ∧
    disc_data st2 = disc_data st1 ∧
    ∃ i, disc_data st1 = Some i ∧
         channel_at (slcan_channels st2) i = channel_at (slcan_channels st1) i ∧
         channel_at (slcan_channels st1) i ≠ None.
Proof.
  intros Hb H.
  destruct (slcan_open_tty_inv _ _ _ _ _ _ _ _ _ _ _ H ltac:(discriminate))
    as (tbl0 & i & Hsync & Hi & Hin & Hfree & Hocc & [(_ & _ & ->) | (? & _)]);
    [| discriminate].
  set (sl1 := slcan_open t (slc_alloc muxnetdevs)).
  set (tbl1 := <[Z.to_nat i := Some sl1]> tbl0).
  assert (Hsl1 : channel_at tbl1 i = Some sl1)
    by (subst tbl1; by rewrite channel_at_insert, decide_True).
  destruct (slc_sync_keeps_tty maxchannel muxnetdevs (slcan_channels st) Hb)
    as (tbl0' & Hsync' & _ & Hkept).
  rewrite Hsync in Hsync'. injection Hsync' as <-.
  assert (Hb1 : ∀ c sl, MUX_NETDEV_MAX ≤ c < maxchannel →
            channel_at tbl1 c = Some sl → tty sl ≠ None).
  { intros c slc Hc Hslc. subst tbl1. rewrite channel_at_insert in Hslc.
    destruct (decide _) as [_ |]; [by injection Hslc as <- |].
    specialize (Hkept c ltac:(unfold MUX_NETDEV_MAX in *; lia)).
    destruct (channel_at (slcan_channels st) c) as [sl |] eqn:Eorig; [| congruence].
    destruct Hkept as (sl' & Hsl' & Htty & _).
    assert (slc = sl') by congruence. subst slc. rewrite Htty.
    by apply (Hb c sl). }
  destruct (slc_sync_keeps_tty maxchannel muxnetdevs tbl1 Hb1)
    as (tbl2 & Hsync2 & _ & Hkept2).
  specialize (Hkept2 i ltac:(lia)). rewrite Hsl1 in Hkept2.
  destruct Hkept2 as (sl' & Hsl' & _ & _ & Hsame).
  rewrite (Hsame ltac:(discriminate)) in Hsl'.
  exists (LdiscState tbl2 (Some i)). unfold slcan_open_tty.
  cbn [negb disc_data slcan_channels]. fold tbl1. rewrite Hsync2.
  cbn [mbind option_bind]. rewrite Hsl'. cbn [mbind option_bind].
  change (magic sl1 =? SLCAN_MAGIC) with true. cbv iota.
  split; [reflexivity |]. split; [reflexivity |].
  exists i. split; [reflexivity |]. split; congruence.
Qed.

(** Opening and closing leave the table as the sweep made it: after a
    successful [slcan_open], [slcan_close] on the same transport frees the
    entry that was taken, and the transport points to no channel. *)
Theorem open_close_round_trip maxchannel muxnetdevs capable write_op kzalloc_ok netdev_ok
    register_netdevice t st st1 :
  1 ≤ muxnetdevs ≤ MUX_NETDEV_MAX →
  slcan_open_tty maxchannel muxnetdevs capable write_op kzalloc_ok netdev_ok
    register_netdevice t st = Some (Success, st1) →
  ∃ tbl0,
    slc_sync maxchannel muxnetdevs (slcan_channels st) = Some tbl0 ∧
    slcan_close true maxchannel muxnetdevs st1 = Some (LdiscState tbl0 None).
Proof.
  intros Hmux H.
  destruct (slcan_open_tty_inv _ _ _ _ _ _ _ _ _ _ _ H ltac:(discriminate))
    as (tbl0 & i & Hsync & Hi & Hin & Hfree & Hocc & [(_ & _ & ->) | (? & _)]);
    [| discriminate].
  exists tbl0. split; [exact Hsync |].
  rewrite (slcan_close_entry maxchannel muxnetdevs _ i
             (slcan_open t (slc_alloc muxnetdevs)) t); try done; try lia.
  - rewrite list_insert_insert_eq, list_insert_id; [reflexivity |].
    unfold channel_at in Hfree.
    destruct (tbl0 !! Z.to_nat i) as [o |] eqn:E.
    + cbn in Hfree. by subst o.
    + apply lookup_ge_None in E. lia.
  - by rewrite channel_at_insert, decide_True.
  - intros k Hk. exists (alloc_netdev k). split; [| reflexivity].
    change (dev_at (slcan_open t (slc_alloc muxnetdevs)) k)
      with (dev_at (slc_alloc muxnetdevs) k).
    rewrite slc_alloc_dev_at by lia.
    replace ((k <? MUX_NETDEV_MAX) && (k <? muxnetdevs)) with true by bool_lia.
    reflexivity.
Qed.

(** A registration that fails costs an entry of the table.  When
    [slcan_open] returns the error of [register_netdevice], the transport
    points to no channel, but the channel that was allocated is still in
    the entry it was given, which was free before the call: it has no
    transport and is not marked in use. *)
Theorem failed_registration_keeps_entry maxchannel muxnetdevs capable write_op kzalloc_ok
    netdev_ok register_netdevice t st err st1 :
  slcan_open_tty maxchannel muxnetdevs capable write_op kzalloc_ok netdev_ok
    register_netdevice t st = Some (Status err, st1) →
  err ≠ 0 ∧
  disc_data st1 = None ∧
  ∃ tbl0 i sl,
    slc_sync maxchannel muxnetdevs (slcan_channels st) = Some tbl0 ∧
    0 ≤ i < maxchannel ∧
    channel_at tbl0 i = None ∧
    channel_at (slcan_channels st1) i = Some sl ∧
    magic sl = SLCAN_MAGIC ∧
    tty sl = None ∧
    Z.testbit (flags sl) SLF_INUSE = false ∧
    (∀ k, 0 ≤ k → k ≠ i → channel_at (slcan_channels st1) k = channel_at tbl0 k).
Proof.
  intros H.
  destruct (slcan_open_tty_inv _ _ _ _ _ _ _ _ _ _ _ H ltac:(discriminate))
    as (tbl0 & i & Hsync & Hi & Hin & Hfree & Hocc & [(? & _) | (Herr & Hne & ->)]);
    [discriminate |].
  injection Herr as ->. split; [exact Hne |]. split; [reflexivity |].
  eexists tbl0, i, _. cbn [slcan_channels].
  split; [exact Hsync |]. split; [exact Hi |]. split; [exact Hfree |].
  split; [by rewrite channel_at_insert, decide_True |].
  split; [reflexivity |]. split; [reflexivity |].
  split; [apply Z.clearbit_eq |].
  intros k Hk Hnk. rewrite channel_at_insert.
  destruct (decide _) as [[Hik _] |]; [lia | reflexivity].
Qed.

(** When every entry of the table is taken, [slcan_open] on a transport
    that points to no channel fails with ENFILE; the sweep is all that
    happened to the table, and no entry was freed by it.  (The table holds
    no channel without transport in an entry from [MUX_NETDEV_MAX] on, so
    that the sweep reads inside the array [dev].) *)
Theorem slcan_open_table_full maxchannel muxnetdevs kzalloc_ok netdev_ok
    register_netdevice t tbl :
  (∀ c sl, MUX_NETDEV_MAX ≤ c < maxchannel →
     channel_at tbl c = Some sl → tty sl ≠ None) →
  (∀ k, 0 ≤ k < maxchannel → channel_at tbl k ≠ None) →
  ∃ tbl0,
    slc_sync maxchannel muxnetdevs tbl = Some tbl0 ∧
    (∀ k, 0 ≤ k < maxchannel → channel_at tbl0 k ≠ None) ∧
    slcan_open_tty maxchannel muxnetdevs true true kzalloc_ok netdev_ok
      register_netdevice t (LdiscState tbl None)
    = Some (Errno ENFILE, LdiscState tbl0 None).
Proof.
  intros Hb Hfull.
  destruct (slc_sync_keeps_tty maxchannel muxnetdevs tbl Hb)
    as (tbl0 & Hsync & _ & Hkept).
  assert (Hfull0 : ∀ k, 0 ≤ k < maxchannel → channel_at tbl0 k ≠ None).
  { intros k Hk. specialize (Hkept k ltac:(lia)). specialize (Hfull k Hk).
    destruct (channel_at tbl k) as [sl |]; [| done].
    destruct Hkept as (sl' & -> & _). done. }
  exists tbl0. split; [exact Hsync |]. split; [exact Hfull0 |].
  unfold slcan_open_tty. cbn [negb slcan_channels disc_data].
  rewrite Hsync. cbn [mbind option_bind].
  unfold slc_alloc_table.
  destruct (slc_free_slot_spec tbl0 (Z.to_nat maxchannel) 0 ltac:(lia)) as (Hr & _ & Hfree).
  destruct (Z.leb_spec maxchannel (slc_free_slot tbl0 (Z.to_nat maxchannel) 0))
    as [_ | Hlt]; [reflexivity |].
  exfalso. apply (Hfull0 (slc_free_slot tbl0 (Z.to_nat maxchannel) 0)); [lia |].
  apply Hfree. lia.
Qed.

Lemma slcan_open_binds_first_free_witness :
  ∃ tbl0 i sl,
    slc_sync 4 2 (slcan_channels state_unbound) = Some tbl0 ∧
    0 ≤ i < 4 ∧
    channel_at tbl0 i = None ∧
    (∀ k, 0 ≤ k < i → channel_at tbl0 k ≠ None) ∧
    disc_data state_opened = Some i ∧
    channel_at (slcan_channels state_opened) i = Some sl ∧
    (∀ k, 0 ≤ k → k ≠ i → channel_at (slcan_channels state_opened) k = channel_at tbl0 k) ∧
    magic sl = SLCAN_MAGIC ∧
    tty sl = Some (TtyStruct 0 []) ∧
    rcount sl = 0 ∧
    Z.testbit (flags sl) SLF_INUSE = true ∧
    Z.testbit (flags sl) SLF_ERROR = false ∧
    dev sl = dev (slc_alloc 2).
Proof.
  apply (slcan_open_binds_first_free 4 2 true true true (fun _ => true) (fun _ => 0)
           (TtyStruct 0 []) state_unbound state_opened).
  reflexivity.
Defined.

Lemma table_twelve_in_bounds c sl :
  MUX_NETDEV_MAX ≤ c < 12 → channel_at table_twelve c = Some sl → tty sl ≠ None.
Proof.
  intros Hc H. assert (Hc' : c = 10 ∨ c = 11) by (unfold MUX_NETDEV_MAX in Hc; lia).
  destruct Hc' as [-> | ->]; vm_compute in H; [| discriminate].
  injection H as <-. discriminate.
Qed.

(** On [table_twelve] the first [slcan_open] takes entry 2, and the second
    one is refused. *)
Lemma reopen_rejected_witness :
  disc_data state_opened12 = Some 2 ∧
  ∃ st2,
    slcan_open_tty 12 2 true true true (fun _ => true) (fun _ => 0) (TtyStruct 0 [])
      state_opened12 = Some (Errno EEXIST, st2) ∧
    disc_data st2 = disc_data state_opened12 ∧
    ∃ i, disc_data state_opened12 = Some i ∧
         channel_at (slcan_channels st2) i = channel_at (slcan_channels state_opened12) i ∧
         channel_at (slcan_channels state_opened12) i ≠ None.
Proof.
  split; [reflexivity |].
  apply (reopen_rejected 12 2 true true true (fun _ => true) (fun _ => 0) (TtyStruct 0 [])
           state_unbound12 state_opened12 true (fun _ => true) (fun _ => 0)
           (TtyStruct 0 [])).
  - exact table_twelve_in_bounds.
  - reflexivity.
Defined.

Lemma open_close_round_trip_witness :
  ∃ tbl0,
    slc_sync 4 2 (slcan_channels state_unbound) = Some tbl0 ∧
    slcan_close true 4 2 state_opened = Some (LdiscState tbl0 None).
Proof.
  apply (open_close_round_trip 4 2 true true true (fun _ => true) (fun _ => 0)
           (TtyStruct 0 []) state_unbound state_opened).
  - unfold MUX_NETDEV_MAX. lia.
  - reflexivity.
Defined.

Lemma failed_registration_keeps_entry_witness :
  -19 ≠ 0 ∧
  disc_data state_failed = None ∧
  ∃ tbl0 i sl,
    slc_sync 4 2 (slcan_channels state_unbound) = Some tbl0 ∧
    0 ≤ i < 4 ∧
    channel_at tbl0 i = None ∧
    channel_at (slcan_channels state_failed) i = Some sl ∧
    magic sl = SLCAN_MAGIC ∧
    tty sl = None ∧
    Z.testbit (flags sl) SLF_INUSE = false ∧
    (∀ k, 0 ≤ k → k ≠ i → channel_at (slcan_channels state_failed) k = channel_at tbl0 k).
Proof.
  apply (failed_registration_keeps_entry 4 2 true true true (fun _ => true)
           (fun j => if j =? 1 then -19 else 0) (TtyStruct 0 []) state_unbound (-19)
           state_failed).
  reflexivity.
Defined.

Lemma slcan_open_table_full_witness :
  ∃ tbl0,
    slc_sync 12 2 table_full = Some tbl0 ∧
    (∀ k, 0 ≤ k < 12 → channel_at tbl0 k ≠ None) ∧
    slcan_open_tty 12 2 true true true (fun _ => true) (fun _ => 0) (TtyStruct 0 [])
      (LdiscState table_full None)
    = Some (Errno ENFILE, LdiscState tbl0 None).
Proof.
  apply (slcan_open_table_full 12 2 true (fun _ => true) (fun _ => 0) (TtyStruct 0 [])
           table_full).
  - intros c sl Hc H.
    assert (Hc' : c = 10 ∨ c = 11) by (unfold MUX_NETDEV_MAX in Hc; lia).
    destruct Hc' as [-> | ->]; vm_compute in H; injection H as <-; discriminate.
  - intros k Hk.
    assert (Hk' : k = 0 ∨ k = 1 ∨ k = 2 ∨ k = 3 ∨ k = 4 ∨ k = 5 ∨ k = 6 ∨ k = 7
                  ∨ k = 8 ∨ k = 9 ∨ k = 10 ∨ k = 11) by lia.
    repeat (destruct Hk' as [-> | Hk']; [discriminate |]). subst k. discriminate.
Defined.

(** The sweep of [table_twelve]: in the channel without transport of entry
    0 the device of slot 0 is taken down and the device of slot 1 stays
    up. *)
Lemma slc_sync_closes_own_index_witness :
  ∃ tbl' sl',
    slc_sync 12 2 table_twelve = Some tbl' ∧
    channel_at tbl' 0 = Some sl' ∧
    tty sl' = None ∧
    running <$> dev_at sl' 0 = Some false ∧
    dev_at sl' 1 = dev_at channel_hungup 1 ∧
    running <$> dev_at sl' 1 = Some true.
Proof.
  destruct (slc_sync_closes_own_index 12 2 table_twelve table_twelve_in_bounds)
    as (tbl' & Hsync & _ & Hall).
  destruct (Hall 0 ltac:(lia)) as [_ H0].
  destruct (H0 channel_hungup eq_refl)
    as (sl' & Hsl' & _ & Htty & _ & Hoth & Hdown).
  destruct (Hdown eq_refl ltac:(lia) ltac:(lia) ltac:(intros k Hk; lia)
              (fresh_device 0) eq_refl eq_refl)
    as (nd' & Hnd' & Hrun' & _).
  exists tbl', sl'. split; [exact Hsync |]. split; [exact Hsl' |].
  split; [exact Htty |]. split; [by rewrite Hnd'; cbn; rewrite Hrun' |].
  split; [apply Hoth; lia |]. rewrite Hoth by lia. reflexivity.
Defined.

(** ** The transmit cursor *)

(** The transmit path never lets a cursor leave its buffer.  On a channel
    whose devices all have their cursor inside their buffer, and as long as
    the transport returns no more than it was given and no negative
    number, this is still so after a writable notification, after
    [slc_xmit] of a valid frame on any endpoint, whether the frame is sent
    or dropped, and after [slc_close] of any endpoint; each of the three
    returns. *)
Theorem transmit_cursor_in_buffer muxnetdevs sl :
  0 ≤ muxnetdevs ≤ MUX_NETDEV_MAX →
  (∀ k, 0 ≤ k < muxnetdevs → dev_at sl k ≠ None) →
  cursors_ok muxnetdevs sl →
  (∀ w t,
     magic sl = SLCAN_MAGIC →
     tty sl = Some t →
     (∀ j nd, 0 ≤ j < muxnetdevs → dev_at sl j = Some nd →
        running nd = true → 0 < xleft (priv nd) → 0 ≤ w j ≤ xleft (priv nd)) →
     ∃ sl', slcan_write_wakeup muxnetdevs w sl = Some sl' ∧ cursors_ok muxnetdevs sl') ∧
  (∀ i nd actual skb_len cf,
     valid_frame cf →
     0 ≤ i < muxnetdevs →
     dev_at sl i = Some nd →
     addr (priv nd) = i →
     0 ≤ actual ≤ Z.of_nat (length (slc_encaps_string muxnetdevs cf i)) →
     ∃ sl', slc_xmit muxnetdevs actual sl i skb_len cf = Some sl' ∧
            cursors_ok muxnetdevs sl') ∧
  (∀ i,
     0 ≤ i < muxnetdevs →
     ∃ sl', slc_close sl i = Some sl' ∧ cursors_ok muxnetdevs sl').
Proof.
  intros Hmux Hdevs Hok. split; [| split].
  - intros w t Hmagic Htty Hw.
    destruct (write_wakeup_loop_devices w (Z.to_nat muxnetdevs) 0 sl)
      as (sl' & Hloop & _ & Hdev'); [lia | congruence | |].
    { intros k Hk. apply Hdevs. lia. }
    exists sl'. split.
    { unfold slcan_write_wakeup. rewrite Hmagic, Z.eqb_refl. exact Hloop. }
    intros j nd' Hj Hnd'. rewrite Hdev' in Hnd' by lia.
    replace ((0 <=? j) && (j <? 0 + Z.of_nat (Z.to_nat muxnetdevs))) with true in Hnd'
      by (rewrite Z2Nat.id by lia; bool_lia).
    destruct (dev_at sl j) as [nd |] eqn:End; [| discriminate].
    injection Hnd' as <-.
    pose proof (Hok j nd Hj End) as (Hh & Hl & Hsum & Hfit).
    unfold wakeup_device, cursor_ok.
    destruct (running nd) eqn:Erun; cbn [negb]; [| done].
    destruct (Z.leb_spec (xleft (priv nd)) 0) as [Hz | Hpos]; [done |].
    specialize (Hw j nd Hj End Erun Hpos).
    cbn [priv set_priv xhead xleft xbuff]. lia.
  - intros i nd actual skb_len cf Hvalid Hi Hnd Haddr Hact.
    destruct (Z.eq_dec skb_len 16) as [-> | Hlen].
    2: { exists sl. split; [| exact Hok]. unfold slc_xmit. rewrite Hnd.
         cbn [mbind option_bind]. by replace (skb_len =? 16) with false by lia. }
    destruct (running nd) eqn:Erun.
    2: { exists sl. split; [| exact Hok]. unfold slc_xmit. rewrite Hnd.
         cbn [mbind option_bind]. rewrite Erun. reflexivity. }
    destruct (tty sl) as [t |] eqn:Et.
    2: { exists sl. split; [| exact Hok]. unfold slc_xmit. rewrite Hnd.
         cbn [mbind option_bind]. rewrite Erun, Et. reflexivity. }
    assert (Hfit : Z.of_nat (length (slc_encaps_string muxnetdevs cf i)) < SLC_MTU).
    { pose proof Hvalid as (_ & _ & Hdlc & _ & _).
      pose proof (enc_body_length muxnetdevs cf i Hvalid) as Hbody.
      rewrite slc_encaps_string_body by exact Hdlc.
      rewrite length_app. cbn [length]. unfold SLC_MTU. lia. }
    rewrite (slc_xmit_sends muxnetdevs actual sl i cf nd t) by (try done; lia).
    cbv zeta. eexists. split; [reflexivity |].
    intros j ndj Hj Hndj.
    change (dev_at (set_tty ?x ?y) j) with (dev_at x j) in Hndj.
    rewrite dev_at_insert in Hndj.
    destruct (decide _) as [[Hij _] |]; [| by apply (Hok j)].
    injection Hndj as <-. unfold cursor_ok. cbn [priv xhead xleft xbuff]. lia.
  - intros i Hi. unfold slc_close.
    destruct (dev_at sl i) as [nd |] eqn:End; [| by destruct (Hdevs i Hi)].
    cbn [mbind option_bind]. eexists. split; [reflexivity |].
    intros j ndj Hj Hndj.
    change (dev_at (set_rcount ?x 0) j) with (dev_at x j) in Hndj.
    change (dev_at (set_tty ?x ?y) j) with (dev_at x j) in Hndj.
    rewrite dev_at_insert in Hndj.
    destruct (decide _) as [[Hij _] |]; [| by apply (Hok j)].
    injection Hndj as <-.
    pose proof (Hok i nd Hi End) as (Hh & Hl & Hsum & Hfit).
    unfold cursor_ok. cbn [priv xhead xleft xbuff]. lia.
Qed.

(** The channel with a single endpoint that has 7 of 12 bytes pending. *)
Lemma transmit_cursor_in_buffer_witness :
  (∀ w t,
     magic channel_pending = SLCAN_MAGIC →
     tty channel_pending = Some t →
     (∀ j nd, 0 ≤ j < 1 → dev_at channel_pending j = Some nd →
        running nd = true → 0 < xleft (priv nd) → 0 ≤ w j ≤ xleft (priv nd)) →
     ∃ sl', slcan_write_wakeup 1 w channel_pending = Some sl' ∧ cursors_ok 1 sl') ∧
  (∀ i nd actual skb_len cf,
     valid_frame cf →
     0 ≤ i < 1 →
     dev_at channel_pending i = Some nd →
     addr (priv nd) = i →
     0 ≤ actual ≤ Z.of_nat (length (slc_encaps_string 1 cf i)) →
     ∃ sl', slc_xmit 1 actual channel_pending i skb_len cf = Some sl' ∧
            cursors_ok 1 sl') ∧
  (∀ i,
     0 ≤ i < 1 →
     ∃ sl', slc_close channel_pending i = Some sl' ∧ cursors_ok 1 sl').
Proof.
  apply (transmit_cursor_in_buffer 1 channel_pending).
  - unfold MUX_NETDEV_MAX. lia.
  - intros k Hk. assert (k = 0) by lia. subst k. discriminate.
  - intros j nd Hj Hnd. assert (j = 0) by lia. subst j.
    vm_compute in Hnd. injection Hnd as <-.
    vm_compute. repeat split; first [discriminate | reflexivity].
Defined.
